(** * Editor host (ComponentView) and action sheet (BottomSheet)

    A shallow embedding of the two source files of the repository:
    - [src/src/components/BottomSheet.tsx]: the action sheet, its snap
      point, the expand/collapse targets and the press handler of an action;
    - the editor host component ([ComponentView], in [src/unnamed/part_000]):
      the update check of a component, the offline resolution of an editor,
      the choice of the URL to load, the interception of navigations, the
      timers of a frame load and the warning about old Android versions.

    JavaScript numbers that are layout heights are modelled as exact
    rationals; asynchronous functions are modelled in a state-and-exception
    monad over a world made of the file system, the item store, the React
    state of the view and a log of the calls made to the outside. *)

From Stdlib Require Import ZArith QArith Lqa.
From Stdlib Require Import Ascii String DecimalString.
From stdpp Require Import base option list strings gmap.

Set Warnings "-register-all".

Local Open Scope string_scope.
Local Open Scope list_scope.

(* ===================================================================== *)
(** * JavaScript values used by the two components *)
(* ===================================================================== *)

Module Js.

(** Truthiness of a string: only the empty string is falsy. *)
Definition truthy_string (s : string) : bool :=
  match s with
  | EmptyString => false
  | String _ _ => true
  end.

(** Truthiness of an optional boolean property. *)
Definition truthy_bool (b : option bool) : bool :=
  match b with
  | Some true => true
  | _ => false
  end.

(** A value produced by [JSON.parse]. Numbers are the integral ones; an
    object lists its properties, each name once. *)
Inductive json : Type :=
| JNull
| JBool (b : bool)
| JNum (z : Z)
| JStr (s : string)
| JArr (elems : list json)
| JObj (fields : list (string * json)).

(** A JavaScript value read out of a parsed document: [None] is
    [undefined]. *)
Definition value : Type := option json.

Definition truthy_json (j : json) : bool :=
  match j with
  | JNull => false
  | JBool b => b
  | JNum z => negb (z =? 0)%Z
  | JStr s => truthy_string s
  | JArr _ => true
  | JObj _ => true
  end.

Definition truthy_value (v : value) : bool :=
  match v with
  | None => false
  | Some j => truthy_json j
  end.

Fixpoint assoc {A : Type} (k : string) (l : list (string * A)) : option A :=
  match l with
  | [] => None
  | (k', a) :: rest => if String.eqb k k' then Some a else assoc k rest
  end.

(** [v?.name]: [undefined] when [v] is [undefined] or [null], the own
    property of an object, and [undefined] on the other parsed values
    for the names read here (none of them is [length] or an index). *)
Definition opt_chain (v : value) (name : string) : value :=
  match v with
  | Some (JObj fields) => assoc name fields
  | _ => None
  end.

(** [a || b] with a string literal on the right. *)
Definition or_else (v : value) (dflt : string) : json :=
  if truthy_value v then
    match v with
    | Some j => j
    | None => JStr dflt
    end
  else JStr dflt.

Definition string_of_Z (z : Z) : string :=
  NilZero.string_of_int (Z.to_int z).

(** [String(j)], the conversion made by a template literal. The elements
    of an array are joined by commas, a [null] element printing as the
    empty string. *)
Fixpoint to_string (j : json) : string :=
  match j with
  | JNull => "null"
  | JBool true => "true"
  | JBool false => "false"
  | JNum z => string_of_Z z
  | JStr s => s
  | JArr elems =>
      let elem (x : json) : string :=
        match x with
        | JNull => ""
        | _ => to_string x
        end in
      (fix join (l : list json) : string :=
         match l with
         | [] => ""
         | [x] => elem x
         | x :: rest => elem x +:+ "," +:+ join rest
         end) elems
  | JObj _ => "[object Object]"
  end.

End Js.

(* ===================================================================== *)
(** * The action sheet: [src/src/components/BottomSheet.tsx] *)
(* ===================================================================== *)

Module BottomSheet.

(** ** Data model *)

(** A callback [() => void] handed in by the caller is opaque to the
    sheet: it is named by a token and its invocations are recorded. *)
Definition Callback : Type := nat.

Definition IconType : Type := string.

(** [BottomSheetActionType]; an optional boolean is absent ([None]),
    [false] or [true]. *)
Record BottomSheetActionType : Type := {
  text : string;
  key : string;
  iconType : option IconType;
  callback : option Callback;
  danger : option bool;
  centered : option bool;
  description : option string;
  dismissSheetOnPress : option bool
}.

(** [BottomSheetSectionType], a union tagged by [expandable]. *)
Inductive BottomSheetSectionType : Type :=
| BottomSheetDefaultSectionType
    (key : string) (actions : list BottomSheetActionType)
| BottomSheetExpandableSectionType
    (key : string) (actions : list BottomSheetActionType)
    (text : string) (iconType : option IconType)
    (description : option string).

Definition expandable (s : BottomSheetSectionType) : bool :=
  match s with
  | BottomSheetDefaultSectionType _ _ => false
  | BottomSheetExpandableSectionType _ _ _ _ _ => true
  end.

Definition section_key (s : BottomSheetSectionType) : string :=
  match s with
  | BottomSheetDefaultSectionType k _ => k
  | BottomSheetExpandableSectionType k _ _ _ _ => k
  end.

Definition section_actions (s : BottomSheetSectionType)
  : list BottomSheetActionType :=
  match s with
  | BottomSheetDefaultSectionType _ a => a
  | BottomSheetExpandableSectionType _ a _ _ _ => a
  end.

(** ** Pressing an action (lines 203-217) *)

(** The calls a handler makes to the functions it was given. *)
Inductive Call : Type :=
| CallCallback (c : Callback)
| CallDismissBottomSheet.

#[global] Instance Call_eq_dec : EqDecision Call.
Proof. solve_decision. Defined.





(** Number of occurrences of a call in a trace. *)
Definition occurrences (c : Call) (trace : list Call) : nat :=
  length (filter (λ x, x = c) trace).

(** ** Sizing (lines 310-323) *)

(** [contentHeight = titleHeight + listHeight]. *)
Definition contentHeight (titleHeight listHeight : Q) : Q :=
  (titleHeight + listHeight)%Q.

(** [snapPoints], with [screenHeight = Dimensions.get('window').height]. *)
Definition snapPoints (screenHeight contentHeight : Q) : list Q :=
  let maxLimit := (0.85 * screenHeight)%Q in
  if Qeq_bool contentHeight 0 then [1%Q]
  else if Qlt_le_dec contentHeight maxLimit
       then [contentHeight]
       else [maxLimit].

(** The state and the properties of the component that the sizing reads. *)
Record Props : Type := {
  visible : bool;
  sections : list BottomSheetSectionType;
  title : option string
}.

Record State : Type := {
  titleHeight : Q;
  listHeight : Q
}.

Definition sheet_snapPoints (screenHeight : Q) (p : Props) (st : State)
  : list Q :=
  snapPoints screenHeight (contentHeight (titleHeight st) (listHeight st)).

(** ** Expanding a section (lines 283-288 and 325-339) *)

(** Every animated section owns one [Animated.Value]; the values live in
    a store indexed by the position of the section, and a section holds
    the index of its value. The store records the value each animation is
    heading to. *)
Record AnimatedSection : Type := {
  section : BottomSheetSectionType;
  animationValue : nat
}.

Abbreviation Values := (list Z).

(** [sections.map(section => ({...section, animationValue: new
    Animated.Value(0)}))]. *)
Definition animatedSections (sections : list BottomSheetSectionType)
  : list AnimatedSection :=
  imap (λ i s, {| section := s; animationValue := i |}) sections.

Definition fresh_values (sections : list BottomSheetSectionType) : Values :=
  replicate (length sections) 0%Z.

(** [Animated.timing(value, {toValue, duration, useNativeDriver})]. *)
Record CompositeAnimation : Type := {
  value : nat;
  toValue : Z;
  duration : Z;
  useNativeDriver : bool
}.

Definition timing (v : nat) (to : Z) : CompositeAnimation :=
  {| value := v; toValue := to; duration := 250; useNativeDriver := false |}.

(** The list built by [expandSection]: one animation per expandable
    section, pushed in the order of the sections. *)
Definition expandSection (sectionKey : string)
    (animated : list AnimatedSection) : list CompositeAnimation :=
  foldl
    (λ animations a,
       if expandable (section a)
       then animations ++
            [timing (animationValue a)
                    (if String.eqb sectionKey (section_key (section a))
                     then 1%Z else 0%Z)]
       else animations)
    [] animated.

(** [Animated.parallel(animations).start()]: every animation of the
    list drives its own value to its [toValue]. *)
Definition parallel_start (animations : list CompositeAnimation)
    (vs : Values) : Values :=
  foldl (λ vs a, <[value a := toValue a]> vs) vs animations.

(** One press on the header of a section. *)
Definition select (sections : list BottomSheetSectionType)
    (sectionKey : string) (vs : Values) : Values :=
  parallel_start (expandSection sectionKey (animatedSections sections)) vs.

(** The target states that a sheet can be in: the fresh one and those
    reached by pressing headers. *)
Inductive reachable (sections : list BottomSheetSectionType)
  : Values → Prop :=
| reachable_fresh : reachable sections (fresh_values sections)
| reachable_select vs sectionKey :
    reachable sections vs →
    reachable sections (select sections sectionKey vs).

(** The value that a press on the header keyed [sectionKey] sends the
    animation of section [s] to. *)
Definition target (sectionKey : string) (s : BottomSheetSectionType) : Z :=
  if String.eqb sectionKey (section_key s) then 1%Z else 0%Z.

(** The state in which every expandable section sits at its target for
    [sectionKey] and every other section at the initial 0. *)
Definition targets (sections : list BottomSheetSectionType)
    (sectionKey : string) : Values :=
  (λ s, if expandable s then target sectionKey s else 0%Z) <$> sections.

(** The keys of the expandable sections, in order. *)
Definition expandable_keys (sections : list BottomSheetSectionType)
  : list string :=
  section_key <$> filter (λ s, expandable s = true) sections.

End BottomSheet.

(* ===================================================================== *)
(** * The editor host: [ComponentView] ([src/unnamed/part_000]) *)
(* ===================================================================== *)

Module ComponentView.
Import Js.

(** ** Data model *)

(** [Platform.OS]. *)
Inductive PlatformOS : Type := ios | android | windows | macos | web.

#[global] Instance PlatformOS_eq_dec : EqDecision PlatformOS.
Proof. solve_decision. Defined.

(** The package info of a component, with the fields that the view
    reads. [latest_url] may be missing. *)
Record ComponentPackageInfo : Type := {
  identifier : string;
  version : string;
  download_url : string;
  latest_url : option string
}.

(** [SNComponent], the component descriptor. *)
Record SNComponent : Type := {
  uuid : string;
  package_info : ComponentPackageInfo
}.

(** [mutator.package_info = packageInfo]. *)
Definition set_package_info (packageInfo : ComponentPackageInfo)
    (mutator : SNComponent) : SNComponent :=
  {| uuid := uuid mutator; package_info := packageInfo |}.

(** What the view observes of [SNApplication]. *)
Record SNApplication : Type := {
  isStarted : bool;
  urlForComponent : SNComponent → option string
}.

(** ** The file system behind [react-native-fs] *)

Inductive node : Type :=
| File (content : string)
| Dir (entries : list (string * node)).

(** The segments of a path: the non-empty pieces between slashes. A
    segment is looked up as the name of an entry: [.] and [..] are not
    resolved, so the disk is that of paths without such segments, and a
    statement about where a path leads excludes them ([within]). *)
Fixpoint split_from (cur : string) (s : string) : list string :=
  match s with
  | EmptyString =>
      match cur with
      | EmptyString => []
      | _ => [cur]
      end
  | String c rest =>
      if Ascii.eqb c "/"%char then
        match cur with
        | EmptyString => split_from EmptyString rest
        | _ => cur :: split_from EmptyString rest
        end
      else split_from (cur +:+ String c EmptyString) rest
  end.

Definition split_path (p : string) : list string := split_from EmptyString p.

(** Replace the entry called [name], or add it at the end. *)
Fixpoint set_entry (name : string) (n : node) (es : list (string * node))
  : list (string * node) :=
  match es with
  | [] => [(name, n)]
  | (k, x) :: rest =>
      if String.eqb name k then (k, n) :: rest
      else (k, x) :: set_entry name n rest
  end.

Definition drop_entry (name : string) (es : list (string * node))
  : list (string * node) :=
  List.filter (λ e, negb (String.eqb name (fst e))) es.

Fixpoint lookup_node (segs : list string) (n : node) : option node :=
  match segs with
  | [] => Some n
  | s :: rest =>
      match n with
      | Dir es =>
          match assoc s es with
          | Some child => lookup_node rest child
          | None => None
          end
      | File _ => None
      end
  end.

(** Recursive removal; fails on the root and on a missing item. *)
Fixpoint remove_node (segs : list string) (n : node) : option node :=
  match segs with
  | [] => None
  | s :: rest =>
      match n with
      | Dir es =>
          match assoc s es with
          | Some child =>
              match rest with
              | [] => Some (Dir (drop_entry s es))
              | _ =>
                  match remove_node rest child with
                  | Some child' => Some (Dir (set_entry s child' es))
                  | None => None
                  end
              end
          | None => None
          end
      | File _ => None
      end
  end.

(** Put [new] at a path, creating the missing directories above it;
    fails on the root and when a file is in the way. *)
Fixpoint write_node (segs : list string) (new : node) (n : node)
  : option node :=
  match segs with
  | [] => None
  | s :: rest =>
      match n with
      | Dir es =>
          match rest with
          | [] => Some (Dir (set_entry s new es))
          | _ =>
              let child :=
                match assoc s es with
                | Some c => c
                | None => Dir []
                end in
              match write_node rest new child with
              | Some child' => Some (Dir (set_entry s child' es))
              | None => None
              end
          end
      | File _ => None
      end
  end.

(** An item of [RNFS.readDir]. *)
Record ReadDirItem : Type := {
  name : string;
  path : string
}.

Definition fs_exists (root : node) (p : string) : bool :=
  match lookup_node (split_path p) root with
  | Some _ => true
  | None => false
  end.

Definition fs_readDir (root : node) (p : string)
  : option (list ReadDirItem) :=
  match lookup_node (split_path p) root with
  | Some (Dir es) =>
      Some (List.map
              (λ e, {| name := fst e; path := p +:+ "/" +:+ fst e |}) es)
  | _ => None
  end.

Definition fs_readFile (root : node) (p : string) : option string :=
  match lookup_node (split_path p) root with
  | Some (File content) => Some content
  | _ => None
  end.

Definition fs_unlink (root : node) (p : string) : option node :=
  remove_node (split_path p) root.

Definition fs_writeFile (root : node) (p : string) (content : string)
  : option node :=
  write_node (split_path p) (File content) root.

(** Unpacking puts the entries of the archive into the target
    directory, over the entries of the same name already there. *)
Definition fs_unpack (root : node) (p : string)
    (archive : list (string * node)) : option node :=
  match lookup_node (split_path p) root with
  | Some (File _) => None
  | Some (Dir old) =>
      write_node (split_path p)
        (Dir (foldl (λ es e, set_entry (fst e) (snd e) es) old archive)) root
  | None =>
      write_node (split_path p)
        (Dir (foldl (λ es e, set_entry (fst e) (snd e) es) [] archive)) root
  end.

(** ** The world of the view *)

Inductive Error : Type :=
| FsError (path : string)
| NetworkError (url : string)
| ZipError (path : string)
| SyntaxError
| TypeError.

(** The outcome of [fetch(url).then(r => r.json())]: the promise is
    rejected, or it yields the parsed body, [None] standing for a falsy
    body such as [null]. *)
Inductive FetchResult : Type :=
| FetchRejected
| FetchJson (packageInfo : option ComponentPackageInfo).

(** The environment: the platform, the network, the decoders and the
    failures of the storage. An archive that cannot be unpacked to its
    end ([archive_entries] gives [None]) may still have been unpacked in
    part: [partial_entries] gives the entries written to the target
    before the failure, or [None] when not even the target directory was
    made. *)
Record Env : Type := {
  OS : PlatformOS;
  ExternalDirectoryPath : string;
  DocumentDirectoryPath : string;
  fetch_json : string → FetchResult;
  download : string → option string;
  archive_entries : string → option (list (string * node));
  partial_entries : string → option (list (string * node));
  JSON_parse : string → option json;
  unlink_fails : string → bool
}.

(** The React state of the view, and the timer reference. *)
Record ViewState : Type := {
  url : string;
  offlineUrl : string;
  readAccessUrl : string;
  downloadingOfflineEditor : bool;
  loadedOnce : bool;
  showWebView : bool;
  timeoutRef : option nat
}.

(** A call to a state setter. *)
Inductive StateUpdate : Type :=
| SetUrl (s : string)
| SetOfflineUrl (s : string)
| SetReadAccessUrl (s : string)
| SetDownloadingOfflineEditor (b : bool).

Definition apply_update (u : StateUpdate) (v : ViewState) : ViewState :=
  match u with
  | SetUrl s =>
      {| url := s; offlineUrl := offlineUrl v;
         readAccessUrl := readAccessUrl v;
         downloadingOfflineEditor := downloadingOfflineEditor v;
         loadedOnce := loadedOnce v; showWebView := showWebView v;
         timeoutRef := timeoutRef v |}
  | SetOfflineUrl s =>
      {| url := url v; offlineUrl := s;
         readAccessUrl := readAccessUrl v;
         downloadingOfflineEditor := downloadingOfflineEditor v;
         loadedOnce := loadedOnce v; showWebView := showWebView v;
         timeoutRef := timeoutRef v |}
  | SetReadAccessUrl s =>
      {| url := url v; offlineUrl := offlineUrl v;
         readAccessUrl := s;
         downloadingOfflineEditor := downloadingOfflineEditor v;
         loadedOnce := loadedOnce v; showWebView := showWebView v;
         timeoutRef := timeoutRef v |}
  | SetDownloadingOfflineEditor b =>
      {| url := url v; offlineUrl := offlineUrl v;
         readAccessUrl := readAccessUrl v;
         downloadingOfflineEditor := b;
         loadedOnce := loadedOnce v; showWebView := showWebView v;
         timeoutRef := timeoutRef v |}
  end.

(** The calls made to the outside, in the order they are made. *)
Inductive Event : Type :=
| EvSetState (u : StateUpdate)
| EvFetch (url : string)
| EvChangeAndSaveItem (uuid : string) (mutate : SNComponent → SNComponent)
| EvLogError (e : Error)
| EvOnDownloadEditorStart
| EvOnDownloadEditorEnd
| EvOnLoadError
| EvClearTimeout (id : nat)
| EvAlert (title : string)
| EvOpenUrl (url : string)
| EvUnlink (path : string)
| EvDownloadFile (fromUrl toFile : string)
| EvUnzip (source target : string).

Record World : Type := {
  fs : node;
  items : gmap string SNComponent;
  view : ViewState;
  log : list Event
}.

(** What a call made by a render works with: the application, the
    properties and the state that the render closed over, and the item
    of the live component as the call reads it when it starts
    ([liveComponent.item]). The live component follows the item store:
    see [live] for the item that a later call reads. *)
Record Render : Type := {
  application : option SNApplication;
  liveComponent : option SNComponent;
  offlineOnly : option bool;
  state : ViewState
}.

(** The render as a call made in the world [w] sees it: [liveComponent]
    is a [LiveItem], and [liveComponent.item] is the item that the store
    holds under its uuid when the call starts (the last item seen, when
    the store holds none). *)
Definition live (r : Render) (w : World) : Render :=
  {| application := application r;
     liveComponent :=
       match liveComponent r with
       | Some c => Some (default c (items w !! uuid c))
       | None => None
       end;
     offlineOnly := offlineOnly r;
     state := state r |}.

(** ** Asynchronous functions: state and exceptions *)

Inductive Result (A : Type) : Type :=
| Return (a : A)
| Throw (e : Error).
Arguments Return {A} a.
Arguments Throw {A} e.

Definition M (A : Type) : Type := World → Result A * World.

Definition ret {A} (a : A) : M A := λ w, (Return a, w).

Definition throw {A} (e : Error) : M A := λ w, (Throw e, w).

Definition bind {A B} (m : M A) (k : A → M B) : M B :=
  λ w,
    match m w with
    | (Return a, w') => k a w'
    | (Throw e, w') => (Throw e, w')
    end.

Notation "'do' x <- m ; k" := (bind m (λ x, k))
  (at level 60, m at next level, right associativity).
Notation "'do' m ; k" := (bind m (λ _, k))
  (at level 60, right associativity).

(** [try { body } catch (e) { handler }]. *)
Definition try_catch {A} (body : M A) (handler : Error → M A) : M A :=
  λ w,
    match body w with
    | (Return a, w') => (Return a, w')
    | (Throw e, w') => handler e w'
    end.

(** [try { body } finally { cleanup }]: the cleanup runs on both exits
    and the outcome of the body stands unless the cleanup throws. *)
Definition try_finally {A} (body : M A) (cleanup : M unit) : M A :=
  λ w,
    match body w with
    | (r, w') =>
        match cleanup w' with
        | (Return _, w'') => (r, w'')
        | (Throw e, w'') => (Throw e, w'')
        end
    end.

(** A promise that is not awaited: its effects happen, its outcome is
    dropped. The body is run at the place of the call; it only touches
    the network and the item store, which the caller does not read. *)
Definition not_awaited {A} (m : M A) : M unit :=
  λ w, (Return tt, snd (m w)).

Definition emit (e : Event) : M unit :=
  λ w, (Return tt,
        {| fs := fs w; items := items w; view := view w;
           log := log w ++ [e] |}).

Definition set_fs (root : node) : M unit :=
  λ w, (Return tt,
        {| fs := root; items := items w; view := view w; log := log w |}).

(** A state setter of the view. *)
Definition setState (u : StateUpdate) : M unit :=
  λ w, (Return tt,
        {| fs := fs w; items := items w;
           view := apply_update u (view w);
           log := log w ++ [EvSetState u] |}).

(** ** The outside functions *)

Definition RNFS_exists (p : string) : M bool :=
  λ w, (Return (fs_exists (fs w) p), w).

Definition RNFS_readDir (p : string) : M (list ReadDirItem) :=
  λ w,
    match fs_readDir (fs w) p with
    | Some l => (Return l, w)
    | None => (Throw (FsError p), w)
    end.

Definition RNFS_readFile (p : string) : M string :=
  λ w,
    match fs_readFile (fs w) p with
    | Some content => (Return content, w)
    | None => (Throw (FsError p), w)
    end.

Definition RNFS_unlink (env : Env) (p : string) : M unit :=
  do emit (EvUnlink p) ;
  λ w,
    if unlink_fails env p then (Throw (FsError p), w)
    else
      match fs_unlink (fs w) p with
      | Some root => set_fs root w
      | None => (Throw (FsError p), w)
      end.

Definition RNFS_downloadFile (env : Env) (fromUrl toFile : string)
  : M unit :=
  do emit (EvDownloadFile fromUrl toFile) ;
  λ w,
    match download env fromUrl with
    | None => (Throw (NetworkError fromUrl), w)
    | Some content =>
        match fs_writeFile (fs w) toFile content with
        | Some root => set_fs root w
        | None => (Throw (FsError toFile), w)
        end
    end.

(** [unzip(source, target)]. A failing extraction is not undone: what
    it wrote to the target before it failed stays on the disk. *)
Definition unzip (env : Env) (source target : string) : M unit :=
  do emit (EvUnzip source target) ;
  λ w,
    match fs_readFile (fs w) source with
    | None => (Throw (FsError source), w)
    | Some content =>
        match archive_entries env content with
        | None =>
            match partial_entries env content with
            | Some written =>
                match fs_unpack (fs w) target written with
                | Some root =>
                    (do set_fs root ; throw (ZipError source)) w
                | None => (Throw (ZipError source), w)
                end
            | None => (Throw (ZipError source), w)
            end
        | Some archive =>
            match fs_unpack (fs w) target archive with
            | Some root => set_fs root w
            | None => (Throw (FsError target), w)
            end
        end
    end.

Definition parse (env : Env) (content : string) : M json :=
  match JSON_parse env content with
  | Some j => ret j
  | None => throw SyntaxError
  end.

Definition fetch (env : Env) (latestUrl : string)
  : M (option ComponentPackageInfo) :=
  do emit (EvFetch latestUrl) ;
  match fetch_json env latestUrl with
  | FetchRejected => throw (NetworkError latestUrl)
  | FetchJson packageInfo => ret packageInfo
  end.

(** [application.changeAndSaveItem(uuid, mutate)]. *)
Definition changeAndSaveItem (uuid : string)
    (mutate : SNComponent → SNComponent) : M unit :=
  λ w, (Return tt,
        {| fs := fs w; items := alter mutate uuid (items w);
           view := view w;
           log := log w ++ [EvChangeAndSaveItem uuid mutate] |}).

(** ** [checkForComponentUpdate] (lines 52-77) *)

Definition checkForComponentUpdate (env : Env)
    (application : SNApplication) (component : SNComponent) : M unit :=
  match latest_url (package_info component) with
  | None => ret tt
  | Some latestUrl =>
      if negb (truthy_string latestUrl) then ret tt
      else
        try_catch
          (do packageInfo <- fetch env latestUrl ;
           match packageInfo with
           | Some packageInfo =>
               if negb (String.eqb (version packageInfo)
                          (version (package_info component)))
                  && isStarted application
               then changeAndSaveItem (uuid component)
                      (set_package_info packageInfo)
               else ret tt
           | None => ret tt
           end)
          (λ error, emit (EvLogError error))
  end.

(** ** [getOfflineEditorUrl] (lines 162-229) *)

Definition basePath (env : Env) : string :=
  if decide (OS env = android)
  then ExternalDirectoryPath env
  else DocumentDirectoryPath env.

Definition downloadPath (env : Env) (p : ComponentPackageInfo) : string :=
  basePath env +:+ "/" +:+ identifier p +:+ ".zip".

Definition editorDir (env : Env) (p : ComponentPackageInfo) : string :=
  basePath env +:+ "/editors/" +:+ identifier p.

Definition versionDir (env : Env) (p : ComponentPackageInfo) : string :=
  editorDir env p +:+ "/" +:+ version p.

(** Lines 180-183; the flag is the one the render closed over, and the
    storage is not asked when it is set. *)
Definition shouldDownload (r : Render) (versionDir : string) : M bool :=
  if downloadingOfflineEditor (state r) then ret false
  else
    do present <- RNFS_exists versionDir ;
    if negb present then ret true
    else
      do listing <- RNFS_readDir versionDir ;
      ret (Nat.eqb (length listing) 0).

(** Lines 167-187: the paths, the read-access root, the decision to
    download and the update check, which is not awaited. *)
Definition before_download (env : Env) (r : Render) (item : SNComponent)
  : M bool :=
  do setState (SetReadAccessUrl (versionDir env (package_info item))) ;
  do decision <- shouldDownload r (versionDir env (package_info item)) ;
  do match application r with
     | Some app => not_awaited (checkForComponentUpdate env app item)
     | None => ret tt
     end ;
  ret decision.

(** Lines 193-196: delete any previous versions downloads. *)
Definition evict_previous (env : Env) (p : ComponentPackageInfo) : M unit :=
  do present <- RNFS_exists (editorDir env p) ;
  if present then RNFS_unlink env (editorDir env p) else ret tt.

(** Lines 197-203: download, unzip, delete the zip after extraction. *)
Definition fetch_and_unpack (env : Env) (p : ComponentPackageInfo)
  : M unit :=
  do RNFS_downloadFile env (download_url p) (downloadPath env p) ;
  do unzip env (downloadPath env p) (versionDir env p) ;
  RNFS_unlink env (downloadPath env p).

(** The body of the [try] block, lines 193-203. *)
Definition download_body (env : Env) (p : ComponentPackageInfo) : M unit :=
  do evict_previous env p ;
  fetch_and_unpack env p.

(** The [finally] block, lines 204-207. *)
Definition download_cleanup : M unit :=
  do emit EvOnDownloadEditorEnd ;
  setState (SetDownloadingOfflineEditor false).

(** Lines 190-191, the entry of the download branch. *)
Definition enter_download : M unit :=
  do setState (SetDownloadingOfflineEditor true) ;
  emit EvOnDownloadEditorStart.

(** Lines 189-208, once [shouldDownload] holds. *)
Definition download_branch (env : Env) (p : ComponentPackageInfo)
  : M unit :=
  do enter_download ;
  try_finally (download_body env p) download_cleanup.

(** Lines 167-208: everything before the unpacked package is read. *)
Definition prepare (env : Env) (r : Render) (item : SNComponent)
  : M unit :=
  do decision <- before_download env r item ;
  if decision then download_branch env (package_info item) else ret tt.

(** [packageJson?.sn?.main || 'index.html']. *)
Definition mainFileName (packageJson : json) : json :=
  or_else (opt_chain (opt_chain (Some packageJson) "sn") "main")
          "index.html".

(** Lines 210-222. *)
Definition resolve_main (env : Env) (versionDir : string) : M string :=
  do packageDir <- RNFS_readDir versionDir ;
  match packageDir with
  | [] => throw TypeError
  | first :: _ =>
      do content <- RNFS_readFile (path first +:+ "/package.json") ;
      do packageJson <- parse env content ;
      let mainFilePath :=
        path first +:+ "/" +:+ to_string (mainFileName packageJson) in
      do present <- RNFS_exists mainFilePath ;
      if present then ret ("file://" +:+ mainFilePath) else ret ""
  end.

Definition getOfflineEditorUrl (env : Env) (r : Render) : M string :=
  match liveComponent r with
  | None => ret ""
  | Some item =>
      do prepare env r item ;
      resolve_main env (versionDir env (package_info item))
  end.

(** ** Choosing the URL to load (lines 231-285) *)

(** [onLoadErrorHandler]; a timer identifier is truthy unless it is 0. *)
Definition onLoadErrorHandler : M unit :=
  λ w,
    match timeoutRef (view w) with
    | Some id =>
        if Nat.eqb id 0 then emit EvOnLoadError w
        else (do emit (EvClearTimeout id) ; emit EvOnLoadError) w
    | None => emit EvOnLoadError w
    end.

(** [setEditorUrl], run by the effect when [liveComponent] is set.
    [mounted] is the value of the local variable of the effect when the
    awaited resolution settles: the cleanup of the effect may have run
    in between. *)
Definition setEditorUrl (env : Env) (r : Render) (mounted : bool)
  : M unit :=
  match application r, liveComponent r with
  | Some app, Some item =>
      match urlForComponent app item with
      | None => emit (EvAlert "Re-install Extension")
      | Some newUrl =>
          if negb (truthy_string newUrl)
          then emit (EvAlert "Re-install Extension")
          else
            try_catch
              (do offlineEditorUrl <- getOfflineEditorUrl env r ;
               if mounted then setState (SetOfflineUrl offlineEditorUrl)
               else ret tt)
              (λ e,
                 if mounted then
                   if truthy_bool (offlineOnly r)
                   then onLoadErrorHandler
                   else setState (SetUrl newUrl)
                 else ret tt)
      end
  | _, _ => throw TypeError
  end.

(** ** The web view (lines 343-365 and 392-404) *)

Inductive NavigationType : Type :=
| click | formsubmit | backforward | reload | formresubmit | other.

#[global] Instance NavigationType_eq_dec : EqDecision NavigationType.
Proof. solve_decision. Defined.

(** The request handed to [onShouldStartLoadWithRequest]; Android gives
    no [navigationType]. *)
Record ShouldStartLoadRequest : Type := {
  request_url : string;
  navigationType : option NavigationType
}.

Definition openUrl (r : Render) (target : string) : M unit :=
  match application r with
  | Some _ => emit (EvOpenUrl target)
  | None => throw TypeError
  end.

(** The handler returns [false] when the request is handed to the
    opener of the system and [true] when the web view may load it. *)
Definition onShouldStartLoadWithRequest (env : Env) (r : Render)
    (request : ShouldStartLoadRequest) : M bool :=
  if (bool_decide (OS env = ios)
      && bool_decide (navigationType request = Some click))
     || (bool_decide (OS env = android)
         && negb (String.eqb (request_url request) (url (state r))))
  then do openUrl r (request_url request) ; ret false
  else ret true.

(** The web view is rendered when one of the two URLs is set. *)
Definition webview_rendered (v : ViewState) : bool :=
  truthy_string (url v) || truthy_string (offlineUrl v).

(** [source]: [loadedOnce ? { uri: offlineUrl ? offlineUrl : url } :
    undefined]. *)
Definition source (v : ViewState) : option string :=
  if loadedOnce v
  then Some (if truthy_string (offlineUrl v) then offlineUrl v else url v)
  else None.

(** The request by which the web view loads the editor itself: it asks
    for the URI of [source] and is not a click. *)
Definition editor_load_request (env : Env) (v : ViewState)
  : option ShouldStartLoadRequest :=
  match source v with
  | Some uri =>
      Some {| request_url := uri;
              navigationType :=
                if decide (OS env = ios) then Some other else None |}
  | None => None
  end.

(** ** Reading a log *)

Definition is_changeAndSaveItem (e : Event) : bool :=
  match e with
  | EvChangeAndSaveItem _ _ => true
  | _ => false
  end.

(** The calls that [checkForComponentUpdate] can make. *)
Definition is_update_check_call (e : Event) : bool :=
  match e with
  | EvFetch _ | EvChangeAndSaveItem _ _ | EvLogError _ => true
  | _ => false
  end.

Definition is_storage_call (e : Event) : bool :=
  match e with
  | EvUnlink _ | EvDownloadFile _ _ | EvUnzip _ _ => true
  | _ => false
  end.

Definition is_download_end (e : Event) : bool :=
  match e with
  | EvOnDownloadEditorEnd => true
  | _ => false
  end.

Definition is_download_start (e : Event) : bool :=
  match e with
  | EvOnDownloadEditorStart => true
  | _ => false
  end.

Definition is_flag_reset (e : Event) : bool :=
  match e with
  | EvSetState (SetDownloadingOfflineEditor false) => true
  | _ => false
  end.

Definition is_load_error (e : Event) : bool :=
  match e with
  | EvOnLoadError => true
  | _ => false
  end.

Definition count (P : Event → bool) (l : list Event) : nat :=
  length (List.filter P l).

(** The world [w] after storage calls that left [root] on the disk and
    [evs] in the log. *)
Definition with_fs_log (w : World) (root : node) (evs : list Event)
  : World :=
  {| fs := root; items := items w; view := view w; log := log w ++ evs |}.

(** The eviction of lines 193-196 as a relation between the disk before
    and the disk after: the directory of the editor is removed when it is
    there, and it is not there afterwards. *)
Definition evicted (env : Env) (p : ComponentPackageInfo)
    (before after : node) : Prop :=
  (if fs_exists before (editorDir env p)
   then fs_unlink before (editorDir env p) = Some after
   else after = before) ∧
  fs_exists after (editorDir env p) = false.

(** The three steps of lines 197-203, when each of them returns: the
    archive is written, unpacked into the version directory, and removed. *)
Definition unpacked (env : Env) (p : ComponentPackageInfo)
    (before after : node) : Prop :=
  ∃ content archive disk1 disk2,
    download env (download_url p) = Some content ∧
    fs_writeFile before (downloadPath env p) content = Some disk1 ∧
    fs_readFile disk1 (downloadPath env p) = Some content ∧
    archive_entries env content = Some archive ∧
    fs_unpack disk1 (versionDir env p) archive = Some disk2 ∧
    fs_unlink disk2 (downloadPath env p) = Some after.

(** The calls made between two worlds of one run. *)
Definition since (w w' : World) : list Event :=
  drop (length (log w)) (log w').

(** The storage calls of a download, in the order of the [try] block
    after the eviction of the previous version. *)
Definition download_calls (env : Env) (p : ComponentPackageInfo)
  : list Event :=
  [EvDownloadFile (download_url p) (downloadPath env p);
   EvUnzip (downloadPath env p) (versionDir env p);
   EvUnlink (downloadPath env p)].

End ComponentView.

(* ===================================================================== *)
(** * Concrete scenarios *)
(* ===================================================================== *)

(** An editor, its archive, a device and a few states of its storage, on
    which the functions above are run. *)
Module Scenario.
Import Js ComponentView.

Definition editor_1_0 : ComponentPackageInfo :=
  {| identifier := "org.editor";
     version := "1.0";
     download_url := "https://x/e.zip";
     latest_url := Some "https://x/latest.json" |}.

Definition editor_2_0 : ComponentPackageInfo :=
  {| identifier := "org.editor";
     version := "2.0";
     download_url := "https://x/e2.zip";
     latest_url := Some "https://x/latest.json" |}.

Definition editor : SNComponent :=
  {| uuid := "u1"; package_info := editor_1_0 |}.

Definition archive : list (string * node) :=
  [("package",
    Dir [("package.json", File "{}"); ("index.html", File "<html>")])].

Definition device (os : PlatformOS) (online : bool) : Env :=
  {| OS := os;
     ExternalDirectoryPath := "/ext";
     DocumentDirectoryPath := "/doc";
     fetch_json := λ _, FetchJson (Some editor_2_0);
     download :=
       λ u, if online && String.eqb u "https://x/e.zip"
            then Some "ZIP" else None;
     archive_entries :=
       λ c, if String.eqb c "ZIP" then Some archive else None;
     partial_entries := λ _, None;
     JSON_parse :=
       λ c, if String.eqb c "{}" then Some (JObj []) else None;
     unlink_fails := λ _, false |}.

Definition started : SNApplication :=
  {| isStarted := true;
     urlForComponent := λ _, Some "https://remote/editor" |}.

Definition stopped : SNApplication :=
  {| isStarted := false;
     urlForComponent := λ _, Some "https://remote/editor" |}.

Definition initial_view : ViewState :=
  {| url := ""; offlineUrl := ""; readAccessUrl := "";
     downloadingOfflineEditor := false; loadedOnce := false;
     showWebView := true; timeoutRef := None |}.

(** The state of the view during a download. *)
Definition downloading_view : ViewState :=
  apply_update (SetDownloadingOfflineEditor true) initial_view.

(** The state of the view once the offline editor was resolved and the
    web view has loaded once. *)
Definition offline_view : ViewState :=
  {| url := "";
     offlineUrl := "file:///ext/editors/org.editor/1.0/package/index.html";
     readAccessUrl := "/ext/editors/org.editor/1.0";
     downloadingOfflineEditor := false; loadedOnce := true;
     showWebView := true; timeoutRef := None |}.

Definition render (app : SNApplication) (offline_only : option bool)
    (v : ViewState) : Render :=
  {| application := Some app; liveComponent := Some editor;
     offlineOnly := offline_only; state := v |}.

(** Nothing unpacked yet. *)
Definition disk_empty : node := Dir [("ext", Dir [])].

(** An older version is unpacked. *)
Definition disk_stale : node :=
  Dir [("ext",
        Dir [("editors",
              Dir [("org.editor", Dir [("0.9", Dir archive)])])])].

(** The current version is unpacked. *)
Definition disk_current : node :=
  Dir [("ext",
        Dir [("editors",
              Dir [("org.editor", Dir [("1.0", Dir archive)])])])].

(** The current version and the next one are both unpacked. *)
Definition disk_two_versions : node :=
  Dir [("ext",
        Dir [("editors",
              Dir [("org.editor",
                    Dir [("1.0", Dir archive); ("2.0", Dir archive)])])])].

(** The current version is unpacked, without its main file. *)
Definition disk_without_main : node :=
  Dir [("ext",
        Dir [("editors",
              Dir [("org.editor",
                    Dir [("1.0",
                          Dir [("package",
                                Dir [("package.json", File "{}")])])])])])].

Definition world (disk : node) (v : ViewState) : World :=
  {| fs := disk; items := {[ "u1" := editor ]}; view := v; log := [] |}.

(** A sheet with two expandable sections around a flat one. *)
Definition note_sections : list BottomSheet.BottomSheetSectionType :=
  [BottomSheet.BottomSheetExpandableSectionType
     "tags" [] "Tags" None None;
   BottomSheet.BottomSheetDefaultSectionType "actions" [];
   BottomSheet.BottomSheetExpandableSectionType
     "history" [] "History" None None].

(** A sheet whose two expandable sections carry the same key. *)
Definition clashing_sections : list BottomSheet.BottomSheetSectionType :=
  [BottomSheet.BottomSheetExpandableSectionType
     "tags" [] "Tags" None None;
   BottomSheet.BottomSheetExpandableSectionType
     "tags" [] "More tags" None None].

End Scenario.

(* ===================================================================== *)
(** * The editor host: more readers of a log *)
(* ===================================================================== *)

Module ComponentViewLog.
Import ComponentView.

Definition is_fetch (e : Event) : bool :=
  match e with
  | EvFetch _ => true
  | _ => false
  end.

Definition is_log_error (e : Event) : bool :=
  match e with
  | EvLogError _ => true
  | _ => false
  end.

Definition is_alert (e : Event) : bool :=
  match e with
  | EvAlert _ => true
  | _ => false
  end.

(** A path lies within a directory when its segments are those of the
    directory followed by segments none of which steps back to the
    parent. *)
Definition within (dir p : string) : Prop :=
  ∃ more, (".." ∉ more) ∧ split_path p = split_path dir ++ more.

End ComponentViewLog.

(* ===================================================================== *)
(** * The editor host: devices on which a download fails *)
(* ===================================================================== *)

Module Failures.
Import Js ComponentView.


End Failures.

(* ===================================================================== *)
(** * The editor host: the timers of a frame load (lines 231-237, 305-337) *)
(* ===================================================================== *)

Module FrameLoad.
Import ComponentView.

(** The two callbacks that [onFrameLoad] hands to [setTimeout]. *)
Inductive TimerCallback : Type := RegisterComponentWindow | OnLoadEnd.

#[global] Instance TimerCallback_eq_dec : EqDecision TimerCallback.
Proof. solve_decision. Defined.

(** A timer that was set and has neither fired nor been cleared. *)
Record Timer : Type := {
  timer_id : nat;
  callback : TimerCallback;
  delay : nat
}.

(** The view together with the timers of the JavaScript runtime: the
    pending timers, the identifier that the next [setTimeout] returns,
    and the callbacks that were called so far. *)
Record Frame : Type := {
  world : World;
  pending : list Timer;
  next_id : nat;
  called : list TimerCallback
}.

(** [clearTimeout(id)]; nothing happens when no such timer is pending. *)
Definition clearTimeout (id : nat) (timers : list Timer) : list Timer :=
  List.filter (λ t, negb (Nat.eqb (timer_id t) id)) timers.

(** What the runtime does with the calls that a handler made. *)
Definition cleared (calls : list Event) (timers : list Timer) : list Timer :=
  foldl (λ ts e,
           match e with
           | EvClearTimeout id => clearTimeout id ts
           | _ => ts
           end) timers calls.

(** What [if (timeoutRef.current) clearTimeout(timeoutRef.current)]
    leaves of the pending timers. *)
Definition clear_current (ref : option nat) (timers : list Timer)
  : list Timer :=
  match ref with
  | Some id => if Nat.eqb id 0 then timers else clearTimeout id timers
  | None => timers
  end.

(** Lines 318-320: [if (timeoutRef.current) clearTimeout(...)]. *)
Definition clear_registration : M unit :=
  λ w,
    match timeoutRef (view w) with
    | Some id =>
        if Nat.eqb id 0 then ret tt w else emit (EvClearTimeout id) w
    | None => ret tt w
    end.

(** [setLoadedOnce(true)] and [timeoutRef.current = ...]. *)
Definition set_loaded (registration : nat) (v : ViewState) : ViewState :=
  {| url := url v; offlineUrl := offlineUrl v;
     readAccessUrl := readAccessUrl v;
     downloadingOfflineEditor := downloadingOfflineEditor v;
     loadedOnce := true; showWebView := showWebView v;
     timeoutRef := Some registration |}.

(** [onFrameLoad]: the registration timer replaces the one that the
    reference holds, and the timer of [onLoadEnd] is set beside it. *)
Definition onFrameLoad (f : Frame) : Frame :=
  let w1 := snd (clear_registration (world f)) in
  let registration := next_id f in
  {| world :=
       {| fs := fs w1; items := items w1;
          view := set_loaded registration (view w1); log := log w1 |};
     pending :=
       cleared (since (world f) w1) (pending f) ++
       [{| timer_id := registration;
           callback := RegisterComponentWindow; delay := 1 |};
        {| timer_id := S registration;
           callback := OnLoadEnd; delay := 200 |}];
     next_id := S (S registration);
     called := called f |}.

(** The [onError] event of the web view: [onLoadErrorHandler]. *)
Definition onError (f : Frame) : Frame :=
  let w1 := snd (onLoadErrorHandler (world f)) in
  {| world := w1;
     pending := cleared (since (world f) w1) (pending f);
     next_id := next_id f;
     called := called f |}.

(** A pending timer fires: its callback is called and it is no longer
    pending. *)
Definition fire (id : nat) (f : Frame) : Frame :=
  match List.find (λ t, Nat.eqb (timer_id t) id) (pending f) with
  | Some t =>
      {| world := world f;
         pending := clearTimeout id (pending f);
         next_id := next_id f;
         called := called f ++ [callback t] |}
  | None => f
  end.

(** What happens to a mounted view, as far as its timers go: the web
    view loads a frame or fails to, the runtime fires a timer, or other
    code sets a timer of its own. *)
Inductive Input : Type :=
| FrameLoaded
| LoadFailed
| TimerFired (id : nat)
| TimerSetElsewhere.

Definition step (f : Frame) (i : Input) : Frame :=
  match i with
  | FrameLoaded => onFrameLoad f
  | LoadFailed => onError f
  | TimerFired id => fire id f
  | TimerSetElsewhere =>
      {| world := world f; pending := pending f;
         next_id := S (next_id f); called := called f |}
  end.

Definition run (trace : list Input) (f : Frame) : Frame :=
  foldl step f trace.

(** The view when it is mounted: no timer of its own is pending; the
    identifiers of the runtime start at [first_id]. *)
Definition mounted (w : World) (first_id : nat) : Frame :=
  {| world := w; pending := []; next_id := first_id; called := [] |}.

Definition timers_of (cb : TimerCallback) (timers : list Timer)
  : list Timer :=
  List.filter (λ t, bool_decide (callback t = cb)) timers.

Definition calls_of (cb : TimerCallback) (calls : list TimerCallback) : nat :=
  length (List.filter (λ c, bool_decide (c = cb)) calls).

Definition is_frame_load (i : Input) : bool :=
  match i with
  | FrameLoaded => true
  | _ => false
  end.

Definition frame_loads (trace : list Input) : nat :=
  length (List.filter is_frame_load trace).

(** The timers of a frame are consistent: their identifiers were given
    out by the runtime, no two are the same, and the registration timers
    are those that the reference holds. *)
Definition consistent (f : Frame) : Prop :=
  (1 ≤ next_id f)%nat ∧
  Forall (λ t, 1 ≤ timer_id t < next_id f)%nat (pending f) ∧
  NoDup (timer_id <$> pending f) ∧
  Forall (λ t, callback t = RegisterComponentWindow ↔
               timeoutRef (view (world f)) = Some (timer_id t))
    (pending f).

End FrameLoad.

(* ===================================================================== *)
(** * The editor host: the warning about old Android versions
      (lines 131-160) *)
(* ===================================================================== *)

Module UnsupportedEditors.
Import Js ComponentView.

(** [PrefKey.DoNotShowAgainUnsupportedEditors]. *)
Definition DoNotShowAgainUnsupportedEditors : string :=
  "DoNotShowAgainUnsupportedEditors".

(** The local preferences and the confirmation dialogs shown so far,
    by title. *)
Record Device : Type := {
  prefs : gmap string json;
  confirms : list string
}.

(** [getLocalPreferences().getValue(key, dflt)]. *)
Definition getValue (preferences : gmap string json) (key : string)
    (dflt : json) : json :=
  default dflt (preferences !! key).

(** [getLocalPreferences().setUserPrefValue(key, value)]. *)
Definition setUserPrefValue (key : string) (v : json)
    (preferences : gmap string json) : gmap string json :=
  <[key := v]> preferences.

(** [warnUnsupportedEditors]; [answer] is what the user answers when the
    dialog is shown, [true] for the button [Don't show again]. Without
    an application every optional chain gives [undefined]: no dialog is
    shown and nothing is stored. *)
Definition warnUnsupportedEditors (application : option SNApplication)
    (answer : bool) (d : Device) : Device :=
  match application with
  | None => d
  | Some _ =>
      if truthy_json
           (getValue (prefs d) DoNotShowAgainUnsupportedEditors
              (JBool false))
      then d
      else
        let shown := confirms d ++ ["Editors Not Supported"] in
        if answer
        then {| prefs :=
                  setUserPrefValue DoNotShowAgainUnsupportedEditors
                    (JBool true) (prefs d);
                confirms := shown |}
        else {| prefs := prefs d; confirms := shown |}
  end.

(** The effect, run when the view is mounted and when the application
    changes: [Platform.OS === 'android' && Platform.Version <= 23]. *)
Definition warn_effect (env : Env) (Version : Z)
    (d : Device) (mount : option SNApplication * bool) : Device :=
  if bool_decide (OS env = android) && (Version <=? 23)%Z
  then warnUnsupportedEditors (fst mount) (snd mount) d
  else d.

(** The effect over the mounts of the view, each with the application
    of the mount and the answer that the user would give. *)
Definition warn_effects (env : Env) (Version : Z)
    (mounts : list (option SNApplication * bool)) (d : Device) : Device :=
  foldl (warn_effect env Version) d mounts.

End UnsupportedEditors.

(* ===================================================================== *)
(** * The action sheet: measuring the title and the list
      (lines 280-308 and 350-357) *)
(* ===================================================================== *)

Module BottomSheetLayout.
Import BottomSheet.

(** [title ? <TitleContainer onLayout={onTitleLayout}> : null]. *)
Definition title_rendered (p : Props) : bool :=
  match title p with
  | Some t => Js.truthy_string t
  | None => false
  end.

(** The effect on [title]: [if (!title) { setTitleHeight(0); }]. *)
Definition title_effect (p : Props) (st : State) : State :=
  if title_rendered p then st
  else {| titleHeight := 0; listHeight := listHeight st |}.

Definition onTitleLayout (height : Q) (st : State) : State :=
  {| titleHeight := height; listHeight := listHeight st |}.

Definition onListLayout (height : Q) (st : State) : State :=
  {| titleHeight := titleHeight st; listHeight := height |}.

(** What happens to a mounted sheet, as far as its size goes: the title
    block or the list is laid out, or the caller hands in another title.
    The title block reports a layout only while it is rendered. *)
Inductive LayoutEvent : Type :=
| TitleLayout (height : Q)
| ListLayout (height : Q)
| NewTitle (title : option string).

Definition layout_step (sheet : Props * State) (e : LayoutEvent)
  : Props * State :=
  let (p, st) := sheet in
  match e with
  | TitleLayout height =>
      if title_rendered p then (p, onTitleLayout height st) else (p, st)
  | ListLayout height => (p, onListLayout height st)
  | NewTitle t =>
      let p' := {| visible := visible p; sections := sections p;
                   title := t |} in
      (p', title_effect p' st)
  end.

(** The sheet when it is mounted: both heights start at 0 and the
    effect on the title runs once. *)
Definition sheet_mounted (p : Props) : Props * State :=
  (p, title_effect p {| titleHeight := 0; listHeight := 0 |}).

Definition layout_run (events : list LayoutEvent) (sheet : Props * State)
  : Props * State :=
  foldl layout_step sheet events.

End BottomSheetLayout.

(* ===================================================================== *)
(** * Properties of the action sheet *)
(* ===================================================================== *)

Module BottomSheetFacts.
Import BottomSheet.

(** ** Sizing *)

Lemma snapPoints_unmeasured (screenHeight c : Q) :
  (c == 0)%Q → snapPoints screenHeight c = [1%Q].
Proof.
  intros Hc. unfold snapPoints.
  apply Qeq_bool_iff in Hc. by rewrite Hc.
Qed.

Lemma snapPoints_measured (screenHeight c : Q) :
  ¬ (c == 0)%Q →
  snapPoints screenHeight c =
    if Qlt_le_dec c (0.85 * screenHeight) then [c]
    else [(0.85 * screenHeight)%Q].
Proof.
  intros Hc. unfold snapPoints.
  destruct (Qeq_bool c 0) eqn:E; [|done].
  apply Qeq_bool_iff in E. contradiction.
Qed.

(** C7. For a screen of positive height [H], with [c = t + l] the sum of
    the measured title and list heights: the snap point is [c] when
    [0 < c < 0.85 H], it is [0.85 H] when [c >= 0.85 H], and it is the
    placeholder [1] when [c = 0], whatever the sections are. So 400 on a
    screen of 800 gives 400, 900 gives 680, and 0 gives 1. *)
Theorem snapPoints_spec
    (p : Props) (t l H : Q) :
  (0 < H)%Q →
  let c := (t + l)%Q in
  let snap := sheet_snapPoints H p {| titleHeight := t; listHeight := l |} in
  ((0 < c)%Q ∧ (c < 0.85 * H)%Q → snap = [c]) ∧
  ((0.85 * H <= c)%Q → snap = [(0.85 * H)%Q]) ∧
  ((c == 0)%Q → snap = [1%Q]) ∧
  snapPoints 800 400 = [400%Q] ∧
  (∃ s, snapPoints 800 900 = [s] ∧ (s == 680)%Q) ∧
  snapPoints H 0 = [1%Q].
Proof.
  intros HH c snap. subst snap. unfold sheet_snapPoints, contentHeight.
  cbn [titleHeight listHeight]. fold c. repeat split.
  - intros [Hpos Hlt]. rewrite snapPoints_measured by lra.
    destruct (Qlt_le_dec c (0.85 * H)); [done | lra].
  - intros Hge. rewrite snapPoints_measured by lra.
    destruct (Qlt_le_dec c (0.85 * H)); [lra | done].
  - apply snapPoints_unmeasured.
  - eexists. split; [reflexivity | reflexivity].
Qed.

Lemma snapPoints_spec_witness :
  (0 < 800)%Q ∧
  sheet_snapPoints 800
    {| visible := true; sections := []; title := Some "Note" |}
    {| titleHeight := 60; listHeight := 340 |} = [(60 + 340)%Q].
Proof.
  split; [reflexivity |].
  destruct (snapPoints_spec
              {| visible := true; sections := []; title := Some "Note" |}
              60 340 800 eq_refl) as [Hbelow _].
  apply Hbelow. split; reflexivity.
Defined.

(** ** Pressing an action *)

Lemma occurrences_app (c : Call) (l k : list Call) :
  occurrences c (l ++ k) = occurrences c l + occurrences c k.
Proof. unfold occurrences. by rewrite filter_app, length_app. Qed.


(** ** Expanding a section *)

Section Expand.
Variable sectionKey : string.

Let push (animations : list CompositeAnimation) (a : AnimatedSection) :=
  if expandable (section a)
  then animations ++
       [timing (animationValue a)
               (if String.eqb sectionKey (section_key (section a))
                then 1%Z else 0%Z)]
  else animations.

Lemma expandSection_from (acc : list CompositeAnimation)
    (animated : list AnimatedSection) :
  foldl push acc animated = acc ++ expandSection sectionKey animated.
Proof.
  unfold expandSection. fold push.
  revert acc. induction animated as [|a animated IH]; intros acc; simpl.
  - by rewrite app_nil_r.
  - rewrite (IH (push acc a)), (IH (push [] a)).
    unfold push. destruct (expandable (section a)); simpl.
    + by rewrite <- app_assoc.
    + done.
Qed.

Lemma expandSection_app (l k : list AnimatedSection) :
  expandSection sectionKey (l ++ k) =
  expandSection sectionKey l ++ expandSection sectionKey k.
Proof.
  unfold expandSection at 1. fold push.
  rewrite foldl_app. fold (expandSection sectionKey l) in *.
  unfold expandSection at 1. fold push.
  apply expandSection_from.
Qed.

Lemma parallel_start_length (animations : list CompositeAnimation)
    (vs : Values) :
  length (parallel_start animations vs) = length vs.
Proof.
  unfold parallel_start. revert vs.
  induction animations as [|a animations IH]; intros vs; simpl; [done|].
  by rewrite IH, length_insert.
Qed.

Lemma select_length (sections : list BottomSheetSectionType)
    (vs : Values) :
  length (select sections sectionKey vs) = length vs.
Proof. apply parallel_start_length. Qed.

(** Adding a section at the end adds at most one animation, started
    after the others. *)
Lemma select_snoc (sections : list BottomSheetSectionType)
    (s : BottomSheetSectionType) (vs : Values) :
  select (sections ++ [s]) sectionKey vs =
  if expandable s
  then <[length sections := target sectionKey s]>
         (select sections sectionKey vs)
  else select sections sectionKey vs.
Proof.
  unfold select, animatedSections.
  rewrite imap_app, expandSection_app. unfold parallel_start.
  rewrite foldl_app. simpl. unfold expandSection at 2. simpl.
  rewrite Nat.add_0_r.
  by destruct (expandable s).
Qed.

(** What a press does to the value of each position. *)
Lemma select_lookup (sections : list BottomSheetSectionType)
    (vs : Values) (i : nat) :
  select sections sectionKey vs !! i =
  match sections !! i with
  | Some s =>
      if expandable s then (λ _, target sectionKey s) <$> vs !! i
      else vs !! i
  | None => vs !! i
  end.
Proof.
  induction sections as [|s sections IH] using rev_ind; [done|].
  rewrite select_snoc.
  destruct (decide (i = length sections)) as [->|Hne].
  - rewrite list_lookup_middle by done.
    rewrite (lookup_ge_None_2 sections) in IH by lia.
    destruct (expandable s); [|done].
    rewrite list_lookup_insert, select_length.
    case_decide as Hin.
    + destruct (lookup_lt_is_Some_2 vs (length sections)) as [v ->];
        [lia | done].
    + rewrite IH. rewrite (lookup_ge_None_2 vs) by lia. done.
  - assert (select sections sectionKey vs !! i =
            match (sections ++ [s]) !! i with
            | Some s0 =>
                if expandable s0
                then (λ _, target sectionKey s0) <$> vs !! i
                else vs !! i
            | None => vs !! i
            end) as Hrest.
    { rewrite IH. destruct (decide (i < length sections)).
      - by rewrite lookup_app_l.
      - rewrite (lookup_ge_None_2 sections) by lia.
        rewrite (lookup_ge_None_2 (sections ++ [s])); [done|].
        rewrite length_app. simpl. lia. }
    destruct (expandable s); [|done].
    by rewrite list_lookup_insert_ne.
Qed.

(** Once the values stand for the sections, a press leaves exactly
    the targets of its key. *)
Lemma select_targets (sections : list BottomSheetSectionType)
    (vs : Values) :
  length vs = length sections →
  (∀ i s, sections !! i = Some s → expandable s = false →
          vs !! i = Some 0%Z) →
  select sections sectionKey vs = targets sections sectionKey.
Proof.
  intros Hlen Hrest. apply list_eq. intros i.
  rewrite select_lookup. unfold targets. rewrite list_lookup_fmap.
  destruct (sections !! i) as [s|] eqn:Hs; simpl.
  - destruct (expandable s) eqn:He.
    + destruct (lookup_lt_is_Some_2 vs i) as [v ->]; [|done].
      rewrite Hlen. by eapply lookup_lt_Some.
    + by apply (Hrest i s).
  - apply lookup_ge_None_2. rewrite Hlen.
    by apply lookup_ge_None_1.
Qed.
End Expand.

Lemma targets_rest (sections : list BottomSheetSectionType)
    (k : string) (i : nat) (s : BottomSheetSectionType) :
  sections !! i = Some s → expandable s = false →
  targets sections k !! i = Some 0%Z.
Proof.
  intros Hs He. unfold targets. by rewrite list_lookup_fmap, Hs; simpl; rewrite He.
Qed.

(** A reachable state is the fresh one or the targets of the last key. *)
Lemma reachable_shape (sections : list BottomSheetSectionType)
    (vs : Values) :
  reachable sections vs →
  vs = fresh_values sections ∨ ∃ k, vs = targets sections k.
Proof.
  induction 1 as [|vs k _ [->| [k' ->]]]; [by left | right; exists k ..].
  - apply select_targets.
    + unfold fresh_values. by rewrite length_replicate.
    + intros i s Hs _. unfold fresh_values.
      apply lookup_replicate_2. by eapply lookup_lt_Some.
  - apply select_targets.
    + unfold targets. by rewrite length_fmap.
    + intros i s. apply targets_rest.
Qed.

(** In a reachable state, a press leaves the targets of its key. *)
Lemma reachable_select_targets (sections : list BottomSheetSectionType)
    (vs : Values) (k : string) :
  reachable sections vs →
  select sections k vs = targets sections k.
Proof.
  intros Hreach.
  apply reachable_shape in Hreach as [->| [k0 ->]]; apply select_targets.
  - unfold fresh_values. by rewrite length_replicate.
  - intros i s Hs _. unfold fresh_values.
    apply lookup_replicate_2. by eapply lookup_lt_Some.
  - unfold targets. by rewrite length_fmap.
  - intros i s. apply targets_rest.
Qed.

(** With distinct keys, two expandable sections of the same key are the
    same section. *)
Lemma expandable_key_inj (sections : list BottomSheetSectionType)
    (i j : nat) (s s' : BottomSheetSectionType) :
  NoDup (expandable_keys sections) →
  sections !! i = Some s → sections !! j = Some s' →
  expandable s = true → expandable s' = true →
  section_key s = section_key s' → i = j.
Proof.
  unfold expandable_keys.
  revert i j. induction sections as [|x sections IH]; intros i j Hnd Hi Hj He He' Hk;
    [done|].
  assert (∀ n y, sections !! n = Some y → expandable y = true →
                 section_key y ∈
                   section_key <$> filter (λ s, expandable s = true) sections)
    as Hmem.
  { intros n y Hy Hey. apply list_elem_of_fmap. exists y. split; [done|].
    apply list_elem_of_filter. split; [done|].
    by eapply list_elem_of_lookup_2. }
  rewrite filter_cons in Hnd.
  destruct i as [|i], j as [|j]; simpl in *.
  - done.
  - injection Hi as ->. rewrite decide_True in Hnd by done.
    rewrite fmap_cons in Hnd. apply NoDup_cons in Hnd as [Hnotin _].
    exfalso. apply Hnotin. rewrite Hk. by eapply Hmem.
  - injection Hj as ->. rewrite decide_True in Hnd by done.
    rewrite fmap_cons in Hnd. apply NoDup_cons in Hnd as [Hnotin _].
    exfalso. apply Hnotin. rewrite <- Hk. by eapply Hmem.
  - f_equal. eapply IH; try done.
    case_decide; [|done].
    rewrite fmap_cons in Hnd. by apply NoDup_cons in Hnd as [_ ?].
Qed.

Lemma targets_one (sections : list BottomSheetSectionType)
    (k : string) (i : nat) :
  targets sections k !! i = Some 1%Z →
  ∃ s, sections !! i = Some s ∧ expandable s = true ∧ section_key s = k.
Proof.
  unfold targets, target. rewrite list_lookup_fmap.
  destruct (sections !! i) as [s|]; simpl; [|done].
  destruct (expandable s) eqn:He; [|done].
  destruct (String.eqb k (section_key s)) eqn:E; [|done].
  apply String.eqb_eq in E. intros _. by exists s.
Qed.

(** C8 (amended). When the expandable sections have pairwise distinct
    keys: pressing the header of the expandable section B, in any
    reachable state, starts one batch of animations that sends the value
    of B to 1 and the value of every other expandable section to 0; and
    in every reachable state at most one value is headed to 1. *)
Theorem expandSection_at_most_one
    (sections : list BottomSheetSectionType) :
  NoDup (expandable_keys sections) →
  (∀ vs iB B, reachable sections vs →
     sections !! iB = Some B → expandable B = true →
     let vs' := select sections (section_key B) vs in
     vs' !! iB = Some 1%Z ∧
     ∀ j s, j ≠ iB → sections !! j = Some s → expandable s = true →
            vs' !! j = Some 0%Z) ∧
  (∀ vs, reachable sections vs →
     ∀ i j, vs !! i = Some 1%Z → vs !! j = Some 1%Z → i = j).
Proof.
  intros Hnd. split.
  - intros vs iB B Hreach HB HeB vs'.
    assert (vs' = targets sections (section_key B)) as ->
      by (by apply reachable_select_targets).
    unfold targets, target. split.
    + rewrite list_lookup_fmap, HB. simpl. rewrite HeB.
      by rewrite String.eqb_refl.
    + intros j s Hne Hs Hes. rewrite list_lookup_fmap, Hs. simpl.
      rewrite Hes.
      destruct (String.eqb (section_key B) (section_key s)) eqn:E; [|done].
      apply String.eqb_eq in E. exfalso. apply Hne.
      by eapply (expandable_key_inj sections j iB s B).
  - intros vs Hreach i j Hi Hj.
    apply reachable_shape in Hreach as [->| [k ->]].
    + unfold fresh_values in Hi.
      apply lookup_replicate in Hi as [? _]. done.
    + apply targets_one in Hi as (s & Hs & Hes & Hks).
      apply targets_one in Hj as (s' & Hs' & Hes' & Hks').
      eapply expandable_key_inj; try done. congruence.
Qed.

Lemma expandSection_at_most_one_witness :
  let sections := Scenario.note_sections in
  let vs := select sections "history"
              (select sections "tags" (fresh_values sections)) in
  NoDup (expandable_keys sections) ∧
  vs !! 2 = Some 1%Z ∧ vs !! 0 = Some 0%Z.
Proof.
  intros sections vs.
  assert (NoDup (expandable_keys sections)) as Hkeys.
  { vm_compute. apply NoDup_cons. split; [|apply NoDup_singleton].
    intros Hin. apply list_elem_of_singleton in Hin. discriminate. }
  destruct (expandSection_at_most_one sections Hkeys) as [Hpress _].
  destruct (Hpress (select sections "tags" (fresh_values sections)) 2
              (BottomSheetExpandableSectionType
                 "history" [] "History" None None)
              (reachable_select _ _ "tags" (reachable_fresh _))
              eq_refl eq_refl) as [Hone Hothers].
  split; [exact Hkeys|]. split; [exact Hone|].
  apply (Hothers 0 (BottomSheetExpandableSectionType
                      "tags" [] "Tags" None None));
    [discriminate | reflexivity | reflexivity].
Defined.

(** Two expandable sections with the same key: one press on that key
    sends both values to 1. *)
Lemma expandSection_clashing_keys :
  let sections := Scenario.clashing_sections in
  let vs := select sections "tags" (fresh_values sections) in
  reachable sections vs ∧
  expandable <$> sections = [true; true] ∧
  vs !! 0 = Some 1%Z ∧ vs !! 1 = Some 1%Z.
Proof.
  intros sections vs. split; [|by vm_compute].
  apply reachable_select, reachable_fresh.
Qed.

End BottomSheetFacts.

(* ===================================================================== *)
(** * Properties of the editor host *)
(* ===================================================================== *)

Module ComponentViewFacts.
Import Js ComponentView.

Ltac unfold_monad :=
  unfold bind, ret, throw, try_catch, try_finally, not_awaited, emit,
    set_fs, setState, changeAndSaveItem in *.

Lemma bind_run {A B} (m : M A) (k : A → M B) (w : World) :
  bind m k w =
  match m w with
  | (Return a, w') => k a w'
  | (Throw e, w') => (Throw e, w')
  end.
Proof. reflexivity. Qed.

Lemma setState_run (u : StateUpdate) (w : World) :
  setState u w =
  (Return tt,
   {| fs := fs w; items := items w; view := apply_update u (view w);
      log := log w ++ [EvSetState u] |}).
Proof. reflexivity. Qed.

Lemma emit_run (e : Event) (w : World) :
  emit e w =
  (Return tt,
   {| fs := fs w; items := items w; view := view w;
      log := log w ++ [e] |}).
Proof. reflexivity. Qed.

Lemma since_app (w w' : World) (evs : list Event) :
  log w' = log w ++ evs → since w w' = evs.
Proof. intros H. unfold since. rewrite H. apply drop_app_length. Qed.

Lemma count_app (P : Event → bool) (l k : list Event) :
  count P (l ++ k) = count P l + count P k.
Proof. unfold count. by rewrite List.filter_app, length_app. Qed.

(** ** The update check *)

(** C2 (amended). Without a [latest_url] the update check calls nothing
    and changes nothing. With one, when the fetch yields a manifest: if
    its version is the current one, the item store is not touched; if the
    version differs and the application is started, there is exactly one
    [changeAndSaveItem], which writes the manifest as the package info of
    the component; if the version differs and the application is not
    started, the item store is not touched. *)
Theorem checkForComponentUpdate_spec
    (env : Env) (app : SNApplication) (component : SNComponent)
    (w : World) :
  let run := checkForComponentUpdate env app component w in
  (latest_url (package_info component) = None → run = (Return tt, w)) ∧
  (∀ latestUrl manifest,
     latest_url (package_info component) = Some latestUrl →
     truthy_string latestUrl = true →
     fetch_json env latestUrl = FetchJson (Some manifest) →
     (version manifest = version (package_info component) →
      items (snd run) = items w ∧
      since w (snd run) = [EvFetch latestUrl]) ∧
     (version manifest ≠ version (package_info component) →
      isStarted app = true →
      since w (snd run) =
        [EvFetch latestUrl;
         EvChangeAndSaveItem (uuid component) (set_package_info manifest)] ∧
      count is_changeAndSaveItem (since w (snd run)) = 1 ∧
      items (snd run) =
        alter (set_package_info manifest) (uuid component) (items w) ∧
      (∀ c, items w !! uuid component = Some c →
            items (snd run) !! uuid component =
              Some {| uuid := uuid c; package_info := manifest |})) ∧
     (version manifest ≠ version (package_info component) →
      isStarted app = false →
      items (snd run) = items w ∧
      since w (snd run) = [EvFetch latestUrl])).
Proof.
  intros run. subst run. unfold checkForComponentUpdate. split.
  - by intros ->.
  - intros latestUrl manifest -> Htruthy Hfetch. rewrite Htruthy. simpl.
    unfold fetch. unfold_monad. simpl. rewrite Hfetch. simpl.
    split; [|split].
    + intros Heq. rewrite Heq, String.eqb_refl. simpl.
      split; [done | by apply since_app].
    + intros Hne Hstarted. apply String.eqb_neq in Hne.
      rewrite Hne, Hstarted. simpl.
      rewrite (since_app _ _
                 [EvFetch latestUrl;
                  EvChangeAndSaveItem (uuid component)
                    (set_package_info manifest)])
        by (simpl; by rewrite <- app_assoc).
      repeat split.
      intros c Hc. rewrite lookup_alter, decide_True by done.
      by rewrite Hc.
    + intros Hne Hstopped. rewrite Hstopped, andb_false_r. simpl.
      split; [done | by apply since_app].
Qed.

Lemma checkForComponentUpdate_spec_witness :
  let env := Scenario.device android true in
  let w := Scenario.world Scenario.disk_current Scenario.initial_view in
  let run :=
    checkForComponentUpdate env Scenario.started Scenario.editor w in
  version Scenario.editor_2_0 ≠ version (package_info Scenario.editor) ∧
  count is_changeAndSaveItem (since w (snd run)) = 1 ∧
  items (snd run) !! "u1" =
    Some {| uuid := "u1"; package_info := Scenario.editor_2_0 |}.
Proof.
  intros env w run.
  assert (version Scenario.editor_2_0 ≠
          version (package_info Scenario.editor)) as Hne
    by (vm_compute; discriminate).
  destruct (checkForComponentUpdate_spec env Scenario.started
              Scenario.editor w) as [_ Hfetched].
  destruct (Hfetched "https://x/latest.json" Scenario.editor_2_0
              eq_refl eq_refl eq_refl) as (_ & Hdiffers & _).
  destruct (Hdiffers Hne eq_refl) as (_ & Hcount & _ & Hitem).
  split; [exact Hne|]. split; [exact Hcount|].
  apply (Hitem Scenario.editor). vm_compute. reflexivity.
Defined.

(** The fetched version differs from the current one and the
    application is not started: the item is not changed. *)
Lemma checkForComponentUpdate_not_started :
  let env := Scenario.device android true in
  let w := Scenario.world Scenario.disk_current Scenario.initial_view in
  let run :=
    checkForComponentUpdate env Scenario.stopped Scenario.editor w in
  latest_url (package_info Scenario.editor) = Some "https://x/latest.json" ∧
  fetch_json env "https://x/latest.json" =
    FetchJson (Some Scenario.editor_2_0) ∧
  version Scenario.editor_2_0 ≠ version (package_info Scenario.editor) ∧
  since w (snd run) = [EvFetch "https://x/latest.json"] ∧
  count is_changeAndSaveItem (since w (snd run)) = 0 ∧
  items (snd run) = items w.
Proof.
  intros env w run. repeat split.
  vm_compute. discriminate.
Qed.

(** ** The file system *)

Lemma assoc_set_entry (name : string) (n : node)
    (es : list (string * node)) :
  assoc name (set_entry name n es) = Some n.
Proof.
  induction es as [|[k x] es IH]; simpl.
  - by rewrite String.eqb_refl.
  - destruct (String.eqb name k) eqn:E; simpl; rewrite E; [done | apply IH].
Qed.

Lemma assoc_drop_entry (name : string) (es : list (string * node)) :
  assoc name (drop_entry name es) = None.
Proof.
  induction es as [|[k x] es IH]; simpl; [done|].
  destruct (String.eqb name k) eqn:E; simpl; [apply IH|].
  rewrite E. apply IH.
Qed.

Lemma remove_node_gone (segs : list string) (n n' : node) :
  remove_node segs n = Some n' → lookup_node segs n' = None.
Proof.
  revert n n'. induction segs as [|s rest IH]; intros n n'; simpl; [done|].
  destruct n as [|es]; [done|].
  destruct (assoc s es) as [child|] eqn:Hs; [|done].
  destruct rest as [|s' rest'].
  - intros [= <-]. simpl. by rewrite assoc_drop_entry.
  - destruct (remove_node (s' :: rest') child) as [child'|] eqn:Hr; [|done].
    intros [= <-]. cbn [lookup_node]. rewrite assoc_set_entry.
    by apply (IH child child').
Qed.

(** A successful [unlink] leaves nothing at the path. *)
Lemma fs_unlink_gone (root root' : node) (p : string) :
  fs_unlink root p = Some root' → fs_exists root' p = false.
Proof.
  unfold fs_unlink, fs_exists. intros H.
  by rewrite (remove_node_gone _ _ _ H).
Qed.

Lemma write_node_lookup (segs : list string) (new n n' : node) :
  write_node segs new n = Some n' → lookup_node segs n' = Some new.
Proof.
  revert n n'. induction segs as [|s rest IH]; intros n n'; simpl; [done|].
  destruct n as [|es]; [done|].
  destruct rest as [|s' rest'].
  - intros [= <-]. simpl. by rewrite assoc_set_entry.
  - destruct (write_node (s' :: rest') new
                match assoc s es with
                | Some c => c
                | None => Dir []
                end) as [child'|] eqn:Hc; [|done].
    intros [= <-]. cbn [lookup_node]. rewrite assoc_set_entry.
    by eapply IH.
Qed.

(** A file that was written reads back. *)
Lemma fs_writeFile_read (root root' : node) (p content : string) :
  fs_writeFile root p content = Some root' →
  fs_readFile root' p = Some content.
Proof.
  unfold fs_writeFile, fs_readFile. intros H.
  by rewrite (write_node_lookup _ _ _ _ H).
Qed.

Lemma fs_readDir_exists (root : node) (p : string) (l : list ReadDirItem) :
  fs_readDir root p = Some l → fs_exists root p = true.
Proof.
  unfold fs_readDir, fs_exists.
  by destruct (lookup_node (split_path p) root).
Qed.

(** ** Paths *)

Lemma append_snoc (a : string) (c : ascii) (b : string) :
  (a +:+ String c EmptyString) +:+ b = a +:+ String c b.
Proof.
  induction a as [|x a IH]; [done|].
  change (String x ((a +:+ String c EmptyString) +:+ b) =
          String x (a +:+ String c b)).
  by rewrite IH.
Qed.

Lemma append_not_empty (a : string) (c : ascii) (b : string) :
  a +:+ String c b ≠ EmptyString.
Proof. by destruct a. Qed.

Lemma append_cons (c : ascii) (a b : string) :
  String c a +:+ b = String c (a +:+ b).
Proof. reflexivity. Qed.

(** A slash closes the segment under way. *)
Lemma split_from_sep (cur a b : string) :
  split_from cur (a +:+ "/" +:+ b) = split_from cur a ++ split_path b.
Proof.
  revert cur. induction a as [|c a IH]; intros cur.
  - change (EmptyString +:+ "/" +:+ b) with (String "/" b).
    simpl. by destruct cur.
  - rewrite append_cons. cbn [split_from].
    destruct (Ascii.eqb c "/"); [|apply IH].
    destruct cur; by rewrite IH.
Qed.

Lemma split_path_sep (a b : string) :
  split_path (a +:+ "/" +:+ b) = split_path a ++ split_path b.
Proof. apply split_from_sep. Qed.

Lemma split_from_zip (cur : string) :
  split_from cur ".zip" = [cur +:+ ".zip"].
Proof.
  cbn [split_from Ascii.eqb Bool.eqb]. rewrite !append_snoc.
  destruct (cur +:+ ".zip") eqn:E; [|done].
  by apply append_not_empty in E.
Qed.

(** The extension of the archive goes to the last segment of a path, or
    is a segment of its own when the path ends with a slash. *)
Lemma split_from_suffix (s cur : string) :
  ∃ segments last,
    split_from cur s =
      segments ++ match last with EmptyString => [] | _ => [last] end ∧
    split_from cur (s +:+ ".zip") = segments ++ [last +:+ ".zip"].
Proof.
  revert cur. induction s as [|c s IH]; intros cur.
  - exists [], cur. split; [done|].
    change (EmptyString +:+ ".zip") with ".zip". apply split_from_zip.
  - rewrite append_cons. cbn [split_from].
    destruct (Ascii.eqb c "/").
    + destruct (IH EmptyString) as (segments & last & Hs & Hz).
      destruct cur as [|x cur].
      * by exists segments, last.
      * exists (String x cur :: segments), last.
        by rewrite Hs, Hz.
    + apply IH.
Qed.

Lemma editorDir_segments (env : Env) (p : ComponentPackageInfo) :
  split_path (editorDir env p) =
  split_path (basePath env) ++ "editors" :: split_path (identifier p).
Proof.
  change (editorDir env p)
    with (basePath env +:+ "/" +:+ ("editors" +:+ "/" +:+ identifier p)).
  by rewrite !split_path_sep.
Qed.

Lemma versionDir_segments (env : Env) (p : ComponentPackageInfo) :
  split_path (versionDir env p) =
  split_path (editorDir env p) ++ split_path (version p).
Proof. apply split_path_sep. Qed.

Lemma downloadPath_segments (env : Env) (p : ComponentPackageInfo) :
  split_path (downloadPath env p) =
  split_path (basePath env) ++ split_path (identifier p +:+ ".zip").
Proof. apply split_path_sep. Qed.

Lemma snoc_prefix_cons {A} (l k : list A) (x y : A) :
  l ++ [x] `prefix_of` y :: l ++ k → x = y.
Proof.
  revert y. induction l as [|a l IH]; intros y H.
  - by apply prefix_cons_inv_1 in H.
  - simpl in H. pose proof (prefix_cons_inv_1 _ _ _ _ H) as ->.
    apply prefix_cons_inv_2 in H. by apply IH in H.
Qed.

Lemma zip_is_not_editors (last : string) : last +:+ ".zip" ≠ "editors".
Proof.
  intros H.
  do 8 (destruct last as [|? last]; [cbv in H; discriminate H|]).
  cbv in H. discriminate H.
Qed.

(** The archive and the directory of the editor are not above one
    another. *)
Lemma editorDir_downloadPath_apart (env : Env) (p : ComponentPackageInfo) :
  ¬ split_path (editorDir env p) `prefix_of` split_path (downloadPath env p) ∧
  ¬ split_path (downloadPath env p) `prefix_of` split_path (editorDir env p).
Proof.
  rewrite editorDir_segments, downloadPath_segments.
  unfold split_path.
  destruct (split_from_suffix (identifier p) EmptyString)
    as (segments & last & -> & ->).
  split; intros H; apply prefix_app_inv in H.
  - destruct last as [|c last].
    + rewrite app_nil_r in H.
      apply prefix_length_eq in H; [|rewrite length_app; simpl; lia].
      assert (segments ++ [".zip"] `prefix_of` "editors" :: segments ++ [])
        as H' by (rewrite app_nil_r, H; done).
      by apply snoc_prefix_cons in H'.
    + apply prefix_length in H. rewrite !length_app in H. simpl in H.
      rewrite length_app in H. simpl in H. lia.
  - apply snoc_prefix_cons in H. by apply zip_is_not_editors in H.
Qed.

Lemma assoc_set_entry_ne (name other : string) (n : node)
    (es : list (string * node)) :
  name ≠ other → assoc other (set_entry name n es) = assoc other es.
Proof.
  intros Hne. induction es as [|[k x] es IH]; simpl.
  - destruct (String.eqb_spec other name); [by subst|done].
  - destruct (String.eqb_spec name k) as [->|Hk]; simpl.
    + destruct (String.eqb_spec other k); [by subst|done].
    + by rewrite IH.
Qed.

Lemma assoc_drop_entry_ne (name other : string)
    (es : list (string * node)) :
  name ≠ other → assoc other (drop_entry name es) = assoc other es.
Proof.
  intros Hne. induction es as [|[k x] es IH]; simpl; [done|].
  destruct (String.eqb_spec name k) as [->|Hk]; simpl.
  - rewrite IH. destruct (String.eqb_spec other k); [by subst|done].
  - by rewrite IH.
Qed.

Lemma lookup_node_app_None (segs more : list string) (n : node) :
  lookup_node segs n = None → lookup_node (segs ++ more) n = None.
Proof.
  revert n. induction segs as [|s segs IH]; intros n; simpl; [done|].
  destruct n as [|es]; [done|].
  destruct (assoc s es); [apply IH | done].
Qed.

(** Writing at a path leaves what is beside it. *)
Lemma write_node_elsewhere (target other : list string) (new n n' : node) :
  write_node target new n = Some n' →
  ¬ other `prefix_of` target → ¬ target `prefix_of` other →
  lookup_node other n' = lookup_node other n.
Proof.
  revert other n n'.
  induction target as [|d target IH]; intros other n n' Hw Hot Hto;
    [done|].
  destruct other as [|e other]; [by destruct Hot; apply prefix_nil|].
  simpl in Hw. destruct n as [|es]; [done|].
  destruct (decide (d = e)) as [->|Hne].
  - assert (¬ other `prefix_of` target) as Hot'
      by (intros ?; by apply Hot, prefix_cons).
    assert (¬ target `prefix_of` other) as Hto'
      by (intros ?; by apply Hto, prefix_cons).
    destruct target as [|d' target];
      [by destruct Hto'; apply prefix_nil|].
    destruct (write_node (d' :: target) new
                match assoc e es with
                | Some c => c
                | None => Dir []
                end) as [child'|] eqn:Hc; [|done].
    injection Hw as <-. cbn [lookup_node]. rewrite assoc_set_entry.
    rewrite (IH _ _ _ Hc Hot' Hto').
    destruct (assoc e es); [done|].
    destruct other as [|e' other]; [by destruct Hot'; apply prefix_nil|].
    done.
  - assert (∃ x, n' = Dir (set_entry d x es)) as [x ->].
    { destruct target as [|d' target]; [injection Hw as <-; by eexists|].
      destruct (write_node (d' :: target) new _) as [child'|]; [|done].
      injection Hw as <-. by eexists. }
    cbn [lookup_node]. by rewrite assoc_set_entry_ne.
Qed.

(** Removing a path leaves what is beside it. *)
Lemma remove_node_elsewhere (target other : list string) (n n' : node) :
  remove_node target n = Some n' →
  ¬ other `prefix_of` target → ¬ target `prefix_of` other →
  lookup_node other n' = lookup_node other n.
Proof.
  revert other n n'.
  induction target as [|d target IH]; intros other n n' Hr Hot Hto;
    [done|].
  destruct other as [|e other]; [by destruct Hot; apply prefix_nil|].
  simpl in Hr. destruct n as [|es]; [done|].
  destruct (assoc d es) as [child|] eqn:Hd; [|done].
  destruct (decide (d = e)) as [->|Hne].
  - assert (¬ other `prefix_of` target) as Hot'
      by (intros ?; by apply Hot, prefix_cons).
    assert (¬ target `prefix_of` other) as Hto'
      by (intros ?; by apply Hto, prefix_cons).
    destruct target as [|d' target];
      [by destruct Hto'; apply prefix_nil|].
    destruct (remove_node (d' :: target) child) as [child'|] eqn:Hc;
      [|done].
    injection Hr as <-. cbn [lookup_node]. rewrite assoc_set_entry, Hd.
    by apply IH.
  - destruct target as [|d' target].
    + injection Hr as <-. cbn [lookup_node].
      by rewrite assoc_drop_entry_ne.
    + destruct (remove_node (d' :: target) child) as [child'|]; [|done].
      injection Hr as <-. cbn [lookup_node].
      by rewrite assoc_set_entry_ne.
Qed.

Lemma lookup_node_cons (s : string) (rest : list string)
    (es : list (string * node)) :
  lookup_node (s :: rest) (Dir es) =
  match assoc s es with
  | Some child => lookup_node rest child
  | None => None
  end.
Proof. reflexivity. Qed.

Lemma write_node_deeper (s s' : string) (rest : list string) (new : node)
    (es : list (string * node)) :
  write_node (s :: s' :: rest) new (Dir es) =
  match write_node (s' :: rest) new
          match assoc s es with
          | Some c => c
          | None => Dir []
          end with
  | Some child' => Some (Dir (set_entry s child' es))
  | None => None
  end.
Proof. reflexivity. Qed.

(** Writing below a directory that is not there creates it with one
    entry. *)
Lemma write_node_below_missing (above : list string) (v : string)
    (below : list string) (new n n' : node) :
  lookup_node above n = None →
  write_node (above ++ v :: below) new n = Some n' →
  ∃ child, lookup_node above n' = Some (Dir [(v, child)]).
Proof.
  revert n n'. induction above as [|e above IH]; intros n n' Hnone Hw;
    [done|].
  destruct n as [|es]; [done|].
  destruct above as [|e' above].
  - simpl in Hw, Hnone.
    destruct (assoc e es); [done|].
    destruct below as [|b below].
    + injection Hw as <-. cbn [lookup_node]. rewrite assoc_set_entry.
      by eexists.
    + cbn [assoc] in Hw.
      destruct (write_node (b :: below) new (Dir [])); [|done].
      injection Hw as <-. cbn [lookup_node]. rewrite assoc_set_entry.
      by eexists.
  - change ((e :: e' :: above) ++ v :: below)
      with (e :: e' :: (above ++ v :: below)) in Hw.
    rewrite write_node_deeper in Hw. rewrite lookup_node_cons in Hnone.
    destruct (write_node (e' :: above ++ v :: below) new
                match assoc e es with
                | Some c => c
                | None => Dir []
                end) as [child'|] eqn:Hc; [|done].
    injection Hw as <-.
    rewrite lookup_node_cons, assoc_set_entry.
    eapply IH; [|exact Hc].
    destruct (assoc e es); done.
Qed.

(** After a download that returned, on a disk where the directory of the
    editor was not there, this directory holds the new version alone. *)
Lemma unpacked_single_version (env : Env) (p : ComponentPackageInfo)
    (disk final : node) (v : string) (vs : list string) :
  fs_exists disk (editorDir env p) = false →
  unpacked env p disk final →
  split_path (version p) = v :: vs →
  fs_readDir final (editorDir env p) =
    Some [{| name := v; path := editorDir env p +:+ "/" +:+ v |}].
Proof.
  intros Hgone (content & archive & disk1 & disk2 & _ & Hwrite & _ & _ &
                Hunpack & Hunlink) Hversion.
  destruct (editorDir_downloadPath_apart env p) as [Had Hda].
  unfold fs_exists in Hgone. unfold fs_writeFile in Hwrite.
  unfold fs_unlink in Hunlink. unfold fs_unpack in Hunpack.
  unfold fs_readDir.
  destruct (lookup_node (split_path (editorDir env p)) disk) eqn:Hdisk;
    [done|].
  pose proof (write_node_elsewhere _ _ _ _ _ Hwrite Had Hda) as H1.
  rewrite Hdisk in H1.
  rewrite versionDir_segments, Hversion in Hunpack.
  rewrite (lookup_node_app_None _ _ _ H1) in Hunpack.
  destruct (write_node_below_missing _ _ _ _ _ _ H1 Hunpack)
    as [child H2].
  rewrite (remove_node_elsewhere _ _ _ _ Hunlink Had Hda), H2.
  done.
Qed.

(** Unpacking below a directory of the editor that is not there leaves
    the new version alone in it, whatever is unpacked. *)
Lemma fs_unpack_single_version (env : Env) (p : ComponentPackageInfo)
    (disk1 disk2 : node) (entries : list (string * node))
    (v : string) (vs : list string) :
  lookup_node (split_path (editorDir env p)) disk1 = None →
  fs_unpack disk1 (versionDir env p) entries = Some disk2 →
  split_path (version p) = v :: vs →
  fs_readDir disk2 (editorDir env p) =
    Some [{| name := v; path := editorDir env p +:+ "/" +:+ v |}].
Proof.
  intros H1 Hunpack Hversion. unfold fs_unpack in Hunpack.
  unfold fs_readDir.
  rewrite versionDir_segments, Hversion in Hunpack.
  rewrite (lookup_node_app_None _ _ _ H1) in Hunpack.
  destruct (write_node_below_missing _ _ _ _ _ _ H1 Hunpack)
    as [child H2].
  by rewrite H2.
Qed.

(** ** The stages of the offline resolution *)

Lemma shouldDownload_world (r : Render) (vd : string) (w : World) :
  snd (shouldDownload r vd w) = w.
Proof.
  unfold shouldDownload, RNFS_exists, RNFS_readDir. unfold_monad.
  repeat case_match; simplify_eq/=; done.
Qed.

Lemma shouldDownload_fs (r : Render) (vd : string) (w1 w2 : World) :
  fs w1 = fs w2 →
  fst (shouldDownload r vd w1) = fst (shouldDownload r vd w2).
Proof.
  intros Hfs.
  unfold shouldDownload, RNFS_exists, RNFS_readDir. unfold_monad.
  destruct (downloadingOfflineEditor (state r)); simpl; [done|].
  rewrite Hfs. destruct (fs_exists (fs w2) vd); simpl; [|done].
  rewrite Hfs. by destruct (fs_readDir (fs w2) vd).
Qed.

(** The download is decided exactly when no download is under way and
    the version directory is missing or empty. *)
Lemma shouldDownload_true (r : Render) (vd : string) (w : World) :
  fst (shouldDownload r vd w) = Return true ↔
  downloadingOfflineEditor (state r) = false ∧
  (fs_exists (fs w) vd = false ∨ fs_readDir (fs w) vd = Some []).
Proof.
  unfold shouldDownload, RNFS_exists, RNFS_readDir. unfold_monad.
  destruct (downloadingOfflineEditor (state r)); simpl;
    [intuition congruence|].
  destruct (fs_exists (fs w) vd) eqn:He; simpl; [|intuition congruence].
  destruct (fs_readDir (fs w) vd) as [[|x l]|] eqn:Hd; simpl;
    intuition congruence.
Qed.

Lemma shouldDownload_populated (r : Render) (vd : string) (w : World)
    (x : ReadDirItem) (l : list ReadDirItem) :
  fs_readDir (fs w) vd = Some (x :: l) →
  fst (shouldDownload r vd w) = Return false.
Proof.
  intros Hd. unfold shouldDownload, RNFS_exists, RNFS_readDir. unfold_monad.
  destruct (downloadingOfflineEditor (state r)); simpl; [done|].
  rewrite (fs_readDir_exists _ _ _ Hd). simpl. by rewrite Hd.
Qed.

(** The update check leaves the storage and the state of the view
    alone, and only makes calls of its own. *)
Lemma checkForComponentUpdate_frame
    (env : Env) (app : SNApplication) (c : SNComponent) (w : World) :
  let w' := snd (checkForComponentUpdate env app c w) in
  fs w' = fs w ∧ view w' = view w ∧
  ∃ evs, log w' = log w ++ evs ∧
         Forall (λ e, is_update_check_call e = true) evs.
Proof.
  unfold checkForComponentUpdate, fetch. unfold_monad.
  repeat case_match; simplify_eq/=; repeat split; try done.
  all: try (exists []; by rewrite app_nil_r).
  all: eexists; rewrite <- ?app_assoc; split; [reflexivity|];
    repeat constructor.
Qed.

Lemma before_download_run
    (env : Env) (r : Render) (item : SNComponent) (w : World) :
  let vd := versionDir env (package_info item) in
  let run := before_download env r item w in
  fst run = fst (shouldDownload r vd w) ∧
  fs (snd run) = fs w ∧
  view (snd run) = apply_update (SetReadAccessUrl vd) (view w) ∧
  ∃ evs, log (snd run) = log w ++ EvSetState (SetReadAccessUrl vd) :: evs ∧
         Forall (λ e, is_update_check_call e = true) evs.
Proof.
  intros vd run. subst run. unfold before_download. fold vd.
  rewrite bind_run, setState_run. cbv beta iota.
  set (w1 := {| fs := fs w; items := items w;
                view := apply_update (SetReadAccessUrl vd) (view w);
                log := log w ++ [EvSetState (SetReadAccessUrl vd)] |}).
  rewrite bind_run.
  pose proof (shouldDownload_world r vd w1) as Hw.
  pose proof (shouldDownload_fs r vd w1 w eq_refl) as Hr.
  destruct (shouldDownload r vd w1) as [x w1'].
  simpl in Hw, Hr. subst w1'. rewrite <- Hr.
  destruct x as [decision|e]; cbv beta iota.
  - rewrite bind_run.
    destruct (application r) as [app|].
    + unfold not_awaited, ret. cbv beta iota.
      destruct (checkForComponentUpdate_frame env app item w1)
        as (Hfs & Hview & evs & Hlog & Hevs).
      repeat split; try done.
      exists evs. split; [|done]. cbn [snd]. rewrite Hlog.
      subst w1. cbn [log]. by rewrite <- app_assoc.
    + unfold ret. cbv beta iota. repeat split. by exists [].
  - repeat split. by exists [].
Qed.

Lemma with_fs_log_twice (w : World) (r1 r2 : node) (e1 e2 : list Event) :
  with_fs_log (with_fs_log w r1 e1) r2 e2 = with_fs_log w r2 (e1 ++ e2).
Proof. unfold with_fs_log. simpl. by rewrite app_assoc. Qed.

Lemma with_fs_log_id (w : World) : with_fs_log w (fs w) [] = w.
Proof. unfold with_fs_log. rewrite app_nil_r. by destruct w. Qed.

(** Each storage call logs itself; it changes the disk only when it
    returns. *)
Lemma RNFS_unlink_run (env : Env) (p : string) (w : World) :
  ∃ res root,
    RNFS_unlink env p w = (res, with_fs_log w root [EvUnlink p]) ∧
    match res with
    | Return _ => fs_unlink (fs w) p = Some root
    | Throw _ => root = fs w
    end.
Proof.
  unfold RNFS_unlink. unfold_monad. simpl.
  destruct (unlink_fails env p); [by eexists _, _|].
  destruct (fs_unlink (fs w) p) as [root|] eqn:E; by eexists _, _.
Qed.

Lemma RNFS_downloadFile_run (env : Env) (fromUrl toFile : string)
    (w : World) :
  ∃ res root,
    RNFS_downloadFile env fromUrl toFile w =
      (res, with_fs_log w root [EvDownloadFile fromUrl toFile]) ∧
    match res with
    | Return _ =>
        ∃ content, download env fromUrl = Some content ∧
                   fs_writeFile (fs w) toFile content = Some root
    | Throw _ => root = fs w
    end.
Proof.
  unfold RNFS_downloadFile. unfold_monad. simpl.
  destruct (download env fromUrl) as [content|] eqn:Hc;
    [|by eexists _, _].
  destruct (fs_writeFile (fs w) toFile content) as [root|] eqn:E;
    [|by eexists _, _].
  eexists _, _. split; [done|]. by exists content.
Qed.

Lemma unzip_run (env : Env) (source target : string) (w : World) :
  ∃ res root,
    unzip env source target w =
      (res, with_fs_log w root [EvUnzip source target]) ∧
    match res with
    | Return _ =>
        ∃ content archive,
          fs_readFile (fs w) source = Some content ∧
          archive_entries env content = Some archive ∧
          fs_unpack (fs w) target archive = Some root
    | Throw _ =>
        root = fs w ∨
        ∃ content written,
          fs_readFile (fs w) source = Some content ∧
          archive_entries env content = None ∧
          partial_entries env content = Some written ∧
          fs_unpack (fs w) target written = Some root
    end.
Proof.
  unfold unzip. unfold_monad. simpl.
  destruct (fs_readFile (fs w) source) as [content|] eqn:Hc;
    [|eexists _, _; split; [done | by left]].
  destruct (archive_entries env content) as [archive|] eqn:Ha.
  - destruct (fs_unpack (fs w) target archive) as [root|] eqn:E;
      [|eexists _, _; split; [done | by left]].
    eexists _, _. split; [done|]. by exists content, archive.
  - destruct (partial_entries env content) as [written|] eqn:Hp;
      [|eexists _, _; split; [done | by left]].
    destruct (fs_unpack (fs w) target written) as [root|] eqn:E;
      [|eexists _, _; split; [done | by left]].
    eexists _, _. split; [done|]. right. by exists content, written.
Qed.

(** The eviction calls [unlink] exactly when a directory of the editor
    is there, and returns only once it is gone. *)
Lemma evict_previous_run (env : Env) (p : ComponentPackageInfo)
    (w : World) :
  ∃ res root,
    evict_previous env p w =
      (res, with_fs_log w root
              (if fs_exists (fs w) (editorDir env p)
               then [EvUnlink (editorDir env p)] else [])) ∧
    match res with
    | Return _ =>
        fs_exists root (editorDir env p) = false ∧
        if fs_exists (fs w) (editorDir env p)
        then fs_unlink (fs w) (editorDir env p) = Some root
        else root = fs w
    | Throw _ => root = fs w
    end.
Proof.
  unfold evict_previous. rewrite bind_run. unfold RNFS_exists.
  cbv beta iota.
  destruct (fs_exists (fs w) (editorDir env p)) eqn:Hex.
  - destruct (RNFS_unlink_run env (editorDir env p) w)
      as (res & root & Hrun & Hres).
    exists res, root. split; [done|].
    destruct res; [|done]. split; [|done]. by eapply fs_unlink_gone.
  - exists (Return tt), (fs w). unfold ret.
    by rewrite with_fs_log_id.
Qed.

(** The three calls of a download are made in order, each one only when
    the one before returned; the archive is gone when the last returns. *)
Lemma fetch_and_unpack_run (env : Env) (p : ComponentPackageInfo)
    (w : World) :
  ∃ res root tail,
    fetch_and_unpack env p w = (res, with_fs_log w root tail) ∧
    tail `prefix_of` download_calls env p ∧ tail ≠ [] ∧
    (res = Return tt →
     tail = download_calls env p ∧
     fs_exists root (downloadPath env p) = false ∧
     unpacked env p (fs w) root).
Proof.
  unfold fetch_and_unpack, download_calls, unpacked. rewrite bind_run.
  destruct (RNFS_downloadFile_run env (download_url p)
              (downloadPath env p) w) as (res1 & root1 & -> & H1).
  destruct res1 as [[]|e1]; cbv beta iota.
  2:{ eexists _, _, _. split; [done|].
      split; [by eexists|]. by split. }
  destruct H1 as (content & Hdl & Hwrite).
  rewrite bind_run.
  destruct (unzip_run env (downloadPath env p) (versionDir env p)
              (with_fs_log w root1
                 [EvDownloadFile (download_url p) (downloadPath env p)]))
    as (res2 & root2 & -> & H2).
  rewrite with_fs_log_twice.
  destruct res2 as [[]|e2]; cbv beta iota.
  2:{ eexists _, _, _. split; [done|].
      split; [by eexists|]. by split. }
  destruct H2 as (content' & archive & Hread & Harch & Hunpack).
  simpl in Hread, Hunpack.
  destruct (RNFS_unlink_run env (downloadPath env p)
              (with_fs_log w root2
                 ([EvDownloadFile (download_url p) (downloadPath env p)] ++
                  [EvUnzip (downloadPath env p) (versionDir env p)])))
    as (res3 & root3 & -> & H3).
  rewrite with_fs_log_twice.
  exists res3, root3. eexists. split; [done|].
  split; [by exists []|]. split; [done|].
  intros ->. simpl in H3. split; [done|].
  split; [by eapply fs_unlink_gone|].
  assert (content' = content) as ->.
  { pose proof (fs_writeFile_read _ _ _ _ Hwrite) as Hback.
    congruence. }
  by exists content, archive, root1, root2.
Qed.

(** Whatever the three steps of a download do, and wherever they
    stop, a directory of the editor that was not there before them is
    still not there after them, or holds the new version alone. *)
Lemma fetch_and_unpack_single_version (env : Env)
    (p : ComponentPackageInfo) (w1 : World) (v : string)
    (vs : list string) :
  fs_exists (fs w1) (editorDir env p) = false →
  split_path (version p) = v :: vs →
  fs_exists (fs (snd (fetch_and_unpack env p w1))) (editorDir env p)
    = false ∨
  fs_readDir (fs (snd (fetch_and_unpack env p w1))) (editorDir env p) =
    Some [{| name := v; path := editorDir env p +:+ "/" +:+ v |}].
Proof.
  intros Hgone Hversion.
  destruct (editorDir_downloadPath_apart env p) as [Had Hda].
  destruct (fetch_and_unpack env p w1) as [res w'] eqn:Hrun.
  cbn [snd]. revert Hrun.
  unfold fetch_and_unpack, RNFS_downloadFile, unzip, RNFS_unlink.
  unfold_monad. cbn [fs items view log].
  destruct (download env (download_url p)) as [content|];
    [|intros [= <- <-]; by left].
  destruct (fs_writeFile (fs w1) (downloadPath env p) content)
    as [disk1|] eqn:Hwrite; [|intros [= <- <-]; by left].
  cbn [fs items view log].
  rewrite (fs_writeFile_read _ _ _ _ Hwrite).
  assert (lookup_node (split_path (editorDir env p)) disk1 = None) as H1.
  { unfold fs_writeFile in Hwrite.
    rewrite (write_node_elsewhere _ _ _ _ _ Hwrite Had Hda).
    unfold fs_exists in Hgone.
    by destruct (lookup_node (split_path (editorDir env p)) (fs w1)). }
  assert (fs_exists disk1 (editorDir env p) = false) as Hgone1
    by (unfold fs_exists; by rewrite H1).
  destruct (archive_entries env content) as [archive|].
  - destruct (fs_unpack disk1 (versionDir env p) archive)
      as [disk2|] eqn:Hunpack; [|intros [= <- <-]; by left].
    cbn [fs items view log].
    pose proof (fs_unpack_single_version _ _ _ _ _ _ _ H1 Hunpack Hversion)
      as H2.
    destruct (unlink_fails env (downloadPath env p));
      [intros [= <- <-]; by right|].
    destruct (fs_unlink disk2 (downloadPath env p)) as [root|] eqn:Hunlink;
      intros [= <- <-]; cbn [fs]; [|by right].
    right. unfold fs_readDir in *. unfold fs_unlink in Hunlink.
    by rewrite (remove_node_elsewhere _ _ _ _ Hunlink Had Hda).
  - destruct (partial_entries env content) as [written|];
      [|intros [= <- <-]; by left].
    destruct (fs_unpack disk1 (versionDir env p) written)
      as [disk2|] eqn:Hunpack; intros [= <- <-]; cbn [fs]; [|by left].
    right. by eapply fs_unpack_single_version.
Qed.

Lemma download_body_run (env : Env) (p : ComponentPackageInfo)
    (w : World) :
  ∃ res root tail,
    download_body env p w =
      (res, with_fs_log w root
              ((if fs_exists (fs w) (editorDir env p)
                then [EvUnlink (editorDir env p)] else []) ++ tail)) ∧
    tail `prefix_of` download_calls env p ∧
    (tail ≠ [] →
     ∃ w1, evicted env p (fs w) (fs w1) ∧
           res = fst (fetch_and_unpack env p w1) ∧
           root = fs (snd (fetch_and_unpack env p w1))) ∧
    (res = Return tt →
     tail = download_calls env p ∧
     fs_exists root (downloadPath env p) = false ∧
     ∃ disk, evicted env p (fs w) disk ∧ unpacked env p disk root).
Proof.
  unfold download_body. rewrite bind_run.
  destruct (evict_previous_run env p w) as (res1 & root1 & -> & H1).
  destruct res1 as [[]|e1]; cbv beta iota.
  - destruct H1 as [Hgone Hroot1].
    assert (evicted env p (fs w) root1) as Hevicted by done.
    destruct (fetch_and_unpack_run env p
                (with_fs_log w root1
                   (if fs_exists (fs w) (editorDir env p)
                    then [EvUnlink (editorDir env p)] else [])))
      as (res & root & tail & Hrun & Hprefix & Hne & Hok).
    rewrite Hrun, with_fs_log_twice.
    exists res, root, tail. split; [done|]. split; [done|].
    split.
    { intros _. eexists. rewrite Hrun. by split. }
    intros Hres. destruct (Hok Hres) as (? & ? & ?).
    split; [done|]. split; [done|]. by exists root1.
  - exists (Throw e1), root1, []. rewrite app_nil_r. split; [done|].
    split; [by eexists|]. by split.
Qed.

Lemma enter_download_run (w : World) :
  enter_download w =
  (Return tt,
   {| fs := fs w; items := items w;
      view := apply_update (SetDownloadingOfflineEditor true) (view w);
      log := log w ++ [EvSetState (SetDownloadingOfflineEditor true);
                       EvOnDownloadEditorStart] |}).
Proof.
  unfold enter_download. rewrite bind_run, setState_run. cbv beta iota.
  rewrite emit_run. cbn [fs items view log]. by rewrite <- app_assoc.
Qed.

(** The download branch: the entry, the calls of the body, then the
    cleanup, whatever the outcome of the body, which is the outcome of
    the branch. *)
Lemma download_branch_run (env : Env) (p : ComponentPackageInfo)
    (w : World) :
  let evict :=
    if fs_exists (fs w) (editorDir env p)
    then [EvUnlink (editorDir env p)] else [] in
  ∃ res root tail,
    download_body env p (snd (enter_download w)) =
      (res, with_fs_log (snd (enter_download w)) root (evict ++ tail)) ∧
    tail `prefix_of` download_calls env p ∧
    (tail ≠ [] →
     ∃ w1, evicted env p (fs w) (fs w1) ∧
           res = fst (fetch_and_unpack env p w1) ∧
           root = fs (snd (fetch_and_unpack env p w1))) ∧
    (res = Return tt →
     tail = download_calls env p ∧
     fs_exists root (downloadPath env p) = false ∧
     ∃ disk, evicted env p (fs w) disk ∧ unpacked env p disk root) ∧
    download_branch env p w =
      (res,
       {| fs := root; items := items w;
          view := apply_update (SetDownloadingOfflineEditor false)
                    (apply_update (SetDownloadingOfflineEditor true)
                       (view w));
          log := log w ++
                 [EvSetState (SetDownloadingOfflineEditor true);
                  EvOnDownloadEditorStart] ++
                 (evict ++ tail) ++
                 [EvOnDownloadEditorEnd;
                  EvSetState (SetDownloadingOfflineEditor false)] |}).
Proof.
  intros evict. subst evict.
  unfold download_branch. rewrite bind_run, enter_download_run.
  cbv beta iota. cbn [snd].
  destruct (download_body_run env p
              {| fs := fs w; items := items w;
                 view := apply_update (SetDownloadingOfflineEditor true)
                           (view w);
                 log := log w ++
                        [EvSetState (SetDownloadingOfflineEditor true);
                         EvOnDownloadEditorStart] |})
    as (res & root & tail & Hbody & Hprefix & Hevict & Hok).
  cbn [fs] in Hbody, Hevict.
  exists res, root, tail. split; [exact Hbody|].
  split; [done|]. split; [done|]. split; [done|].
  unfold try_finally. rewrite Hbody.
  unfold download_cleanup. rewrite bind_run, emit_run. cbv beta iota.
  rewrite setState_run. unfold with_fs_log. cbn [fs items view log].
  by rewrite <- !app_assoc.
Qed.

(** Reading the unpacked package touches nothing, and its outcome is a
    function of the disk. *)
Lemma resolve_main_run (env : Env) (vd : string) (w : World) :
  resolve_main env vd w =
  (match fs_readDir (fs w) vd with
   | None => Throw (FsError vd)
   | Some [] => Throw TypeError
   | Some (first :: _) =>
       match fs_readFile (fs w) (path first +:+ "/package.json") with
       | None => Throw (FsError (path first +:+ "/package.json"))
       | Some content =>
           match JSON_parse env content with
           | None => Throw SyntaxError
           | Some packageJson =>
               if fs_exists (fs w)
                    (path first +:+ "/" +:+
                     to_string (mainFileName packageJson))
               then Return ("file://" +:+ path first +:+ "/" +:+
                            to_string (mainFileName packageJson))
               else Return ""
           end
       end
   end, w).
Proof.
  unfold resolve_main. rewrite bind_run. unfold RNFS_readDir.
  destruct (fs_readDir (fs w) vd) as [[|first others]|]; try done.
  cbv beta iota. rewrite bind_run. unfold RNFS_readFile.
  destruct (fs_readFile (fs w) (path first +:+ "/package.json"))
    as [content|]; [|done].
  cbv beta iota. rewrite bind_run. unfold parse.
  destruct (JSON_parse env content) as [packageJson|]; [|done].
  unfold ret at 1. cbv beta iota zeta. rewrite bind_run.
  unfold RNFS_exists. cbv beta iota.
  by destruct (fs_exists (fs w) _).
Qed.

Lemma resolve_main_world (env : Env) (vd : string) (w : World) :
  snd (resolve_main env vd w) = w.
Proof. by rewrite resolve_main_run. Qed.

Lemma resolve_main_fs (env : Env) (vd : string) (w1 w2 : World) :
  fs w1 = fs w2 →
  fst (resolve_main env vd w1) = fst (resolve_main env vd w2).
Proof. intros H. rewrite !resolve_main_run. cbn [fst]. by rewrite H. Qed.

(** The resolution is the preparation followed by the reading of the
    unpacked package. *)
Lemma getOfflineEditorUrl_run (env : Env) (r : Render) (item : SNComponent)
    (w : World) :
  liveComponent r = Some item →
  getOfflineEditorUrl env r w =
  match prepare env r item w with
  | (Return _, w') =>
      resolve_main env (versionDir env (package_info item)) w'
  | (Throw e, w') => (Throw e, w')
  end.
Proof. intros H. unfold getOfflineEditorUrl. by rewrite H. Qed.

Lemma prepare_run (env : Env) (r : Render) (item : SNComponent)
    (w : World) :
  prepare env r item w =
  match before_download env r item w with
  | (Return true, w') => download_branch env (package_info item) w'
  | (Return false, w') => (Return tt, w')
  | (Throw e, w') => (Throw e, w')
  end.
Proof.
  unfold prepare. rewrite bind_run.
  destruct (before_download env r item w) as [[[|]|e] w']; done.
Qed.

(** ** Reading a log *)

Lemma update_check_call_kind (e : Event) :
  is_update_check_call e = true →
  is_storage_call e = false ∧ is_download_start e = false ∧
  is_download_end e = false ∧ is_flag_reset e = false.
Proof. by destruct e. Qed.

Lemma storage_call_kind (e : Event) :
  is_storage_call e = true →
  is_download_start e = false ∧ is_download_end e = false ∧
  is_flag_reset e = false.
Proof. by destruct e. Qed.

Lemma count_none (P : Event → bool) (l : list Event) :
  Forall (λ e, P e = false) l → count P l = 0.
Proof.
  unfold count. induction 1 as [|e l He _ IH]; simpl; [done|].
  by rewrite He.
Qed.

Lemma filter_none (P : Event → bool) (l : list Event) :
  Forall (λ e, P e = false) l → List.filter P l = [].
Proof.
  induction 1 as [|e l He _ IH]; simpl; [done|]. by rewrite He.
Qed.

Lemma filter_all (P : Event → bool) (l : list Event) :
  Forall (λ e, P e = true) l → List.filter P l = l.
Proof.
  induction 1 as [|e l He _ IH]; simpl; [done|]. by rewrite He, IH.
Qed.

Lemma download_calls_storage (env : Env) (p : ComponentPackageInfo)
    (tail : list Event) :
  tail `prefix_of` download_calls env p →
  Forall (λ e, is_storage_call e = true) tail.
Proof.
  intros [k Hk]. unfold download_calls in Hk.
  assert (Forall (λ e, is_storage_call e = true) (tail ++ k)) as H.
  { rewrite <- Hk. by repeat constructor. }
  by apply Forall_app in H as [? _].
Qed.

(** ** A populated version directory *)

Lemma append_assoc (a b c : string) :
  (a +:+ b) +:+ c = a +:+ (b +:+ c).
Proof.
  induction a as [|x a IH]; [done|].
  change (String x ((a +:+ b) +:+ c) = String x (a +:+ (b +:+ c))).
  by rewrite IH.
Qed.

Lemma fs_readDir_paths (root : node) (p : string)
    (listing : list ReadDirItem) :
  fs_readDir root p = Some listing →
  Forall (λ item, path item = p +:+ "/" +:+ name item) listing.
Proof.
  unfold fs_readDir.
  destruct (lookup_node (split_path p) root) as [[|es]|]; try done.
  intros [= <-]. induction es as [|e es IH]; by constructor.
Qed.

(** [`${packageJson?.sn?.main || 'index.html'}`], written out. *)
Lemma mainFileName_string (packageJson : json) :
  to_string (mainFileName packageJson) =
  match opt_chain (opt_chain (Some packageJson) "sn") "main" with
  | Some main => if truthy_json main then to_string main else "index.html"
  | None => "index.html"
  end.
Proof.
  unfold mainFileName, or_else, truthy_value.
  destruct (opt_chain (opt_chain (Some packageJson) "sn") "main")
    as [main|]; [|done].
  by destruct (truthy_json main).
Qed.

(** The item store changes only where [changeAndSaveItem] is called. *)
Lemma checkForComponentUpdate_saves
    (env : Env) (app : SNApplication) (c : SNComponent) (w : World) :
  ∃ evs,
    log (snd (checkForComponentUpdate env app c w)) = log w ++ evs ∧
    (count is_changeAndSaveItem evs = 0 →
     items (snd (checkForComponentUpdate env app c w)) = items w).
Proof.
  unfold checkForComponentUpdate, fetch. unfold_monad.
  destruct (latest_url (package_info c)) as [latestUrl|];
    [|exists []; by rewrite app_nil_r].
  destruct (truthy_string latestUrl); cbn [negb];
    [|exists []; by rewrite app_nil_r].
  destruct (fetch_json env latestUrl) as [|[packageInfo|]];
    cbn [fst snd log items].
  - eexists. rewrite <- app_assoc. by split.
  - destruct (negb _ && isStarted app); cbn [fst snd log items].
    + eexists. rewrite <- app_assoc. split; [reflexivity|].
      unfold count. simpl. lia.
    + eexists. by split.
  - eexists. by split.
Qed.

Lemma before_download_saves
    (env : Env) (r : Render) (item : SNComponent) (w : World) :
  ∃ evs,
    log (snd (before_download env r item w)) =
      log w ++
      EvSetState (SetReadAccessUrl (versionDir env (package_info item)))
      :: evs ∧
    (count is_changeAndSaveItem evs = 0 →
     items (snd (before_download env r item w)) = items w).
Proof.
  unfold before_download.
  set (vd := versionDir env (package_info item)).
  rewrite bind_run, setState_run. cbv beta iota.
  set (w1 := {| fs := fs w; items := items w;
                view := apply_update (SetReadAccessUrl vd) (view w);
                log := log w ++ [EvSetState (SetReadAccessUrl vd)] |}).
  rewrite bind_run.
  pose proof (shouldDownload_world r vd w1) as Hw.
  destruct (shouldDownload r vd w1) as [[d|e] w1'];
    cbn [snd] in Hw; subst w1'; cbv beta iota.
  - rewrite bind_run.
    destruct (application r) as [app|].
    + unfold not_awaited, ret. cbv beta iota. cbn [snd].
      destruct (checkForComponentUpdate_saves env app item w1)
        as (evs & Hlog & Hitems).
      exists evs. split; [|done]. rewrite Hlog. subst w1. cbn [log].
      by rewrite <- app_assoc.
    + unfold ret. cbv beta iota. cbn [snd]. exists []. by split.
  - cbn [snd]. exists []. by split.
Qed.

Lemma getOfflineEditorUrl_populated_run
    (env : Env) (r : Render) (item : SNComponent) (w : World)
    (first : ReadDirItem) (others : list ReadDirItem) :
  liveComponent r = Some item →
  fs_readDir (fs w) (versionDir env (package_info item)) =
    Some (first :: others) →
  let vd := versionDir env (package_info item) in
  let run := getOfflineEditorUrl env r w in
  fst run = fst (resolve_main env vd w) ∧
  fs (snd run) = fs w ∧
  ∃ evs, since w (snd run) = EvSetState (SetReadAccessUrl vd) :: evs ∧
         Forall (λ e, is_update_check_call e = true) evs.
Proof.
  intros Hitem Hdir vd run. subst run.
  rewrite (getOfflineEditorUrl_run _ _ _ _ Hitem), prepare_run.
  destruct (before_download_run env r item w)
    as (Hfst & Hfs & _ & evs & Hlog & Hevs).
  fold vd in Hfst, Hlog.
  rewrite (shouldDownload_populated _ _ _ _ _ Hdir) in Hfst.
  destruct (before_download env r item w) as [x w1].
  simpl in Hfst, Hfs, Hlog. subst x. fold vd.
  rewrite resolve_main_run. cbn [fst snd].
  rewrite (resolve_main_run env vd w). cbn [fst]. rewrite Hfs.
  repeat split; try done.
  exists evs. split; [|done]. by apply since_app.
Qed.

(** With a populated version directory, the world that a resolution
    leaves is the one left by what comes before the download. *)
Lemma getOfflineEditorUrl_populated_world
    (env : Env) (r : Render) (item : SNComponent) (w : World)
    (first : ReadDirItem) (others : list ReadDirItem) :
  liveComponent r = Some item →
  fs_readDir (fs w) (versionDir env (package_info item)) =
    Some (first :: others) →
  snd (getOfflineEditorUrl env r w) = snd (before_download env r item w).
Proof.
  intros Hitem Hdir.
  rewrite (getOfflineEditorUrl_run _ _ _ _ Hitem), prepare_run.
  destruct (before_download_run env r item w) as (Hfst & _).
  rewrite (shouldDownload_populated _ _ _ _ _ Hdir) in Hfst.
  destruct (before_download env r item w) as [x w1].
  cbn [fst snd] in *. subst x. apply resolve_main_world.
Qed.

(** C4 (amended). When the version directory exists and is not empty,
    the offline resolution makes no storage call (no download, no
    unpack, no deletion), does not enter the download branch and leaves
    the disk unchanged; its outcome is read from the directory as it is:
    the manifest of the first entry is read and parsed, and the result
    is the [file://] URL of the main file ([sn.main], or [index.html])
    of that entry when that file exists and the empty string otherwise.
    The item store changes only if the update check saved the item. A
    later call, which reads the item of the live component from the
    store, gives the same outcome, makes no storage call and leaves the
    same disk when that item still names the same version directory. *)
Theorem getOfflineEditorUrl_populated
    (env : Env) (r : Render) (item : SNComponent) (w : World)
    (first : ReadDirItem) (others : list ReadDirItem) :
  liveComponent r = Some item →
  fs_readDir (fs w) (versionDir env (package_info item)) =
    Some (first :: others) →
  let vd := versionDir env (package_info item) in
  let run := getOfflineEditorUrl env r w in
  let manifest := path first +:+ "/package.json" in
  Forall (λ e, is_storage_call e = false) (since w (snd run)) ∧
  count is_download_start (since w (snd run)) = 0 ∧
  fs (snd run) = fs w ∧
  path first = vd +:+ "/" +:+ name first ∧
  (fs_readFile (fs w) manifest = None →
   fst run = Throw (FsError manifest)) ∧
  (∀ content,
     fs_readFile (fs w) manifest = Some content →
     match JSON_parse env content with
     | None => fst run = Throw SyntaxError
     | Some packageJson =>
         let main :=
           match opt_chain (opt_chain (Some packageJson) "sn") "main" with
           | Some j => if truthy_json j then to_string j else "index.html"
           | None => "index.html"
           end in
         fst run =
           if fs_exists (fs w) (path first +:+ "/" +:+ main)
           then Return ("file://" +:+ path first +:+ "/" +:+ main)
           else Return ""
     end) ∧
  (count is_changeAndSaveItem (since w (snd run)) = 0 →
   items (snd run) = items w) ∧
  (∀ r' item',
     liveComponent (live r' (snd run)) = Some item' →
     versionDir env (package_info item') = vd →
     let again := getOfflineEditorUrl env (live r' (snd run)) (snd run) in
     fst again = fst run ∧
     fs (snd again) = fs (snd run) ∧
     Forall (λ e, is_storage_call e = false)
       (since (snd run) (snd again))).
Proof.
  intros Hitem Hdir vd run manifest.
  destruct (getOfflineEditorUrl_populated_run env r item w first others
              Hitem Hdir) as (Hres & Hfs & evs & Hlog & Hevs).
  fold vd in Hres, Hlog. fold run in Hres, Hfs, Hlog.
  assert (∀ w' l,
            since w' l = EvSetState (SetReadAccessUrl vd) :: evs →
            Forall (λ e, is_storage_call e = false ∧
                         is_download_start e = false)
              (since w' l)) as Hkinds.
  { intros w' l ->. constructor; [done|].
    eapply Forall_impl; [exact Hevs|].
    intros e He. by destruct (update_check_call_kind e He) as (? & ? & _). }
  pose proof Hdir as Hlisting. fold vd in Hlisting.
  rewrite resolve_main_run, Hlisting in Hres. cbn [fst] in Hres.
  split; [|split; [|split; [done|split; [|split; [|split; [|split]]]]]].
  - eapply Forall_impl; [by apply Hkinds|]. by intros e [? _].
  - apply count_none. eapply Forall_impl; [by apply Hkinds|].
    by intros e [_ ?].
  - pose proof (fs_readDir_paths _ _ _ Hdir) as Hpaths.
    by apply Forall_inv in Hpaths.
  - intros Hnone. fold manifest in Hres. by rewrite Hres, Hnone.
  - intros content Hcontent. fold manifest in Hres.
    rewrite Hcontent in Hres.
    destruct (JSON_parse env content) as [packageJson|]; [|done].
    by rewrite mainFileName_string in Hres.
  - intros Hnone. subst run.
    rewrite (getOfflineEditorUrl_populated_world _ _ _ _ _ _ Hitem Hdir)
      in Hlog, Hnone |- *.
    destruct (before_download_saves env r item w)
      as (evs' & Hlog' & Hitems).
    apply Hitems. rewrite (since_app _ _ _ Hlog') in Hlog, Hnone.
    injection Hlog as ->.
    change (EvSetState (SetReadAccessUrl (versionDir env (package_info item)))
            :: evs)
      with ([EvSetState
               (SetReadAccessUrl (versionDir env (package_info item)))]
            ++ evs) in Hnone.
    rewrite count_app in Hnone.
    change (count is_changeAndSaveItem [EvSetState _]) with 0 in Hnone.
    done.
  - intros r' item' Hitem' Hsame again.
    assert (fs_readDir (fs (snd run)) (versionDir env (package_info item')) =
            Some (first :: others)) as Hdir' by (by rewrite Hsame, Hfs).
    destruct (getOfflineEditorUrl_populated_run env (live r' (snd run))
                item' (snd run) first others Hitem' Hdir')
      as (Hres' & Hfs' & evs' & Hlog' & Hevs').
    rewrite Hsame in Hres', Hlog'. fold again in Hres', Hfs', Hlog'.
    split; [|split; [done|]].
    + rewrite Hres', resolve_main_run, Hfs, Hlisting. cbn [fst].
      by rewrite Hres.
    + rewrite Hlog'. constructor; [done|].
      eapply Forall_impl; [exact Hevs'|].
      intros e He. by destruct (update_check_call_kind e He).
Qed.

Lemma getOfflineEditorUrl_populated_witness :
  let env := Scenario.device android true in
  let r := Scenario.render Scenario.stopped None Scenario.initial_view in
  let w := Scenario.world Scenario.disk_current Scenario.initial_view in
  let run := getOfflineEditorUrl env r w in
  fst run =
    Return "file:///ext/editors/org.editor/1.0/package/index.html" ∧
  fst (getOfflineEditorUrl env (live r (snd run)) (snd run)) = fst run.
Proof.
  intros env r w run.
  destruct (getOfflineEditorUrl_populated env r Scenario.editor w
              {| name := "package";
                 path := "/ext/editors/org.editor/1.0/package" |} []
              eq_refl eq_refl)
    as (_ & _ & _ & _ & _ & Hres & _ & Hagain).
  split.
  - exact (Hres "{}" eq_refl).
  - destruct (Hagain r Scenario.editor) as (Hsame & _);
      [vm_compute; reflexivity | reflexivity | exact Hsame].
Defined.

(** The version directory is populated and the update check of the
    first call saves the manifest of a newer version: the second call
    reads the new item, deletes the directory of the editor and
    downloads the new version; its outcome is not that of the first
    call and the disk is not the one that the first call left. And when
    the new version is unpacked as well, so that the second call also
    finds its version directory populated, it leaves the disk alone but
    returns another URL than the first call. *)
Lemma getOfflineEditorUrl_repeated_after_update :
  let env := Scenario.device android true in
  let r := Scenario.render Scenario.started None Scenario.initial_view in
  let w := Scenario.world Scenario.disk_current Scenario.initial_view in
  let run := getOfflineEditorUrl env r w in
  let again := getOfflineEditorUrl env (live r (snd run)) (snd run) in
  let w2 := Scenario.world Scenario.disk_two_versions Scenario.initial_view in
  let run2 := getOfflineEditorUrl env r w2 in
  let again2 := getOfflineEditorUrl env (live r (snd run2)) (snd run2) in
  (fs_readDir (fs w) (versionDir env Scenario.editor_1_0) =
     Some [{| name := "package";
              path := "/ext/editors/org.editor/1.0/package" |}] ∧
   fst run =
     Return "file:///ext/editors/org.editor/1.0/package/index.html" ∧
   fs (snd run) = fs w ∧
   liveComponent (live r (snd run)) =
     Some {| uuid := "u1"; package_info := Scenario.editor_2_0 |} ∧
   List.filter is_storage_call (since (snd run) (snd again)) =
     [EvUnlink "/ext/editors/org.editor";
      EvDownloadFile "https://x/e2.zip" "/ext/org.editor.zip"] ∧
   fst again = Throw (NetworkError "https://x/e2.zip") ∧
   fs_exists (fs (snd again)) "/ext/editors/org.editor" = false) ∧
  (fs_readDir (fs w2) (versionDir env Scenario.editor_1_0) =
     Some [{| name := "package";
              path := "/ext/editors/org.editor/1.0/package" |}] ∧
   fst run2 =
     Return "file:///ext/editors/org.editor/1.0/package/index.html" ∧
   fs_readDir (fs (snd run2)) (versionDir env Scenario.editor_2_0) =
     Some [{| name := "package";
              path := "/ext/editors/org.editor/2.0/package" |}] ∧
   fst again2 =
     Return "file:///ext/editors/org.editor/2.0/package/index.html" ∧
   fs (snd again2) = fs w2).
Proof. vm_compute. repeat split. Qed.

(** ** The download branch *)

(** The whole resolution when the download is decided. *)
Lemma getOfflineEditorUrl_download_run
    (env : Env) (r : Render) (item : SNComponent) (w : World) :
  liveComponent r = Some item →
  fst (before_download env r item w) = Return true →
  let p := package_info item in
  let w0 := snd (before_download env r item w) in
  let evict :=
    if fs_exists (fs w) (editorDir env p)
    then [EvUnlink (editorDir env p)] else [] in
  ∃ res root tail evs,
    fst (download_body env p (snd (enter_download w0))) = res ∧
    tail `prefix_of` download_calls env p ∧
    (tail ≠ [] →
     ∃ w1, evicted env p (fs w) (fs w1) ∧
           res = fst (fetch_and_unpack env p w1) ∧
           root = fs (snd (fetch_and_unpack env p w1))) ∧
    (res = Return tt →
     tail = download_calls env p ∧
     fs_exists root (downloadPath env p) = false ∧
     ∃ disk, evicted env p (fs w) disk ∧ unpacked env p disk root) ∧
    Forall (λ e, is_update_check_call e = true) evs ∧
    since w w0 = EvSetState (SetReadAccessUrl (versionDir env p)) :: evs ∧
    fs (snd (getOfflineEditorUrl env r w)) = root ∧
    downloadingOfflineEditor (view (snd (getOfflineEditorUrl env r w)))
      = false ∧
    since w0 (snd (getOfflineEditorUrl env r w)) =
      [EvSetState (SetDownloadingOfflineEditor true);
       EvOnDownloadEditorStart] ++
      (evict ++ tail) ++
      [EvOnDownloadEditorEnd;
       EvSetState (SetDownloadingOfflineEditor false)] ∧
    since w (snd (getOfflineEditorUrl env r w)) =
      since w w0 ++ since w0 (snd (getOfflineEditorUrl env r w)) ∧
    fst (getOfflineEditorUrl env r w) =
      match res with
      | Return _ =>
          fst (resolve_main env (versionDir env p)
                 (snd (getOfflineEditorUrl env r w)))
      | Throw e => Throw e
      end.
Proof.
  intros Hitem Hdecision p w0 evict.
  rewrite (getOfflineEditorUrl_run _ _ _ _ Hitem), prepare_run.
  destruct (before_download_run env r item w)
    as (_ & Hfs & _ & evs & Hlog & Hevs).
  subst w0. fold p in Hlog.
  destruct (before_download env r item w) as [x w0].
  cbn [fst snd] in *. subst x.
  destruct (download_branch_run env p w0)
    as (res & root & tail & Hbody & Hprefix & Hevict & Hok & Hbranch).
  rewrite Hfs in Hbody, Hevict, Hok, Hbranch. fold evict in Hbody, Hbranch.
  exists res, root, tail, evs.
  split; [by rewrite Hbody|].
  split; [done|]. split; [done|]. split; [done|]. split; [done|].
  split; [by apply since_app|].
  fold p. rewrite Hbranch.
  set (w2 := {| fs := root; items := items w0;
                view := apply_update (SetDownloadingOfflineEditor false)
                          (apply_update (SetDownloadingOfflineEditor true)
                             (view w0));
                log := log w0 ++
                       [EvSetState (SetDownloadingOfflineEditor true);
                        EvOnDownloadEditorStart] ++
                       (evict ++ tail) ++
                       [EvOnDownloadEditorEnd;
                        EvSetState (SetDownloadingOfflineEditor false)] |}).
  assert (snd (match res with
               | Return _ => resolve_main env (versionDir env p) w2
               | Throw e => (Throw e, w2)
               end) = w2) as Hw2.
  { destruct res; [apply resolve_main_world | done]. }
  rewrite Hw2.
  split; [done|]. split; [done|].
  split; [by apply since_app|].
  split.
  - rewrite (since_app w w0 _ Hlog).
    erewrite (since_app w0 w2); [|done].
    apply since_app. subst w2. cbn [log]. rewrite Hlog.
    by rewrite <- !app_assoc.
  - by destruct res.
Qed.

(** C10. When the resolution enters the download branch, the flag is set
    and [onDownloadEditorStart] is called once; then come the storage
    calls of the body; then [onDownloadEditorEnd] is called and the flag
    is reset, once each, whether the body returns or throws; an error
    thrown by the body is the outcome of the resolution, and when the
    body returns the outcome is that of reading the unpacked package. *)
Theorem download_cleanup_always
    (env : Env) (r : Render) (item : SNComponent) (w : World) :
  liveComponent r = Some item →
  fst (before_download env r item w) = Return true →
  let p := package_info item in
  let w0 := snd (before_download env r item w) in
  let body := fst (download_body env p (snd (enter_download w0))) in
  let run := getOfflineEditorUrl env r w in
  (∃ calls,
     since w0 (snd run) =
       [EvSetState (SetDownloadingOfflineEditor true);
        EvOnDownloadEditorStart] ++
       calls ++
       [EvOnDownloadEditorEnd;
        EvSetState (SetDownloadingOfflineEditor false)] ∧
     Forall (λ e, is_storage_call e = true) calls) ∧
  count is_download_start (since w (snd run)) = 1 ∧
  count is_download_end (since w (snd run)) = 1 ∧
  count is_flag_reset (since w (snd run)) = 1 ∧
  downloadingOfflineEditor (view (snd run)) = false ∧
  (∀ e, body = Throw e → fst run = Throw e) ∧
  (body = Return tt →
   fst run = fst (resolve_main env (versionDir env p) (snd run))).
Proof.
  intros Hitem Hdecision p w0 body run.
  destruct (getOfflineEditorUrl_download_run env r item w Hitem Hdecision)
    as (res & root & tail & evs & Hres & Hprefix & _ & _ & Hevs & Hpre &
        _ & Hflag & Hbranch & Hall & Hout).
  fold p w0 in Hres, Hpre, Hbranch, Hall, Hout.
  fold run in Hflag, Hbranch, Hall, Hout. fold body in Hres.
  assert (Forall (λ e, is_storage_call e = true)
            ((if fs_exists (fs w) (editorDir env p)
              then [EvUnlink (editorDir env p)] else []) ++ tail))
    as Hcalls.
  { apply Forall_app. split.
    - destruct (fs_exists (fs w) (editorDir env p)); by repeat constructor.
    - by eapply download_calls_storage. }
  assert (∀ P : Event → bool,
            P (EvSetState (SetReadAccessUrl (versionDir env p))) = false →
            (∀ e, is_update_check_call e = true → P e = false) →
            (∀ e, is_storage_call e = true → P e = false) →
            count P (since w (snd run)) =
            count P [EvSetState (SetDownloadingOfflineEditor true);
                     EvOnDownloadEditorStart;
                     EvOnDownloadEditorEnd;
                     EvSetState (SetDownloadingOfflineEditor false)])
    as Hcount.
  { intros P Hfirst Hupd Hsto.
    rewrite Hall, Hpre, Hbranch.
    remember ((if fs_exists (fs w) (editorDir env p)
               then [EvUnlink (editorDir env p)] else []) ++ tail)
      as calls.
    rewrite !count_app.
    rewrite (count_none P calls).
    2:{ eapply Forall_impl; [exact Hcalls|]. apply Hsto. }
    change (EvSetState (SetReadAccessUrl (versionDir env p)) :: evs)
      with ([EvSetState (SetReadAccessUrl (versionDir env p))] ++ evs).
    rewrite count_app, (count_none P evs).
    2:{ eapply Forall_impl; [exact Hevs|]. apply Hupd. }
    unfold count. simpl. rewrite Hfirst. simpl.
    destruct (P (EvSetState (SetDownloadingOfflineEditor true))),
      (P EvOnDownloadEditorStart), (P EvOnDownloadEditorEnd),
      (P (EvSetState (SetDownloadingOfflineEditor false))); simpl; lia. }
  split; [by eexists|].
  split.
  { rewrite Hcount; [done | done | |].
    - intros e He. by destruct (update_check_call_kind e He) as (?&?&?&?).
    - intros e He. by destruct (storage_call_kind e He) as (?&?&?). }
  split.
  { rewrite Hcount; [done | done | |].
    - intros e He. by destruct (update_check_call_kind e He) as (?&?&?&?).
    - intros e He. by destruct (storage_call_kind e He) as (?&?&?). }
  split.
  { rewrite Hcount; [done | done | |].
    - intros e He. by destruct (update_check_call_kind e He) as (?&?&?&?).
    - intros e He. by destruct (storage_call_kind e He) as (?&?&?). }
  split; [done|].
  split.
  - intros e He. rewrite Hout, <- Hres, He. done.
  - intros He. rewrite Hout, <- Hres, He. done.
Qed.

Lemma download_cleanup_always_witness :
  let env := Scenario.device android false in
  let r := Scenario.render Scenario.started None Scenario.initial_view in
  let w := Scenario.world Scenario.disk_stale Scenario.initial_view in
  fst (before_download env r Scenario.editor w) = Return true ∧
  count is_download_end (since w (snd (getOfflineEditorUrl env r w))) = 1 ∧
  fst (getOfflineEditorUrl env r w) =
    Throw (NetworkError "https://x/e.zip").
Proof.
  intros env r w.
  assert (fst (before_download env r Scenario.editor w) = Return true)
    as Hdecision by (vm_compute; reflexivity).
  destruct (download_cleanup_always env r Scenario.editor w
              eq_refl Hdecision)
    as (_ & _ & Hend & _ & _ & Hthrow & _).
  split; [exact Hdecision|]. split; [exact Hend|].
  apply Hthrow. vm_compute. reflexivity.
Defined.

(** ** Eviction of the previous version *)

(** C3 (amended). When no download is under way (the flag that the
    render closed over is not set) and the version directory is missing
    or empty: the storage calls of the resolution are the deletion of the
    directory of the editor, made exactly when that directory exists,
    followed by the download, the unpacking and the deletion of the
    archive, each made only when the call before it returned; the
    download is only called on a disk on which no directory of the editor
    is left, and from there on, whether the body of the download returns
    or throws, the directory of the editor is missing or holds the new
    version and no other; and when the body returns, all these calls
    were made and the archive is gone. *)
Theorem getOfflineEditorUrl_evicts_before_download
    (env : Env) (r : Render) (item : SNComponent) (w : World) :
  liveComponent r = Some item →
  downloadingOfflineEditor (state r) = false →
  (fs_exists (fs w) (versionDir env (package_info item)) = false ∨
   fs_readDir (fs w) (versionDir env (package_info item)) = Some []) →
  let p := package_info item in
  let w0 := snd (before_download env r item w) in
  let body := fst (download_body env p (snd (enter_download w0))) in
  let run := getOfflineEditorUrl env r w in
  let evict :=
    if fs_exists (fs w) (editorDir env p)
    then [EvUnlink (editorDir env p)] else [] in
  ∃ tail,
    List.filter is_storage_call (since w (snd run)) = evict ++ tail ∧
    tail `prefix_of` download_calls env p ∧
    (tail ≠ [] →
     ∃ w1, evicted env p (fs w) (fs w1) ∧
           body = fst (fetch_and_unpack env p w1) ∧
           fs (snd run) = fs (snd (fetch_and_unpack env p w1)) ∧
           ∀ v vs, split_path (version p) = v :: vs →
                   fs_exists (fs (snd run)) (editorDir env p) = false ∨
                   fs_readDir (fs (snd run)) (editorDir env p) =
                     Some [{| name := v;
                              path := editorDir env p +:+ "/" +:+ v |}]) ∧
    (body = Return tt →
     tail = download_calls env p ∧
     fs_exists (fs (snd run)) (downloadPath env p) = false ∧
     (∃ disk, evicted env p (fs w) disk ∧
              unpacked env p disk (fs (snd run))) ∧
     ∀ v vs, split_path (version p) = v :: vs →
             fs_readDir (fs (snd run)) (editorDir env p) =
               Some [{| name := v;
                        path := editorDir env p +:+ "/" +:+ v |}]).
Proof.
  intros Hitem Hflag Hdir p w0 body run evict.
  assert (fst (before_download env r item w) = Return true) as Hdecision.
  { destruct (before_download_run env r item w) as (-> & _).
    apply shouldDownload_true. by split. }
  destruct (getOfflineEditorUrl_download_run env r item w Hitem Hdecision)
    as (res & root & tail & evs & Hres & Hprefix & Hevict & Hok & Hevs &
        Hpre & Hroot & _ & Hbranch & Hall & _).
  fold p w0 in Hres, Hpre, Hbranch, Hall, Hevict, Hok, Hprefix.
  fold run in Hroot, Hbranch, Hall. fold body in Hres. fold evict in Hbranch.
  exists tail. split; [|split; [done|split]].
  - rewrite Hall, Hpre, Hbranch.
    change (EvSetState (SetReadAccessUrl (versionDir env p)) :: evs)
      with ([EvSetState (SetReadAccessUrl (versionDir env p))] ++ evs).
    rewrite !List.filter_app.
    rewrite (filter_none is_storage_call evs).
    2:{ eapply Forall_impl; [exact Hevs|].
        intros e He. by destruct (update_check_call_kind e He). }
    rewrite (filter_all is_storage_call tail)
      by (by eapply download_calls_storage).
    rewrite (filter_all is_storage_call evict)
      by (subst evict; destruct (fs_exists (fs w) (editorDir env p));
          by repeat constructor).
    simpl. by rewrite app_nil_r.
  - intros Hbegun.
    destruct (Hevict Hbegun) as (w1 & Hevicted & Hbody & Hdisk).
    exists w1. rewrite Hroot.
    split; [done|]. split; [congruence|]. split; [done|].
    intros v vs Hversion. rewrite Hdisk.
    destruct Hevicted as [_ Habsent].
    by apply (fetch_and_unpack_single_version env p w1 v vs).
  - intros Hbody. rewrite Hroot.
    destruct Hok as (Htail & Hgone & disk & Hevicted & Hunpacked);
      [by rewrite <- Hres|].
    split; [done|]. split; [done|]. split; [by exists disk|].
    intros v vs Hversion.
    destruct Hevicted as [_ Habsent].
    by eapply unpacked_single_version.
Qed.

Lemma getOfflineEditorUrl_evicts_before_download_witness :
  let env := Scenario.device android true in
  let r := Scenario.render Scenario.started None Scenario.initial_view in
  let w := Scenario.world Scenario.disk_stale Scenario.initial_view in
  let run := getOfflineEditorUrl env r w in
  List.filter is_storage_call (since w (snd run)) =
    [EvUnlink "/ext/editors/org.editor";
     EvDownloadFile "https://x/e.zip" "/ext/org.editor.zip";
     EvUnzip "/ext/org.editor.zip" "/ext/editors/org.editor/1.0";
     EvUnlink "/ext/org.editor.zip"] ∧
  fs_exists (fs (snd run)) "/ext/org.editor.zip" = false ∧
  fs_readDir (fs (snd run)) "/ext/editors/org.editor" =
    Some [{| name := "1.0"; path := "/ext/editors/org.editor/1.0" |}].
Proof.
  intros env r w run.
  destruct (getOfflineEditorUrl_evicts_before_download env r
              Scenario.editor w eq_refl eq_refl (or_introl eq_refl))
    as (tail & Hcalls & _ & _ & Hok).
  destruct Hok as (-> & Hgone & _ & Hsingle); [vm_compute; reflexivity|].
  split; [exact Hcalls|]. split; [exact Hgone|].
  exact (Hsingle "1.0" [] eq_refl).
Defined.

(** The version directory is missing, an older version is on the disk
    and a download is under way: nothing is deleted and nothing is
    downloaded. *)
Lemma getOfflineEditorUrl_busy_keeps_previous :
  let env := Scenario.device android true in
  let r := Scenario.render Scenario.started None Scenario.downloading_view in
  let w := Scenario.world Scenario.disk_stale Scenario.downloading_view in
  let run := getOfflineEditorUrl env r w in
  fs_exists (fs w) (versionDir env Scenario.editor_1_0) = false ∧
  fs_exists (fs w) (editorDir env Scenario.editor_1_0) = true ∧
  List.filter is_storage_call (since w (snd run)) = [] ∧
  fs_exists (fs (snd run)) (editorDir env Scenario.editor_1_0) = true ∧
  fst run = Throw (FsError "/ext/editors/org.editor/1.0").
Proof. vm_compute. repeat split. Qed.

(** ** The main file *)

(** What the resolution itself does with the main file. Once the
    package is unpacked and its manifest is read: when [sn.main] is
    missing from the manifest (or falsy), the main file is [index.html];
    and when the main file is not on the disk, the resolution returns
    the empty string and does not throw. *)
Theorem getOfflineEditorUrl_main_file
    (env : Env) (r : Render) (item : SNComponent) (w : World)
    (first : ReadDirItem) (others : list ReadDirItem)
    (content : string) (packageJson : json) :
  liveComponent r = Some item →
  fst (prepare env r item w) = Return tt →
  let disk := fs (snd (prepare env r item w)) in
  fs_readDir disk (versionDir env (package_info item)) =
    Some (first :: others) →
  fs_readFile disk (path first +:+ "/package.json") = Some content →
  JSON_parse env content = Some packageJson →
  let result := fst (getOfflineEditorUrl env r w) in
  (truthy_value (opt_chain (opt_chain (Some packageJson) "sn") "main")
     = false →
   mainFileName packageJson = JStr "index.html" ∧
   result =
     if fs_exists disk (path first +:+ "/index.html")
     then Return ("file://" +:+ path first +:+ "/index.html")
     else Return "") ∧
  (fs_exists disk
     (path first +:+ "/" +:+ to_string (mainFileName packageJson)) = false →
   result = Return "").
Proof.
  intros Hitem Hprep disk Hdir Hfile Hparse result. subst result disk.
  rewrite (getOfflineEditorUrl_run _ _ _ _ Hitem).
  destruct (prepare env r item w) as [x w1]. cbn [fst snd] in *. subst x.
  rewrite resolve_main_run, Hdir, Hfile, Hparse. cbn [fst].
  split.
  - intros Hfalsy.
    assert (mainFileName packageJson = JStr "index.html") as ->.
    { unfold mainFileName, or_else. by rewrite Hfalsy. }
    done.
  - by intros ->.
Qed.

Lemma getOfflineEditorUrl_main_file_witness :
  let env := Scenario.device android true in
  let r := Scenario.render Scenario.started None Scenario.initial_view in
  let w := Scenario.world Scenario.disk_empty Scenario.initial_view in
  mainFileName (JObj []) = JStr "index.html" ∧
  fst (getOfflineEditorUrl env r w) =
    Return "file:///ext/editors/org.editor/1.0/package/index.html".
Proof.
  intros env r w.
  assert (fst (prepare env r Scenario.editor w) = Return tt) as Hprep
    by (vm_compute; reflexivity).
  assert (fs_readDir (fs (snd (prepare env r Scenario.editor w)))
            (versionDir env (package_info Scenario.editor)) =
          Some [{| name := "package";
                   path := "/ext/editors/org.editor/1.0/package" |}])
    as Hdir by (vm_compute; reflexivity).
  assert (fs_readFile (fs (snd (prepare env r Scenario.editor w)))
            ("/ext/editors/org.editor/1.0/package" +:+ "/package.json") =
          Some "{}") as Hfile by (vm_compute; reflexivity).
  destruct (getOfflineEditorUrl_main_file env r Scenario.editor w _ _
              "{}" (JObj []) eq_refl Hprep Hdir Hfile eq_refl)
    as [Hdefault _].
  destruct (Hdefault eq_refl) as [Hname Hresult].
  split; [exact Hname|].
  rewrite Hresult. vm_compute. reflexivity.
Defined.

(** C5, the defect. The package is unpacked with a manifest that names
    no main file, and [index.html] is not on the disk: the resolution
    returns the empty string, as the claim says, but nothing falls back
    to the remote editor. [setEditorUrl] stores the empty string as the
    offline URL and leaves [url] unset, although the component manager
    gave a canonical URL, the source of the web view falls back to [url]
    (line 403) and the [catch] path beside it sets [url] (line 264): no
    web view is rendered and no load error is signalled. *)
Lemma setEditorUrl_empty_result_no_fallback :
  let env := Scenario.device android true in
  let r := Scenario.render Scenario.started None Scenario.initial_view in
  let w := Scenario.world Scenario.disk_without_main Scenario.initial_view in
  let run := setEditorUrl env r true w in
  urlForComponent Scenario.started Scenario.editor =
    Some "https://remote/editor" ∧
  fst (getOfflineEditorUrl env r w) = Return "" ∧
  fst run = Return tt ∧
  url (view (snd run)) = "" ∧
  offlineUrl (view (snd run)) = "" ∧
  webview_rendered (view (snd run)) = false ∧
  count is_load_error (since w (snd run)) = 0.
Proof. vm_compute. repeat split. Qed.

(** ** Choosing the URL to load *)

Lemma onLoadErrorHandler_run (w : World) :
  onLoadErrorHandler w =
  (Return tt,
   {| fs := fs w; items := items w; view := view w;
      log := log w ++
             match timeoutRef (view w) with
             | Some id =>
                 if Nat.eqb id 0 then [EvOnLoadError]
                 else [EvClearTimeout id; EvOnLoadError]
             | None => [EvOnLoadError]
             end |}).
Proof.
  unfold onLoadErrorHandler.
  destruct (timeoutRef (view w)) as [id|]; [|done].
  destruct (Nat.eqb id 0); [done|].
  rewrite bind_run, !emit_run. cbn [fs items view log].
  by rewrite <- app_assoc.
Qed.

(** C6 (amended). When the component manager gives a canonical URL and
    the offline resolution throws, [setEditorUrl] itself returns, and:
    if the effect is still mounted and offline-only mode was not asked
    for, the only call is the setting of [url] to the canonical URL,
    which is then the source of the web view unless an offline URL is
    held; if the effect is still mounted and offline-only mode was asked
    for, the load error is signalled once, after the pending timer is
    cleared, and the state of the view is unchanged; if the effect was
    cleaned up in between, nothing at all is done. *)
Theorem setEditorUrl_offline_failure
    (env : Env) (r : Render) (app : SNApplication) (item : SNComponent)
    (newUrl : string) (mounted : bool) (w : World) (e : Error) :
  application r = Some app →
  liveComponent r = Some item →
  urlForComponent app item = Some newUrl →
  truthy_string newUrl = true →
  fst (getOfflineEditorUrl env r w) = Throw e →
  let failed := snd (getOfflineEditorUrl env r w) in
  let run := setEditorUrl env r mounted w in
  fst run = Return tt ∧
  (mounted = true → truthy_bool (offlineOnly r) = false →
   since failed (snd run) = [EvSetState (SetUrl newUrl)] ∧
   url (view (snd run)) = newUrl ∧
   (loadedOnce (view failed) = true →
    truthy_string (offlineUrl (view failed)) = false →
    source (view (snd run)) = Some newUrl)) ∧
  (mounted = true → truthy_bool (offlineOnly r) = true →
   view (snd run) = view failed ∧
   count is_load_error (since failed (snd run)) = 1 ∧
   since failed (snd run) =
     match timeoutRef (view failed) with
     | Some id =>
         if Nat.eqb id 0 then [EvOnLoadError]
         else [EvClearTimeout id; EvOnLoadError]
     | None => [EvOnLoadError]
     end) ∧
  (mounted = false → snd run = failed).
Proof.
  intros Happ Hitem Hurl Htruthy Hthrow failed run. subst run failed.
  unfold setEditorUrl. rewrite Happ, Hitem, Hurl, Htruthy.
  cbn [negb]. unfold try_catch. rewrite bind_run.
  destruct (getOfflineEditorUrl env r w) as [x w1].
  cbn [fst snd] in *. subst x.
  destruct mounted.
  - destruct (truthy_bool (offlineOnly r)).
    + rewrite onLoadErrorHandler_run. cbn [fst snd view].
      split; [done|]. split; [done|]. split; [|done].
      intros _ _. split; [done|].
      erewrite since_app; [|reflexivity].
      split; [|done].
      destruct (timeoutRef (view w1)) as [id|]; [|done].
      by destruct (Nat.eqb id 0).
    + rewrite setState_run. cbn [fst snd view].
      split; [done|]. split; [|done].
      intros _ _. split; [by apply since_app|]. split; [done|].
      intros Hloaded Hnone. unfold source. simpl.
      by rewrite Hloaded, Hnone.
  - unfold ret. cbn [fst snd]. repeat split; done.
Qed.

Lemma setEditorUrl_offline_failure_witness :
  let env := Scenario.device android false in
  let r := Scenario.render Scenario.started None Scenario.initial_view in
  let w := Scenario.world Scenario.disk_empty Scenario.initial_view in
  fst (getOfflineEditorUrl env r w) =
    Throw (NetworkError "https://x/e.zip") ∧
  url (view (snd (setEditorUrl env r true w))) = "https://remote/editor".
Proof.
  intros env r w.
  assert (fst (getOfflineEditorUrl env r w) =
          Throw (NetworkError "https://x/e.zip")) as Hthrow
    by (vm_compute; reflexivity).
  destruct (setEditorUrl_offline_failure env r Scenario.started
              Scenario.editor "https://remote/editor" true w _
              eq_refl eq_refl eq_refl eq_refl Hthrow)
    as (_ & Hremote & _).
  destruct (Hremote eq_refl eq_refl) as (_ & Hset & _).
  split; [exact Hthrow | exact Hset].
Defined.

(** The offline resolution throws after the effect was cleaned up, and
    offline-only mode was not asked for: the canonical URL is not used
    and no load error is signalled. *)
Lemma setEditorUrl_unmounted_drops_failure :
  let env := Scenario.device android false in
  let r := Scenario.render Scenario.started None Scenario.initial_view in
  let w := Scenario.world Scenario.disk_empty Scenario.initial_view in
  let run := setEditorUrl env r false w in
  urlForComponent Scenario.started Scenario.editor =
    Some "https://remote/editor" ∧
  fst (getOfflineEditorUrl env r w) =
    Throw (NetworkError "https://x/e.zip") ∧
  fst run = Return tt ∧
  url (view (snd run)) = "" ∧
  count is_load_error (since w (snd run)) = 0.
Proof. vm_compute. repeat split. Qed.

(** ** Interception of navigations *)

(** What the handler does, on every platform. *)
Lemma onShouldStartLoadWithRequest_run
    (env : Env) (r : Render) (app : SNApplication)
    (request : ShouldStartLoadRequest) (w : World) :
  application r = Some app →
  onShouldStartLoadWithRequest env r request w =
  if (bool_decide (OS env = ios)
      && bool_decide (navigationType request = Some click))
     || (bool_decide (OS env = android)
         && negb (String.eqb (request_url request) (url (state r))))
  then (Return false,
        {| fs := fs w; items := items w; view := view w;
           log := log w ++ [EvOpenUrl (request_url request)] |})
  else (Return true, w).
Proof.
  intros Happ. unfold onShouldStartLoadWithRequest.
  destruct (_ || _); [|done].
  rewrite bind_run. unfold openUrl. by rewrite Happ, emit_run.
Qed.

(** The load of the editor is let through on iOS, and on every platform
    when no offline URL is held. *)
Lemma editor_load_not_intercepted
    (env : Env) (r : Render) (app : SNApplication)
    (request : ShouldStartLoadRequest) (w : World) :
  application r = Some app →
  editor_load_request env (state r) = Some request →
  OS env ≠ android ∨ truthy_string (offlineUrl (state r)) = false →
  onShouldStartLoadWithRequest env r request w = (Return true, w).
Proof.
  intros Happ Hreq Hcase.
  rewrite (onShouldStartLoadWithRequest_run _ _ _ _ _ Happ).
  unfold editor_load_request, source in Hreq.
  destruct (loadedOnce (state r)); [|done].
  injection Hreq as <-. cbn [request_url navigationType].
  destruct (decide (OS env = ios)) as [Hios|Hnios].
  - rewrite (bool_decide_eq_false_2 (Some other = Some click)) by done.
    rewrite andb_false_r.
    rewrite (bool_decide_eq_false_2 (OS env = android)) by congruence.
    done.
  - rewrite (bool_decide_eq_false_2 (OS env = ios)) by done.
    destruct Hcase as [Hnandroid|Hremote].
    + by rewrite (bool_decide_eq_false_2 (OS env = android)).
    + rewrite Hremote, String.eqb_refl. cbn [negb andb].
      by rewrite andb_false_r.
Qed.

(** C1, the defect. On Android, with the offline editor loaded ([url] is
    still empty and the source of the web view is [offlineUrl], which is
    the state that a successful offline resolution leaves), the request
    that loads the editor itself is handed to the external opener and
    refused, although its target is the loaded editor URL: the handler
    compares with [url], not with the URI of the source. *)
Theorem onShouldStartLoadWithRequest_offline_android :
  let env := Scenario.device android true in
  let r := Scenario.render Scenario.started None Scenario.offline_view in
  let w := Scenario.world Scenario.disk_current Scenario.offline_view in
  let request :=
    {| request_url :=
         "file:///ext/editors/org.editor/1.0/package/index.html";
       navigationType := None |} in
  let resolved :=
    view (snd (setEditorUrl env
                 (Scenario.render Scenario.started None
                    Scenario.initial_view)
                 true
                 (Scenario.world Scenario.disk_current
                    Scenario.initial_view))) in
  url resolved = url (state r) ∧
  offlineUrl resolved = offlineUrl (state r) ∧
  source (state r) = Some (request_url request) ∧
  editor_load_request env (state r) = Some request ∧
  fst (onShouldStartLoadWithRequest env r request w) = Return false ∧
  since w (snd (onShouldStartLoadWithRequest env r request w)) =
    [EvOpenUrl (request_url request)].
Proof. vm_compute. repeat split. Qed.

End ComponentViewFacts.


(* ===================================================================== *)
(** * More properties of the action sheet *)
(* ===================================================================== *)

Module BottomSheetExtra.
Import BottomSheet BottomSheetFacts.

(** ** Sizing *)

(** X1. On a screen of positive height and for heights that are not
    negative, the sheet always has exactly one snap point, and it is
    positive; once the content is measured it exceeds neither the content
    height nor 85% of the screen. *)
Theorem snapPoints_positive (t l H : Q) :
  (0 < H)%Q → (0 <= t)%Q → (0 <= l)%Q →
  ∃ s, snapPoints H (contentHeight t l) = [s] ∧
       (0 < s)%Q ∧
       (¬ (contentHeight t l == 0)%Q →
        (s <= contentHeight t l)%Q ∧ (s <= 0.85 * H)%Q).
Proof.
  intros HH Ht Hl. unfold contentHeight.
  destruct (Qeq_dec (t + l) 0) as [Hz|Hnz].
  - exists 1%Q. rewrite snapPoints_unmeasured by done.
    split; [done|]. split; [reflexivity|]. by intros [].
  - rewrite snapPoints_measured by done.
    destruct (Qlt_le_dec (t + l) (0.85 * H)).
    + exists (t + l)%Q. split; [done|]. split; [lra|]. intros _. lra.
    + exists (0.85 * H)%Q. split; [done|]. split; [lra|]. intros _. lra.
Qed.

Lemma snapPoints_positive_witness :
  ∃ s, snapPoints 800 (contentHeight 60 340) = [s] ∧ (0 < s)%Q.
Proof.
  destruct (snapPoints_positive 60 340 800) as (s & Hs & Hpos & _);
    [reflexivity | discriminate | discriminate |].
  by exists s.
Defined.

(** X2. Among measured heights the snap point grows with the content: a
    taller content never gives a smaller sheet. *)
Theorem snapPoints_monotone (H c1 c2 : Q) :
  (0 < c1)%Q → (c1 <= c2)%Q →
  ∃ s1 s2, snapPoints H c1 = [s1] ∧ snapPoints H c2 = [s2] ∧ (s1 <= s2)%Q.
Proof.
  intros Hpos Hle.
  rewrite !snapPoints_measured by lra.
  destruct (Qlt_le_dec c1 (0.85 * H)), (Qlt_le_dec c2 (0.85 * H));
    eexists _, _; (split; [reflexivity|]); (split; [reflexivity|]); lra.
Qed.

Lemma snapPoints_monotone_witness :
  ∃ s1 s2, snapPoints 800 400 = [s1] ∧ snapPoints 800 900 = [s2] ∧
           (s1 <= s2)%Q.
Proof.
  apply (snapPoints_monotone 800 400 900); [reflexivity | discriminate].
Defined.

(** ** Expanding a section *)

Lemma expandSection_snoc (sectionKey : string)
    (sections : list BottomSheetSectionType) (s : BottomSheetSectionType) :
  expandSection sectionKey (animatedSections (sections ++ [s])) =
  expandSection sectionKey (animatedSections sections) ++
  if expandable s
  then [timing (length sections) (target sectionKey s)]
  else [].
Proof.
  unfold animatedSections. rewrite imap_app, expandSection_app.
  f_equal. unfold expandSection. simpl. rewrite Nat.add_0_r.
  by destruct (expandable s).
Qed.

Lemma expandSection_values_lt (sectionKey : string)
    (sections : list BottomSheetSectionType) (a : CompositeAnimation) :
  a ∈ expandSection sectionKey (animatedSections sections) →
  value a < length sections.
Proof.
  induction sections as [|s sections IH] using rev_ind.
  - intros H. by apply elem_of_nil in H.
  - rewrite expandSection_snoc, length_app. simpl.
    intros [H|H]%elem_of_app.
    + apply IH in H. lia.
    + destruct (expandable s); [|by apply elem_of_nil in H].
      apply list_elem_of_singleton in H as ->. simpl. lia.
Qed.

(** X3. One press builds exactly one animation for each expandable
    section and none for a flat one: the animated values are pairwise
    distinct, an animation on the value of position [i] exists exactly
    when section [i] is expandable, it heads to 1 when the key of that
    section is the pressed key and to 0 otherwise, and every animation
    lasts 250 ms on the JavaScript driver. *)
Theorem expandSection_animations (sectionKey : string)
    (sections : list BottomSheetSectionType) :
  let animations := expandSection sectionKey (animatedSections sections) in
  NoDup (value <$> animations) ∧
  length animations = length (filter (λ s, expandable s = true) sections) ∧
  (∀ i to,
     (∃ a, a ∈ animations ∧ value a = i ∧ toValue a = to) ↔
     (∃ s, sections !! i = Some s ∧ expandable s = true ∧
           to = target sectionKey s)) ∧
  (∀ a, a ∈ animations → duration a = 250%Z ∧ useNativeDriver a = false).
Proof.
  induction sections as [|s sections IH] using rev_ind.
  - simpl. split; [constructor|]. split; [done|]. split.
    + intros i to. split.
      * intros (a & Ha & _). by apply elem_of_nil in Ha.
      * by intros (s & Hs & _).
    + intros a Ha. by apply elem_of_nil in Ha.
  - destruct IH as (Hnd & Hlen & Hiff & Hcfg).
    cbv zeta. rewrite expandSection_snoc.
    rewrite filter_app, !length_app, fmap_app.
    destruct (expandable s) eqn:He.
    + split; [|split; [|split]].
      * apply NoDup_app. split; [done|]. split; [|apply NoDup_singleton].
        intros i Hi Hi'. simpl in Hi'.
        apply list_elem_of_singleton in Hi' as ->.
        apply list_elem_of_fmap in Hi as (a & Ha & Hin).
        apply expandSection_values_lt in Hin. simpl in Ha. lia.
      * rewrite Hlen. rewrite filter_cons, decide_True by done. done.
      * intros i to. split.
        -- intros (a & [Ha|Ha]%elem_of_app & Hv & Ht).
           ++ destruct (proj1 (Hiff i to)) as (s' & Hs' & He' & Hto);
                [by exists a|].
              exists s'. split; [|done].
              rewrite lookup_app_l; [done|]. by eapply lookup_lt_Some.
           ++ apply list_elem_of_singleton in Ha as ->. simpl in Hv, Ht.
              subst i to. exists s. split; [|done].
              by rewrite list_lookup_middle.
        -- intros (s' & Hs' & He' & Hto).
           destruct (decide (i < length sections)) as [Hlt|Hge].
           ++ rewrite lookup_app_l in Hs' by done.
              destruct (proj2 (Hiff i to)) as (a & Ha & Hv & Ht);
                [by exists s'|].
              exists a. split; [|done]. apply elem_of_app. by left.
           ++ assert (i = length sections) as ->.
              { apply lookup_lt_Some in Hs'. rewrite length_app in Hs'.
                simpl in Hs'. lia. }
              rewrite list_lookup_middle in Hs' by done.
              injection Hs' as <-.
              exists (timing (length sections) (target sectionKey s)).
              split; [|done]. apply elem_of_app. right.
              by apply list_elem_of_singleton.
      * intros a [Ha|Ha]%elem_of_app; [by apply Hcfg|].
        by apply list_elem_of_singleton in Ha as ->.
    + rewrite !app_nil_r. rewrite filter_cons, decide_False by congruence.
      split; [done|]. split; [simpl; lia|]. split; [|done].
      intros i to. rewrite Hiff. split.
      * intros (s' & Hs' & He' & Hto). exists s'. split; [|done].
        rewrite lookup_app_l; [done|]. by eapply lookup_lt_Some.
      * intros (s' & Hs' & He' & Hto). exists s'. split; [|done].
        destruct (decide (i < length sections)) as [Hlt|Hge].
        -- by rewrite lookup_app_l in Hs'.
        -- assert (i = length sections) as ->.
           { apply lookup_lt_Some in Hs'. rewrite length_app in Hs'.
             simpl in Hs'. lia. }
           rewrite list_lookup_middle in Hs' by done.
           injection Hs' as <-. congruence.
Qed.

(** X4. The last press wins: pressing a header after another one leaves
    the values exactly where the second press alone would have left them,
    whatever the values were; in particular pressing the same header twice
    changes nothing more. *)
Theorem select_last_wins (sections : list BottomSheetSectionType)
    (k1 k2 : string) (vs : Values) :
  select sections k2 (select sections k1 vs) = select sections k2 vs ∧
  select sections k1 (select sections k1 vs) = select sections k1 vs.
Proof.
  assert (∀ a b, select sections b (select sections a vs) =
                 select sections b vs) as H.
  { intros a b. apply list_eq. intros i. rewrite !select_lookup.
    destruct (sections !! i) as [s|]; [|done].
    destruct (expandable s); [|done].
    by destruct (vs !! i). }
  split; apply H.
Qed.

(** X5. A press never changes how many values there are, never moves the
    value of a flat section, and with no expandable section at all it
    starts no animation and changes nothing. *)
Theorem select_keeps_flat_sections
    (sections : list BottomSheetSectionType) (k : string) (vs : Values) :
  length (select sections k vs) = length vs ∧
  (∀ i s, sections !! i = Some s → expandable s = false →
          select sections k vs !! i = vs !! i) ∧
  (Forall (λ s, expandable s = false) sections →
   expandSection k (animatedSections sections) = [] ∧
   select sections k vs = vs).
Proof.
  split; [apply select_length|]. split.
  - intros i s Hs He. by rewrite select_lookup, Hs, He.
  - intros Hflat.
    assert (expandSection k (animatedSections sections) = []) as Hnone.
    { induction sections as [|s sections IH] using rev_ind; [done|].
      apply Forall_app in Hflat as [Hflat Hs].
      pose proof (Forall_inv Hs) as Hs'. cbv beta in Hs'.
      rewrite expandSection_snoc, IH by done. by rewrite Hs'. }
    split; [done|]. unfold select. by rewrite Hnone.
Qed.

Lemma select_keeps_flat_sections_witness :
  select Scenario.note_sections "tags" [0; 0; 0]%Z !! 1 = Some 0%Z.
Proof.
  destruct (select_keeps_flat_sections Scenario.note_sections "tags"
              [0; 0; 0]%Z) as (_ & Hflat & _).
  exact (Hflat 1 (BottomSheetDefaultSectionType "actions" [])
           eq_refl eq_refl).
Defined.

End BottomSheetExtra.


(* ===================================================================== *)
(** * More properties of the editor host *)
(* ===================================================================== *)

Module ComponentViewExtra.
Import Js ComponentView ComponentViewLog ComponentViewFacts.

(** ** The update check *)

(** X6. The update check never throws: without a usable [latest_url]
    (missing or empty) it does nothing; a rejected fetch is logged once
    with [SNLog.error] and changes no item; a falsy body changes no item
    and logs nothing. *)
Theorem checkForComponentUpdate_never_throws
    (env : Env) (app : SNApplication) (component : SNComponent)
    (w : World) :
  let run := checkForComponentUpdate env app component w in
  fst run = Return tt ∧
  (latest_url (package_info component) = Some EmptyString →
   run = (Return tt, w)) ∧
  (∀ latestUrl,
     latest_url (package_info component) = Some latestUrl →
     truthy_string latestUrl = true →
     (fetch_json env latestUrl = FetchRejected →
      since w (snd run) =
        [EvFetch latestUrl; EvLogError (NetworkError latestUrl)] ∧
      items (snd run) = items w) ∧
     (fetch_json env latestUrl = FetchJson None →
      since w (snd run) = [EvFetch latestUrl] ∧
      items (snd run) = items w)).
Proof.
  intros run. subst run. unfold checkForComponentUpdate, fetch.
  split; [|split].
  - unfold_monad. repeat case_match; simplify_eq/=; done.
  - by intros ->.
  - intros latestUrl -> Htruthy. rewrite Htruthy. simpl.
    unfold_monad. simpl. split; intros ->; simpl.
    + split; [|done]. apply since_app. simpl. by rewrite <- app_assoc.
    + split; [|done]. by apply since_app.
Qed.

Lemma checkForComponentUpdate_never_throws_witness :
  let env :=
    {| OS := android; ExternalDirectoryPath := "/ext";
       DocumentDirectoryPath := "/doc";
       fetch_json := λ _, FetchRejected;
       download := λ _, None; archive_entries := λ _, None;
       partial_entries := λ _, None;
       JSON_parse := λ _, None; unlink_fails := λ _, false |} in
  let w := Scenario.world Scenario.disk_current Scenario.initial_view in
  count is_log_error
    (since w (snd (checkForComponentUpdate env Scenario.started
                     Scenario.editor w))) = 1.
Proof.
  intros env w.
  destruct (checkForComponentUpdate_never_throws env Scenario.started
              Scenario.editor w) as (_ & _ & Hfetch).
  destruct (Hfetch "https://x/latest.json" eq_refl eq_refl) as [Hrej _].
  destruct (Hrej eq_refl) as [-> _]. reflexivity.
Defined.

Lemma checkForComponentUpdate_items
    (env : Env) (app : SNApplication) (component : SNComponent)
    (w : World) :
  items (snd (checkForComponentUpdate env app component w)) = items w ∨
  ∃ manifest,
    items (snd (checkForComponentUpdate env app component w)) =
      alter (set_package_info manifest) (uuid component) (items w).
Proof.
  unfold checkForComponentUpdate, fetch. unfold_monad.
  repeat case_match; simplify_eq/=; eauto.
Qed.

(** X7. The update check only ever rewrites the item of the component it
    checks: every other item is left as it was, no item appears or
    disappears, and the rewritten item keeps its uuid. *)
Theorem checkForComponentUpdate_local
    (env : Env) (app : SNApplication) (component : SNComponent)
    (w : World) :
  let after := items (snd (checkForComponentUpdate env app component w)) in
  (∀ k, k ≠ uuid component → after !! k = items w !! k) ∧
  (∀ k, after !! k = None ↔ items w !! k = None) ∧
  (∀ k c, after !! k = Some c →
          ∃ c0, items w !! k = Some c0 ∧ uuid c = uuid c0).
Proof.
  intros after. subst after.
  destruct (checkForComponentUpdate_items env app component w)
    as [-> | [manifest ->]].
  - split; [done|]. split; [done|]. intros k c Hc. by exists c.
  - split; [|split].
    + intros k Hk. by rewrite lookup_alter_ne.
    + intros k. rewrite lookup_alter. case_decide; [subst k|done].
      destruct (items w !! uuid component); simpl; split; done.
    + intros k c. rewrite lookup_alter. case_decide.
      * subst k.
        destruct (items w !! uuid component) as [c0|]; simpl; [|done].
        intros [= <-]. by exists c0.
      * intros Hc. by exists c.
Qed.

Lemma checkForComponentUpdate_local_witness :
  let env := Scenario.device android true in
  let w := Scenario.world Scenario.disk_current Scenario.initial_view in
  items (snd (checkForComponentUpdate env Scenario.started
                Scenario.editor w)) !! "u2" = None.
Proof.
  intros env w.
  destruct (checkForComponentUpdate_local env Scenario.started
              Scenario.editor w) as (Hother & _).
  rewrite (Hother "u2"); [|discriminate]. vm_compute. reflexivity.
Defined.

(** ** What a resolution does to the state of the view *)

Lemma getOfflineEditorUrl_final_view
    (env : Env) (r : Render) (item : SNComponent) (w : World) :
  liveComponent r = Some item →
  view (snd (getOfflineEditorUrl env r w)) =
  match fst (before_download env r item w) with
  | Return true =>
      apply_update (SetDownloadingOfflineEditor false)
        (apply_update (SetDownloadingOfflineEditor true)
           (apply_update
              (SetReadAccessUrl (versionDir env (package_info item)))
              (view w)))
  | _ =>
      apply_update (SetReadAccessUrl (versionDir env (package_info item)))
        (view w)
  end.
Proof.
  intros Hitem.
  rewrite (getOfflineEditorUrl_run _ _ _ _ Hitem), prepare_run.
  destruct (before_download_run env r item w) as (_ & _ & Hview & _).
  destruct (before_download env r item w) as [[[|]|e] w0];
    cbn [fst snd] in *.
  - destruct (download_branch_run env (package_info item) w0)
      as (res & root & tail & _ & _ & _ & _ & ->).
    destruct res as [[]|e]; [rewrite resolve_main_world|];
      cbn [snd view]; by rewrite Hview.
  - by rewrite resolve_main_world.
  - done.
Qed.

(** X8. A resolution always records the version directory as the
    read-access root, and touches nothing else of the state of the view
    except the downloading flag, which ends [false] when the download
    branch was entered and is unchanged otherwise: the two URLs, the
    loaded-once mark, the visibility and the timer are as before. *)
Theorem getOfflineEditorUrl_view
    (env : Env) (r : Render) (item : SNComponent) (w : World) :
  liveComponent r = Some item →
  let after := view (snd (getOfflineEditorUrl env r w)) in
  readAccessUrl after = versionDir env (package_info item) ∧
  url after = url (view w) ∧
  offlineUrl after = offlineUrl (view w) ∧
  loadedOnce after = loadedOnce (view w) ∧
  showWebView after = showWebView (view w) ∧
  timeoutRef after = timeoutRef (view w) ∧
  (fst (before_download env r item w) = Return true →
   downloadingOfflineEditor after = false) ∧
  (fst (before_download env r item w) ≠ Return true →
   downloadingOfflineEditor after = downloadingOfflineEditor (view w)).
Proof.
  intros Hitem after. subst after.
  rewrite (getOfflineEditorUrl_final_view _ _ _ _ Hitem).
  destruct (fst (before_download env r item w)) as [[|]|e]; simpl;
    repeat split; try done; by intros [].
Qed.

Lemma getOfflineEditorUrl_view_witness :
  let env := Scenario.device android true in
  let r := Scenario.render Scenario.started None Scenario.initial_view in
  let w := Scenario.world Scenario.disk_stale Scenario.initial_view in
  readAccessUrl (view (snd (getOfflineEditorUrl env r w))) =
    "/ext/editors/org.editor/1.0" ∧
  url (view (snd (getOfflineEditorUrl env r w))) = "".
Proof.
  intros env r w.
  destruct (getOfflineEditorUrl_view env r Scenario.editor w eq_refl)
    as (Hroot & Hurl & _).
  split; [exact Hroot | exact Hurl].
Defined.

(** ** The URL that a resolution returns *)

Lemma split_path_file_url (file : string) :
  split_path ("file://" +:+ file) = "file:" :: split_path file.
Proof.
  change ("file://" +:+ file)
    with ("file:" +:+ "/" +:+ (EmptyString +:+ "/" +:+ file)).
  by rewrite !split_path_sep.
Qed.

(** A URL that the reading of the unpacked package returns names a file
    that is on the disk; when none of its segments is [..], that file
    lies within the version directory. *)
Lemma resolve_main_within (env : Env) (vd : string) (w : World)
    (s : string) :
  fst (resolve_main env vd w) = Return s →
  s ≠ EmptyString →
  ".." ∉ split_path s →
  ∃ file, s = "file://" +:+ file ∧ within vd file ∧
          fs_exists (fs w) file = true.
Proof.
  rewrite resolve_main_run. cbn [fst].
  destruct (fs_readDir (fs w) vd) as [[|first others]|] eqn:Hdir;
    try done.
  apply fs_readDir_paths in Hdir. apply Forall_inv in Hdir.
  cbv beta in Hdir.
  destruct (fs_readFile (fs w) _) as [content|]; [|done].
  destruct (JSON_parse env content) as [packageJson|]; [|done].
  destruct (fs_exists (fs w) _) eqn:Hexists; [|by intros [= <-]].
  intros [= <-] _ Hdots.
  exists (path first +:+ "/" +:+ to_string (mainFileName packageJson)).
  split; [done|]. split; [|done].
  rewrite split_path_file_url, split_path_sep, Hdir, split_path_sep in Hdots.
  exists (split_path (name first) ++
          split_path (to_string (mainFileName packageJson))).
  rewrite split_path_sep, Hdir, split_path_sep, <- app_assoc.
  split; [|done].
  rewrite <- app_assoc in Hdots.
  apply not_elem_of_cons in Hdots as [_ Hdots].
  by apply not_elem_of_app in Hdots as [_ Hdots].
Qed.



(** ** A resolution that does not download *)

Lemma getOfflineEditorUrl_skip_run
    (env : Env) (r : Render) (item : SNComponent) (w : World) :
  liveComponent r = Some item →
  fst (before_download env r item w) = Return false →
  let vd := versionDir env (package_info item) in
  let run := getOfflineEditorUrl env r w in
  fst run = fst (resolve_main env vd w) ∧
  fs (snd run) = fs w ∧
  ∃ evs, since w (snd run) = EvSetState (SetReadAccessUrl vd) :: evs ∧
         Forall (λ e, is_update_check_call e = true) evs.
Proof.
  intros Hitem Hskip vd run. subst run.
  rewrite (getOfflineEditorUrl_run _ _ _ _ Hitem), prepare_run.
  destruct (before_download_run env r item w)
    as (_ & Hfs & _ & evs & Hlog & Hevs).
  fold vd in Hlog.
  destruct (before_download env r item w) as [x w1].
  cbn [fst snd] in *. subst x. fold vd.
  rewrite resolve_main_run. cbn [fst snd].
  rewrite (resolve_main_run env vd w). cbn [fst]. rewrite Hfs.
  repeat split; try done.
  exists evs. split; [|done]. by apply since_app.
Qed.

Lemma fs_readDir_missing (root : node) (p : string) :
  fs_exists root p = false → fs_readDir root p = None.
Proof.
  unfold fs_exists, fs_readDir.
  by destruct (lookup_node (split_path p) root).
Qed.

(** X10. A resolution started while a download is under way (the flag
    that the render closed over is set) never touches the storage and
    never reports a download of its own; it throws a storage error when
    the version directory is missing and a type error when that directory
    is empty. *)
Theorem getOfflineEditorUrl_while_downloading
    (env : Env) (r : Render) (item : SNComponent) (w : World) :
  liveComponent r = Some item →
  downloadingOfflineEditor (state r) = true →
  let vd := versionDir env (package_info item) in
  let run := getOfflineEditorUrl env r w in
  fs (snd run) = fs w ∧
  List.filter is_storage_call (since w (snd run)) = [] ∧
  count is_download_start (since w (snd run)) = 0 ∧
  (fs_exists (fs w) vd = false → fst run = Throw (FsError vd)) ∧
  (fs_readDir (fs w) vd = Some [] → fst run = Throw TypeError).
Proof.
  intros Hitem Hbusy vd run.
  assert (fst (before_download env r item w) = Return false) as Hskip.
  { destruct (before_download_run env r item w) as (-> & _).
    unfold shouldDownload. by rewrite Hbusy. }
  destruct (getOfflineEditorUrl_skip_run env r item w Hitem Hskip)
    as (Hres & Hfs & evs & Hlog & Hevs).
  fold vd in Hres, Hlog. fold run in Hres, Hfs, Hlog.
  assert (Forall (λ e, is_storage_call e = false ∧
                       is_download_start e = false)
            (since w (snd run))) as Hkinds.
  { rewrite Hlog. constructor; [done|].
    eapply Forall_impl; [exact Hevs|].
    intros e He. by destruct (update_check_call_kind e He) as (? & ? & _). }
  split; [done|]. split; [|split; [|split]].
  - apply filter_none. eapply Forall_impl; [exact Hkinds|]. by intros e [? _].
  - apply count_none. eapply Forall_impl; [exact Hkinds|]. by intros e [_ ?].
  - intros Hmissing. rewrite Hres, resolve_main_run. cbn [fst].
    by rewrite (fs_readDir_missing _ _ Hmissing).
  - intros Hempty. rewrite Hres, resolve_main_run. cbn [fst].
    by rewrite Hempty.
Qed.

Lemma getOfflineEditorUrl_while_downloading_witness :
  let env := Scenario.device android true in
  let r := Scenario.render Scenario.started None Scenario.downloading_view in
  let w := Scenario.world Scenario.disk_empty Scenario.downloading_view in
  fst (getOfflineEditorUrl env r w) =
    Throw (FsError "/ext/editors/org.editor/1.0").
Proof.
  intros env r w.
  destruct (getOfflineEditorUrl_while_downloading env r Scenario.editor w
              eq_refl eq_refl) as (_ & _ & _ & Hmissing & _).
  apply Hmissing. vm_compute. reflexivity.
Defined.

(** ** A download that fails *)











(** The archive is not above the version directory. *)
Lemma versionDir_downloadPath_apart (env : Env) (p : ComponentPackageInfo) :
  ¬ split_path (versionDir env p) `prefix_of` split_path (downloadPath env p) ∧
  ¬ split_path (downloadPath env p) `prefix_of` split_path (versionDir env p).
Proof.
  destruct (editorDir_downloadPath_apart env p) as [Had _].
  rewrite versionDir_segments. split.
  - intros H. apply Had. etrans; [|exact H]. by apply prefix_app_r.
  - rewrite editorDir_segments, downloadPath_segments. unfold split_path.
    destruct (split_from_suffix (identifier p) EmptyString)
      as (segments & last & -> & ->).
    rewrite <- app_assoc. intros H. apply prefix_app_inv in H.
    rewrite <- app_comm_cons, <- app_assoc in H.
    apply snoc_prefix_cons in H. by apply zip_is_not_editors in H.
Qed.



(** ** After a resolution that returned *)

(** X13. Once a resolution has returned, with or without a download,
    a later call on the disk that it left, reading the item of the live
    component from the store as it is then, returns the same URL when
    that item still names the same version directory, whatever the flag
    that its render closed over: it makes no storage call, does not
    enter the download branch and does not change the disk. (An item
    that the update check replaced with another version is not covered:
    the later call resolves that version.) *)
Theorem getOfflineEditorUrl_settles
    (env : Env) (r r' : Render) (item item' : SNComponent) (w w' : World)
    (s : string) :
  liveComponent r = Some item →
  fst (getOfflineEditorUrl env r w) = Return s →
  fs w' = fs (snd (getOfflineEditorUrl env r w)) →
  liveComponent (live r' w') = Some item' →
  versionDir env (package_info item') = versionDir env (package_info item) →
  let again := getOfflineEditorUrl env (live r' w') w' in
  fst again = Return s ∧
  fs (snd again) = fs w' ∧
  List.filter is_storage_call (since w' (snd again)) = [] ∧
  count is_download_start (since w' (snd again)) = 0.
Proof.
  intros Hitem Hret Hsame Hitem' Hversion again.
  set (vd := versionDir env (package_info item)) in *.
  assert (fst (resolve_main env vd (snd (getOfflineEditorUrl env r w))) =
          Return s) as Hread.
  { rewrite (getOfflineEditorUrl_run _ _ _ _ Hitem) in Hret |- *.
    destruct (prepare env r item w) as [[[]|e] w1]; [|done].
    by rewrite resolve_main_world. }
  assert (∃ first others, fs_readDir (fs w') vd = Some (first :: others))
    as (first & others & Hdir).
  { rewrite Hsame. rewrite resolve_main_run in Hread. cbn [fst] in Hread.
    destruct (fs_readDir _ vd) as [[|first others]|]; try done.
    by eexists _, _. }
  rewrite <- Hversion in Hdir.
  destruct (getOfflineEditorUrl_populated_run env (live r' w') item' w'
              first others Hitem' Hdir) as (Hres & Hfs & evs & Hlog & Hevs).
  rewrite Hversion in Hres, Hlog. fold again in Hres, Hfs, Hlog.
  assert (Forall (λ e, is_storage_call e = false ∧
                       is_download_start e = false)
            (since w' (snd again))) as Hkinds.
  { rewrite Hlog. constructor; [done|].
    eapply Forall_impl; [exact Hevs|].
    intros e He. by destruct (update_check_call_kind e He) as (? & ? & _). }
  split; [|split; [done|split]].
  - rewrite Hres, <- Hread. by apply resolve_main_fs.
  - apply filter_none. eapply Forall_impl; [exact Hkinds|]. by intros e [? _].
  - apply count_none. eapply Forall_impl; [exact Hkinds|]. by intros e [_ ?].
Qed.

Lemma getOfflineEditorUrl_settles_witness :
  let env := Scenario.device android true in
  let r := Scenario.render Scenario.stopped None Scenario.initial_view in
  let r' := Scenario.render Scenario.stopped None Scenario.downloading_view in
  let w := Scenario.world Scenario.disk_stale Scenario.initial_view in
  let w' := snd (getOfflineEditorUrl env r w) in
  fst (getOfflineEditorUrl env (live r' w') w') =
    Return "file:///ext/editors/org.editor/1.0/package/index.html" ∧
  List.filter is_storage_call
    (since w' (snd (getOfflineEditorUrl env (live r' w') w'))) = [].
Proof.
  intros env r r' w w'.
  assert (fst (getOfflineEditorUrl env r w) =
          Return "file:///ext/editors/org.editor/1.0/package/index.html")
    as Hret by (vm_compute; reflexivity).
  assert (liveComponent (live r' w') = Some Scenario.editor) as Hlive
    by (vm_compute; reflexivity).
  destruct (getOfflineEditorUrl_settles env r r' Scenario.editor
              Scenario.editor w w' _ eq_refl Hret eq_refl Hlive eq_refl)
    as (Hagain & _ & Hcalls & _).
  split; [exact Hagain | exact Hcalls].
Defined.

(** ** What a download leaves in the version directory *)

(** X14. When the body of a download returns, the version directory
    holds the entries of the archive that was received, and nothing
    else: whatever was in the directory of the editor was evicted first,
    and the deletion of the archive does not reach the version
    directory. *)
Theorem getOfflineEditorUrl_unpacks_archive
    (env : Env) (r : Render) (item : SNComponent) (w : World) :
  liveComponent r = Some item →
  downloadingOfflineEditor (state r) = false →
  (fs_exists (fs w) (versionDir env (package_info item)) = false ∨
   fs_readDir (fs w) (versionDir env (package_info item)) = Some []) →
  let p := package_info item in
  let w0 := snd (before_download env r item w) in
  let body := fst (download_body env p (snd (enter_download w0))) in
  let after := snd (getOfflineEditorUrl env r w) in
  body = Return tt →
  ∃ content archive,
    download env (download_url p) = Some content ∧
    archive_entries env content = Some archive ∧
    fs_readDir (fs after) (versionDir env p) =
      Some (List.map
              (λ e, {| name := fst e;
                       path := versionDir env p +:+ "/" +:+ fst e |})
              (foldl (λ es e, set_entry (fst e) (snd e) es) [] archive)).
Proof.
  intros Hitem Hflag Hdir p w0 body after Hbody.
  assert (fst (before_download env r item w) = Return true) as Hdecision.
  { destruct (before_download_run env r item w) as (-> & _).
    apply shouldDownload_true. by split. }
  destruct (getOfflineEditorUrl_download_run env r item w Hitem Hdecision)
    as (res & root & tail & evs & Hres & _ & _ & Hok & _ & _ & Hroot & _).
  fold p w0 in Hres, Hok. fold body in Hres. fold after in Hroot.
  destruct Hok as (_ & _ & disk & [_ Hgone] & Hunpacked);
    [by rewrite <- Hres|].
  destruct Hunpacked as (content & archive & disk1 & disk2 & Hdl & Hwrite &
                         _ & Harch & Hunpack & Hunlink).
  exists content, archive. split; [done|]. split; [done|].
  destruct (versionDir_downloadPath_apart env p) as [Hvd Hdv].
  unfold fs_exists in Hgone. unfold fs_writeFile in Hwrite.
  unfold fs_unlink in Hunlink. unfold fs_unpack in Hunpack.
  unfold fs_readDir. rewrite Hroot.
  assert (lookup_node (split_path (versionDir env p)) disk1 = None) as H1.
  { rewrite (write_node_elsewhere _ _ _ _ _ Hwrite Hvd Hdv).
    rewrite versionDir_segments. apply lookup_node_app_None.
    by destruct (lookup_node (split_path (editorDir env p)) disk). }
  rewrite H1 in Hunpack.
  rewrite (remove_node_elsewhere _ _ _ _ Hunlink Hvd Hdv).
  by rewrite (write_node_lookup _ _ _ _ Hunpack).
Qed.

Lemma getOfflineEditorUrl_unpacks_archive_witness :
  let env := Scenario.device android true in
  let r := Scenario.render Scenario.started None Scenario.initial_view in
  let w := Scenario.world Scenario.disk_stale Scenario.initial_view in
  ∃ content archive,
    download env "https://x/e.zip" = Some content ∧
    archive_entries env content = Some archive ∧
    fs_readDir (fs (snd (getOfflineEditorUrl env r w)))
      (versionDir env Scenario.editor_1_0) =
      Some (List.map
              (λ e, {| name := fst e;
                       path := versionDir env Scenario.editor_1_0
                               +:+ "/" +:+ fst e |})
              (foldl (λ es e, set_entry (fst e) (snd e) es) [] archive)).
Proof.
  intros env r w.
  apply (getOfflineEditorUrl_unpacks_archive env r Scenario.editor w
           eq_refl eq_refl (or_introl eq_refl)).
  vm_compute. reflexivity.
Defined.

(** ** Choosing the URL to load, on every path *)

Lemma setEditorUrl_run
    (env : Env) (r : Render) (app : SNApplication) (item : SNComponent)
    (newUrl : string) (mounted : bool) (w : World) :
  application r = Some app →
  liveComponent r = Some item →
  urlForComponent app item = Some newUrl →
  truthy_string newUrl = true →
  setEditorUrl env r mounted w =
  match getOfflineEditorUrl env r w with
  | (Return s, w1) =>
      if mounted then setState (SetOfflineUrl s) w1 else (Return tt, w1)
  | (Throw e, w1) =>
      if mounted then
        if truthy_bool (offlineOnly r) then onLoadErrorHandler w1
        else setState (SetUrl newUrl) w1
      else (Return tt, w1)
  end.
Proof.
  intros Happ Hitem Hurl Htruthy.
  unfold setEditorUrl. rewrite Happ, Hitem, Hurl, Htruthy.
  cbn [negb]. unfold try_catch. rewrite bind_run.
  destruct (getOfflineEditorUrl env r w) as [[s|e] w1];
    destruct mounted; try done.
  by destruct (truthy_bool (offlineOnly r)).
Qed.

(** The two URLs of the view are not touched by a resolution. *)
Lemma getOfflineEditorUrl_urls
    (env : Env) (r : Render) (item : SNComponent) (w : World) :
  liveComponent r = Some item →
  url (view (snd (getOfflineEditorUrl env r w))) = url (view w) ∧
  offlineUrl (view (snd (getOfflineEditorUrl env r w))) =
    offlineUrl (view w) ∧
  loadedOnce (view (snd (getOfflineEditorUrl env r w))) =
    loadedOnce (view w) ∧
  readAccessUrl (view (snd (getOfflineEditorUrl env r w))) =
    versionDir env (package_info item).
Proof.
  intros Hitem. rewrite (getOfflineEditorUrl_final_view _ _ _ _ Hitem).
  by destruct (fst (before_download env r item w)) as [[|]|e].
Qed.

(** X15. With an application and a live component, [setEditorUrl] never
    throws, whatever the storage and the network do; and when the
    component manager gives no canonical URL (none, or an empty one) its
    only call is the alert: no offline resolution is started, so the
    storage, the items and the state of the view are as before. *)
Theorem setEditorUrl_never_throws
    (env : Env) (r : Render) (app : SNApplication) (item : SNComponent)
    (mounted : bool) (w : World) :
  application r = Some app →
  liveComponent r = Some item →
  let run := setEditorUrl env r mounted w in
  fst run = Return tt ∧
  ((urlForComponent app item = None ∨
    urlForComponent app item = Some EmptyString) →
   since w (snd run) = [EvAlert "Re-install Extension"] ∧
   fs (snd run) = fs w ∧ items (snd run) = items w ∧
   view (snd run) = view w).
Proof.
  intros Happ Hitem run. subst run.
  destruct (urlForComponent app item) as [newUrl|] eqn:Hurl.
  - destruct (truthy_string newUrl) eqn:Htruthy.
    + rewrite (setEditorUrl_run _ _ _ _ _ _ _ Happ Hitem Hurl Htruthy).
      split.
      * destruct (getOfflineEditorUrl env r w) as [[s|e] w1];
          destruct mounted; try done.
        destruct (truthy_bool (offlineOnly r)); [|done].
        by rewrite onLoadErrorHandler_run.
      * intros [?|[= ->]]; done.
    + unfold setEditorUrl. rewrite Happ, Hitem, Hurl, Htruthy.
      cbn [negb]. rewrite emit_run. cbn [fst snd fs items view].
      split; [done|]. intros _. split; [by apply since_app | done].
  - unfold setEditorUrl. rewrite Happ, Hitem, Hurl.
    rewrite emit_run. cbn [fst snd fs items view].
    split; [done|]. intros _. split; [by apply since_app | done].
Qed.

Lemma setEditorUrl_never_throws_witness :
  let env := Scenario.device android false in
  let r := Scenario.render Scenario.started (Some true)
             Scenario.initial_view in
  let w := Scenario.world Scenario.disk_stale Scenario.initial_view in
  fst (getOfflineEditorUrl env r w) =
    Throw (NetworkError "https://x/e.zip") ∧
  fst (setEditorUrl env r true w) = Return tt.
Proof.
  intros env r w.
  destruct (setEditorUrl_never_throws env r Scenario.started
              Scenario.editor true w eq_refl eq_refl) as [Hret _].
  split; [vm_compute; reflexivity | exact Hret].
Defined.

(** X16. [setEditorUrl] sets at most one of the two URLs of the view.
    [url] changes only when the offline resolution threw while the
    effect was still mounted and offline-only mode was not asked for,
    and then to the canonical URL; [offlineUrl] changes only when the
    resolution returned while the effect was still mounted, and then to
    what it returned; an effect that was cleaned up in between sets
    neither. *)
Theorem setEditorUrl_sets_one_url
    (env : Env) (r : Render) (app : SNApplication) (item : SNComponent)
    (newUrl : string) (mounted : bool) (w : World) :
  application r = Some app →
  liveComponent r = Some item →
  urlForComponent app item = Some newUrl →
  truthy_string newUrl = true →
  let after := view (snd (setEditorUrl env r mounted w)) in
  let resolution := fst (getOfflineEditorUrl env r w) in
  (url after = url (view w) ∨ offlineUrl after = offlineUrl (view w)) ∧
  (url after ≠ url (view w) →
   mounted = true ∧ truthy_bool (offlineOnly r) = false ∧
   (∃ e, resolution = Throw e) ∧ url after = newUrl) ∧
  (offlineUrl after ≠ offlineUrl (view w) →
   mounted = true ∧ resolution = Return (offlineUrl after)) ∧
  (mounted = false →
   url after = url (view w) ∧ offlineUrl after = offlineUrl (view w)).
Proof.
  intros Happ Hitem Hurl Htruthy after resolution. subst after resolution.
  rewrite (setEditorUrl_run _ _ _ _ _ _ _ Happ Hitem Hurl Htruthy).
  destruct (getOfflineEditorUrl_urls env r item w Hitem)
    as (Hu & Ho & _).
  destruct (getOfflineEditorUrl env r w) as [[s|e] w1];
    cbn [fst snd] in *.
  - destruct mounted;
      [rewrite setState_run|]; cbn [snd view apply_update url offlineUrl];
      rewrite ?Hu, ?Ho; intuition congruence.
  - destruct mounted.
    + destruct (truthy_bool (offlineOnly r)).
      * rewrite onLoadErrorHandler_run. cbn [snd view].
        rewrite Hu, Ho. intuition congruence.
      * rewrite setState_run. cbn [snd view apply_update url offlineUrl].
        rewrite ?Hu, ?Ho. split; [by right|].
        split; [intros _; repeat split; eauto|].
        split; [intros ?; congruence | by intros [=]].
    + cbn [snd]. rewrite Hu, Ho. intuition congruence.
Qed.

Lemma setEditorUrl_sets_one_url_witness :
  let env := Scenario.device android true in
  let r := Scenario.render Scenario.started None Scenario.initial_view in
  let w := Scenario.world Scenario.disk_empty Scenario.initial_view in
  fst (getOfflineEditorUrl env r w) =
    Return (offlineUrl (view (snd (setEditorUrl env r true w)))) ∧
  url (view (snd (setEditorUrl env r true w))) = "".
Proof.
  intros env r w.
  destruct (setEditorUrl_sets_one_url env r Scenario.started
              Scenario.editor "https://remote/editor" true w
              eq_refl eq_refl eq_refl eq_refl)
    as (_ & _ & Hoffline & _).
  destruct Hoffline as [_ Hres]; [vm_compute; discriminate|].
  split; [exact Hres | vm_compute; reflexivity].
Defined.

(** X17. When the offline resolution returns while the effect is
    mounted, its result becomes [offlineUrl] by a single state update
    and no load error is signalled. A non-empty result makes the web
    view render and is the source of the web view once it has loaded;
    it names a file that is on the disk and, when none of its segments
    is [..], that file lies within the read-access root that the web
    view is given. An empty result, with no [url] held, leaves no web
    view to render. *)
Theorem setEditorUrl_offline_source
    (env : Env) (r : Render) (app : SNApplication) (item : SNComponent)
    (newUrl s : string) (w : World) :
  application r = Some app →
  liveComponent r = Some item →
  urlForComponent app item = Some newUrl →
  truthy_string newUrl = true →
  fst (getOfflineEditorUrl env r w) = Return s →
  let resolved := snd (getOfflineEditorUrl env r w) in
  let after := snd (setEditorUrl env r true w) in
  since resolved after = [EvSetState (SetOfflineUrl s)] ∧
  offlineUrl (view after) = s ∧
  url (view after) = url (view w) ∧
  (truthy_string s = true →
   webview_rendered (view after) = true ∧
   (loadedOnce (view w) = true → source (view after) = Some s) ∧
   (".." ∉ split_path s →
    ∃ file, s = "file://" +:+ file ∧
            within (readAccessUrl (view after)) file ∧
            fs_exists (fs after) file = true)) ∧
  (truthy_string s = false → url (view w) = EmptyString →
   webview_rendered (view after) = false).
Proof.
  intros Happ Hitem Hurl Htruthy Hret resolved after.
  subst resolved after.
  rewrite (setEditorUrl_run _ _ _ _ _ _ _ Happ Hitem Hurl Htruthy).
  destruct (getOfflineEditorUrl_urls env r item w Hitem)
    as (Hu & Ho & Hl & Hroot).
  assert (s ≠ EmptyString → ".." ∉ split_path s →
          ∃ file, s = "file://" +:+ file ∧
                  within (versionDir env (package_info item)) file ∧
                  fs_exists (fs (snd (getOfflineEditorUrl env r w))) file
                    = true) as Hinside.
  { rewrite (getOfflineEditorUrl_run _ _ _ _ Hitem) in Hret |- *.
    destruct (prepare env r item w) as [[[]|e] w']; [|done].
    rewrite resolve_main_world. intros Hne Hdots.
    by eapply resolve_main_within. }
  destruct (getOfflineEditorUrl env r w) as [x w1].
  cbn [fst snd] in *. subst x.
  rewrite setState_run.
  cbn [snd view apply_update url offlineUrl readAccessUrl loadedOnce fs].
  split; [by apply since_app|]. split; [done|]. split; [done|]. split.
  - intros Hs. unfold webview_rendered, source.
    cbn [url offlineUrl loadedOnce]. rewrite Hs, Hl, Hroot.
    split; [by rewrite orb_true_r|]. split; [by intros ->|].
    apply Hinside. by intros ->.
  - intros Hs Hnone. unfold webview_rendered. cbn [url offlineUrl].
    by rewrite Hs, Hu, Hnone.
Qed.

Lemma setEditorUrl_offline_source_witness :
  let env := Scenario.device android true in
  let r := Scenario.render Scenario.started None Scenario.initial_view in
  let w := Scenario.world Scenario.disk_current Scenario.initial_view in
  offlineUrl (view (snd (setEditorUrl env r true w))) =
    "file:///ext/editors/org.editor/1.0/package/index.html" ∧
  webview_rendered (view (snd (setEditorUrl env r true w))) = true.
Proof.
  intros env r w.
  assert (fst (getOfflineEditorUrl env r w) =
          Return "file:///ext/editors/org.editor/1.0/package/index.html")
    as Hret by (vm_compute; reflexivity).
  destruct (setEditorUrl_offline_source env r Scenario.started
              Scenario.editor "https://remote/editor" _ w
              eq_refl eq_refl eq_refl eq_refl Hret)
    as (_ & Hoffline & _ & Hrendered & _).
  destruct (Hrendered eq_refl) as [Hweb _].
  split; [exact Hoffline | exact Hweb].
Defined.

(** ** The update check of a resolution *)

Lemma checkForComponentUpdate_calls
    (env : Env) (app : SNApplication) (c : SNComponent) (w : World) :
  ∃ evs,
    log (snd (checkForComponentUpdate env app c w)) = log w ++ evs ∧
    count is_fetch evs =
      match latest_url (package_info c) with
      | Some latestUrl => if truthy_string latestUrl then 1 else 0
      | None => 0
      end ∧
    (count is_changeAndSaveItem evs ≤ 1)%nat.
Proof.
  unfold checkForComponentUpdate, fetch. unfold_monad.

  destruct (latest_url (package_info c)) as [latestUrl|].
  2:{ exists []. rewrite app_nil_r.
      split; [done|]. unfold count. simpl. lia. }
  destruct (truthy_string latestUrl); cbn [negb].
  2:{ exists []. rewrite app_nil_r.
      split; [done|]. unfold count. simpl. lia. }
  destruct (fetch_json env latestUrl) as [|[packageInfo|]];
    cbn [fst snd log].
  - eexists. rewrite <- app_assoc. split; [reflexivity|].
    unfold count. simpl. lia.
  - destruct (negb _ && isStarted app); cbn [fst snd log].
    + eexists. rewrite <- app_assoc. split; [reflexivity|].
      unfold count. simpl. lia.
    + eexists. split; [reflexivity|]. unfold count. simpl. lia.
  - eexists. split; [reflexivity|]. unfold count. simpl. lia.
Qed.

Lemma shouldDownload_returns (r : Render) (vd : string) (w : World) :
  fs_readFile (fs w) vd = None →
  ∃ decision, fst (shouldDownload r vd w) = Return decision.
Proof.
  intros Hfile.
  unfold shouldDownload, RNFS_exists, RNFS_readDir. unfold_monad.
  destruct (downloadingOfflineEditor (state r)); [by eexists|].
  unfold fs_exists, fs_readDir, fs_readFile in *.
  destruct (lookup_node (split_path vd) (fs w)) as [[content|es]|] eqn:Hl;
    [done| |]; cbn [negb fst]; rewrite ?Hl; by eexists.
Qed.

Lemma before_download_calls
    (env : Env) (r : Render) (app : SNApplication) (item : SNComponent)
    (w : World) (decision : bool) :
  application r = Some app →
  fst (before_download env r item w) = Return decision →
  ∃ evs,
    log (snd (before_download env r item w)) =
      log w ++
      EvSetState (SetReadAccessUrl (versionDir env (package_info item)))
      :: evs ∧
    count is_fetch evs =
      match latest_url (package_info item) with
      | Some latestUrl => if truthy_string latestUrl then 1 else 0
      | None => 0
      end ∧
    (count is_changeAndSaveItem evs ≤ 1)%nat.
Proof.
  intros Happ. unfold before_download.
  set (vd := versionDir env (package_info item)).
  rewrite bind_run, setState_run. cbv beta iota.
  set (w1 := {| fs := fs w; items := items w;
                view := apply_update (SetReadAccessUrl vd) (view w);
                log := log w ++ [EvSetState (SetReadAccessUrl vd)] |}).
  rewrite bind_run.
  pose proof (shouldDownload_world r vd w1) as Hw.
  destruct (shouldDownload r vd w1) as [[d|e] w1']; [|done].
  cbn [snd] in Hw. subst w1'. cbv beta iota.
  rewrite bind_run, Happ. unfold not_awaited, ret. cbv beta iota.
  cbn [fst snd]. intros _.
  destruct (checkForComponentUpdate_calls env app item w1)
    as (evs & Hlog & Hcount).
  exists evs. split; [|done]. rewrite Hlog. subst w1. cbn [log].
  by rewrite <- app_assoc.
Qed.

Lemma storage_call_not_update_check (e : Event) :
  is_storage_call e = true → is_update_check_call e = false.
Proof. by destruct e. Qed.

(** The calls of a resolution are those made before the download is
    decided, followed by calls that are not of the update check. *)
Lemma getOfflineEditorUrl_log
    (env : Env) (r : Render) (item : SNComponent) (w : World) :
  liveComponent r = Some item →
  ∃ first rest,
    log (snd (before_download env r item w)) = log w ++ first ∧
    log (snd (getOfflineEditorUrl env r w)) = log w ++ first ++ rest ∧
    Forall (λ e, is_update_check_call e = false) rest.
Proof.
  intros Hitem.
  rewrite (getOfflineEditorUrl_run _ _ _ _ Hitem), prepare_run.
  destruct (before_download_run env r item w)
    as (_ & _ & _ & evs & Hlog & _).
  destruct (before_download env r item w) as [[[|]|e] w0];
    cbn [fst snd] in *.
  - destruct (download_branch_run env (package_info item) w0)
      as (res & root & tail & _ & Hprefix & _ & _ & ->).
    eexists _, _. split; [exact Hlog|]. split.
    + destruct res as [[]|e]; [rewrite resolve_main_world|];
        cbn [snd log]; rewrite Hlog, <- app_assoc; reflexivity.
    + apply Forall_app. split; [by repeat constructor|].
      apply Forall_app. split; [|by repeat constructor].
      apply Forall_app. split.
      * destruct (fs_exists (fs w0) _); by repeat constructor.
      * eapply Forall_impl; [by eapply download_calls_storage|].
        apply storage_call_not_update_check.
  - exists (EvSetState
              (SetReadAccessUrl (versionDir env (package_info item)))
            :: evs), [].
    rewrite resolve_main_world, app_nil_r. by repeat split.
  - exists (EvSetState
              (SetReadAccessUrl (versionDir env (package_info item)))
            :: evs), [].
    rewrite app_nil_r. by repeat split.
Qed.

(** X18. A resolution with an application, for a version directory that
    is not a file, asks for the latest manifest exactly once when the
    package has a (non-empty) [latest_url], and never otherwise; this
    does not depend on whether the package is already unpacked, on a
    download being under way or on the outcome of the download. The item
    of the component is saved at most once. *)
Theorem getOfflineEditorUrl_update_check
    (env : Env) (r : Render) (app : SNApplication) (item : SNComponent)
    (w : World) :
  application r = Some app →
  liveComponent r = Some item →
  fs_readFile (fs w) (versionDir env (package_info item)) = None →
  let calls := since w (snd (getOfflineEditorUrl env r w)) in
  count is_fetch calls =
    match latest_url (package_info item) with
    | Some latestUrl => if truthy_string latestUrl then 1 else 0
    | None => 0
    end ∧
  (count is_changeAndSaveItem calls ≤ 1)%nat.
Proof.
  intros Happ Hitem Hfile calls. subst calls.
  destruct (shouldDownload_returns r _ w Hfile) as [decision Hdecision].
  destruct (before_download_run env r item w) as (Hfst & _).
  rewrite <- Hfst in Hdecision.
  destruct (before_download_calls env r app item w decision Happ Hdecision)
    as (evs & Hlog & Hfetch & Hsave).
  destruct (getOfflineEditorUrl_log env r item w Hitem)
    as (first & rest & Hfirst & Hall & Hrest).
  rewrite Hlog in Hfirst. apply app_inv_head in Hfirst. subst first.
  rewrite (since_app _ _ _ Hall).
  change (EvSetState
            (SetReadAccessUrl (versionDir env (package_info item))) :: evs)
    with ([EvSetState
             (SetReadAccessUrl (versionDir env (package_info item)))]
          ++ evs).
  rewrite !count_app, Hfetch.
  rewrite (count_none is_fetch rest), (count_none is_changeAndSaveItem rest).
  - change (count is_fetch [EvSetState _]) with 0.
    change (count is_changeAndSaveItem [EvSetState _]) with 0.
    split; lia.
  - eapply Forall_impl; [exact Hrest|]. intros e He. by destruct e.
  - eapply Forall_impl; [exact Hrest|]. intros e He. by destruct e.
Qed.

Lemma getOfflineEditorUrl_update_check_witness :
  let env := Scenario.device android false in
  let r := Scenario.render Scenario.started None Scenario.downloading_view in
  let w := Scenario.world Scenario.disk_stale Scenario.downloading_view in
  count is_fetch (since w (snd (getOfflineEditorUrl env r w))) = 1.
Proof.
  intros env r w.
  destruct (getOfflineEditorUrl_update_check env r Scenario.started
              Scenario.editor w eq_refl eq_refl eq_refl) as [Hfetch _].
  exact Hfetch.
Defined.

(** ** The load of the editor itself *)

(** X23. The request by which the web view loads the editor itself is
    handed to the external opener, and refused, exactly on Android when
    an offline URL is held that differs from [url]; in every other case
    it is let through, and then nothing at all is done. *)
Theorem editor_load_intercepted_iff
    (env : Env) (r : Render) (app : SNApplication)
    (request : ShouldStartLoadRequest) (w : World) :
  application r = Some app →
  editor_load_request env (state r) = Some request →
  let run := onShouldStartLoadWithRequest env r request w in
  (fst run = Return false ↔
   OS env = android ∧ truthy_string (offlineUrl (state r)) = true ∧
   offlineUrl (state r) ≠ url (state r)) ∧
  (fst run ≠ Return false → run = (Return true, w)).
Proof.
  intros Happ Hreq run. subst run.
  rewrite (onShouldStartLoadWithRequest_run _ _ _ _ _ Happ).
  unfold editor_load_request, source in Hreq.
  destruct (loadedOnce (state r)); [|done].
  injection Hreq as <-. cbn [request_url navigationType].
  destruct (decide (OS env = ios)) as [Hios|Hnios].
  - rewrite (bool_decide_eq_false_2 (Some other = Some click)) by done.
    rewrite andb_false_r.
    rewrite (bool_decide_eq_false_2 (OS env = android)) by congruence.
    cbn [orb andb fst]. split; [|done].
    split; [done | intros (Hos & _); congruence].
  - rewrite (bool_decide_eq_false_2 (OS env = ios)) by done.
    cbn [orb andb].
    destruct (decide (OS env = android)) as [Handroid|Hother].
    + rewrite (bool_decide_eq_true_2 _ Handroid). cbn [andb].
      destruct (truthy_string (offlineUrl (state r))) eqn:Hoffline.
      * destruct (String.eqb_spec (offlineUrl (state r)) (url (state r)))
          as [Heq|Hne]; cbn [negb fst].
        -- split; [|done]. split; [done | intros (_ & _ & ?); congruence].
        -- split; [by split | done].
      * rewrite String.eqb_refl. cbn [negb fst]. split; [|done].
        split; [done | intros (_ & ? & _); congruence].
    + rewrite (bool_decide_eq_false_2 _ Hother). cbn [andb fst].
      split; [|done]. split; [done | intros (? & _); congruence].
Qed.

Lemma editor_load_intercepted_iff_witness :
  let env := Scenario.device ios true in
  let r := Scenario.render Scenario.started None Scenario.offline_view in
  let w := Scenario.world Scenario.disk_current Scenario.offline_view in
  let request :=
    {| request_url :=
         "file:///ext/editors/org.editor/1.0/package/index.html";
       navigationType := Some other |} in
  onShouldStartLoadWithRequest env r request w = (Return true, w).
Proof.
  intros env r w request.
  destruct (editor_load_intercepted_iff env r Scenario.started request w
              eq_refl eq_refl) as [Hiff Hpass].
  apply Hpass. intros Hrefused. apply Hiff in Hrefused as (Hos & _).
  discriminate Hos.
Defined.

End ComponentViewExtra.

(* ===================================================================== *)
(** * The timers of a frame load: properties *)
(* ===================================================================== *)

Module FrameLoadFacts.
Import ComponentView ComponentViewFacts FrameLoad.

(** ** Clearing timers *)

Lemma clearTimeout_Forall (P : Timer → Prop) (id : nat)
    (timers : list Timer) :
  Forall P timers → Forall P (clearTimeout id timers).
Proof.
  induction 1 as [|t ts Ht _ IH]; simpl; [done|].
  destruct (negb _); [by constructor | done].
Qed.

Lemma clearTimeout_gone (id : nat) (timers : list Timer) :
  Forall (λ t, timer_id t ≠ id) (clearTimeout id timers).
Proof.
  induction timers as [|t ts IH]; simpl; [done|].
  destruct (Nat.eqb_spec (timer_id t) id); simpl; [done|].
  by constructor.
Qed.

Lemma clearTimeout_ids (id x : nat) (timers : list Timer) :
  x ∈ timer_id <$> clearTimeout id timers → x ∈ timer_id <$> timers.
Proof.
  induction timers as [|t ts IH]; simpl; [done|].
  destruct (negb _); simpl; rewrite ?elem_of_cons; intuition.
Qed.

Lemma clearTimeout_NoDup (id : nat) (timers : list Timer) :
  NoDup (timer_id <$> timers) → NoDup (timer_id <$> clearTimeout id timers).
Proof.
  induction timers as [|t ts IH]; simpl; [done|].
  rewrite NoDup_cons. intros [Hnew Hts].
  destruct (negb _); simpl; [|by apply IH].
  apply NoDup_cons. split; [|by apply IH].
  intros Hin. by apply Hnew, (clearTimeout_ids id).
Qed.

Lemma clearTimeout_absent (id : nat) (timers : list Timer) :
  id ∉ timer_id <$> timers → clearTimeout id timers = timers.
Proof.
  induction timers as [|t ts IH]; simpl; [done|].
  rewrite not_elem_of_cons. intros [Hne Hts].
  destruct (Nat.eqb_spec (timer_id t) id); [congruence|].
  simpl. by rewrite IH.
Qed.

(** Clearing a timer leaves the timers of the other identifiers. *)
Lemma clearTimeout_others (P : Timer → bool) (id : nat)
    (timers : list Timer) :
  Forall (λ t, P t = true → timer_id t ≠ id) timers →
  List.filter P (clearTimeout id timers) = List.filter P timers.
Proof.
  induction 1 as [|t ts Ht _ IH]; simpl; [done|].
  destruct (Nat.eqb_spec (timer_id t) id) as [Heq|Hne]; simpl.
  - destruct (P t); [by destruct Ht | done].
  - by rewrite IH.
Qed.

(** Among timers with distinct identifiers, the one that fires is the
    only one that goes. *)
Lemma clearTimeout_found (P : Timer → bool) (id : nat)
    (timers : list Timer) (t : Timer) :
  NoDup (timer_id <$> timers) →
  List.find (λ t, Nat.eqb (timer_id t) id) timers = Some t →
  (length (List.filter P (clearTimeout id timers)) +
   (if P t then 1 else 0) = length (List.filter P timers))%nat.
Proof.
  induction timers as [|t0 ts IH]; simpl; [done|].
  rewrite NoDup_cons. intros [Hnew Hts].
  destruct (Nat.eqb_spec (timer_id t0) id) as [Heq|Hne]; simpl.
  - intros [= <-]. rewrite clearTimeout_absent by (by rewrite <- Heq).
    destruct (P t0); simpl; lia.
  - intros Hfind. specialize (IH Hts Hfind).
    destruct (P t0); simpl; lia.
Qed.

Lemma find_pending (id : nat) (timers : list Timer) (t : Timer) :
  List.find (λ t, Nat.eqb (timer_id t) id) timers = Some t →
  t ∈ timers ∧ timer_id t = id.
Proof.
  induction timers as [|t0 ts IH]; simpl; [done|].
  destruct (Nat.eqb_spec (timer_id t0) id) as [Heq|Hne].
  - intros [= <-]. rewrite elem_of_cons. by split; [left|].
  - intros Hfind. destruct (IH Hfind). rewrite elem_of_cons.
    by split; [right|].
Qed.

Lemma filter_false {A} (P : A → bool) (l : list A) :
  Forall (λ x, P x = false) l → List.filter P l = [].
Proof.
  induction 1 as [|x l Hx _ IH]; simpl; [done|]. by rewrite Hx.
Qed.

(** Timers with distinct identifiers of which those that satisfy [P]
    share one identifier: at most one of them satisfies [P]. *)
Lemma at_most_one_timer (P : Timer → bool) (id : nat)
    (timers : list Timer) :
  NoDup (timer_id <$> timers) →
  Forall (λ t, P t = true → timer_id t = id) timers →
  (length (List.filter P timers) ≤ 1)%nat.
Proof.
  induction timers as [|t ts IH]; simpl; [lia|].
  rewrite NoDup_cons. intros [Hnew Hts] Hall.
  apply Forall_cons in Hall as [Ht Hrest].
  specialize (IH Hts Hrest).
  destruct (P t) eqn:HP; [|done].
  assert (List.filter P ts = []) as ->; [|simpl; lia].
  apply filter_false, Forall_forall. intros t' Hin.
  destruct (P t') eqn:HP'; [|done].
  destruct Hnew.
  rewrite (Ht eq_refl), <- (proj1 (Forall_forall _ _) Hrest t' Hin HP').
  by apply list_elem_of_fmap_2.
Qed.

(** ** The handlers *)

Lemma since_refl (w : World) : since w w = [].
Proof. unfold since. apply drop_all. Qed.

(** The calls that the two handlers log clear what the test on the
    reference says. *)
Lemma cleared_clear_registration (w : World) (timers : list Timer) :
  cleared (since w (snd (clear_registration w))) timers =
    clear_current (timeoutRef (view w)) timers ∧
  view (snd (clear_registration w)) = view w.
Proof.
  unfold clear_registration, clear_current.
  destruct (timeoutRef (view w)) as [id|];
    [|by rewrite since_refl].
  destruct (Nat.eqb id 0); [by rewrite since_refl|].
  rewrite emit_run. cbn [snd view]. split; [|done].
  by erewrite since_app; [|reflexivity].
Qed.

Lemma cleared_onLoadErrorHandler (w : World) (timers : list Timer) :
  cleared (since w (snd (onLoadErrorHandler w))) timers =
    clear_current (timeoutRef (view w)) timers ∧
  view (snd (onLoadErrorHandler w)) = view w.
Proof.
  rewrite onLoadErrorHandler_run. cbn [snd view]. split; [|done].
  erewrite since_app; [|reflexivity]. unfold clear_current.
  destruct (timeoutRef (view w)) as [id|]; [|done].
  by destruct (Nat.eqb id 0).
Qed.

Lemma onFrameLoad_frame (f : Frame) :
  pending (onFrameLoad f) =
    clear_current (timeoutRef (view (world f))) (pending f) ++
    [{| timer_id := next_id f;
        callback := RegisterComponentWindow; delay := 1 |};
     {| timer_id := S (next_id f); callback := OnLoadEnd; delay := 200 |}] ∧
  timeoutRef (view (world (onFrameLoad f))) = Some (next_id f) ∧
  loadedOnce (view (world (onFrameLoad f))) = true ∧
  next_id (onFrameLoad f) = S (S (next_id f)) ∧
  called (onFrameLoad f) = called f.
Proof.
  unfold onFrameLoad. cbn [pending world view next_id called].
  by destruct (cleared_clear_registration (world f) (pending f)) as [-> _].
Qed.

Lemma onError_frame (f : Frame) :
  pending (onError f) =
    clear_current (timeoutRef (view (world f))) (pending f) ∧
  view (world (onError f)) = view (world f) ∧
  next_id (onError f) = next_id f ∧
  called (onError f) = called f.
Proof.
  unfold onError. cbn [pending world view next_id called].
  by destruct (cleared_onLoadErrorHandler (world f) (pending f))
    as [-> ->].
Qed.

(** ** What the test on the reference leaves *)

Lemma clear_current_Forall (P : Timer → Prop) (ref : option nat)
    (timers : list Timer) :
  Forall P timers → Forall P (clear_current ref timers).
Proof.
  intros H. unfold clear_current. destruct ref as [id|]; [|done].
  destruct (Nat.eqb id 0); [done|]. by apply clearTimeout_Forall.
Qed.

Lemma clear_current_NoDup (ref : option nat) (timers : list Timer) :
  NoDup (timer_id <$> timers) →
  NoDup (timer_id <$> clear_current ref timers).
Proof.
  intros H. unfold clear_current. destruct ref as [id|]; [|done].
  destruct (Nat.eqb id 0); [done|]. by apply clearTimeout_NoDup.
Qed.

(** No registration timer is left. *)
Lemma clear_current_registrations (f : Frame) :
  consistent f →
  Forall (λ t, callback t ≠ RegisterComponentWindow)
    (clear_current (timeoutRef (view (world f))) (pending f)).
Proof.
  intros (_ & Hids & _ & Href). unfold clear_current.
  destruct (timeoutRef (view (world f))) as [id|].
  - destruct (Nat.eqb_spec id 0) as [->|Hid].
    + apply Forall_forall. intros t Hin Hreg.
      pose proof (proj1 (Forall_forall _ _) Hids t Hin) as Hrange.
      pose proof (proj1 (Forall_forall _ _) Href t Hin) as Ht.
      cbv beta in Hrange, Ht. apply Ht in Hreg. injection Hreg. lia.
    + pose proof (clearTimeout_gone id (pending f)) as Hgone.
      pose proof (clearTimeout_Forall _ id _ Href) as Hkept.
      apply Forall_forall. intros t Hin Hreg.
      pose proof (proj1 (Forall_forall _ _) Hgone t Hin) as Hne.
      pose proof (proj1 (Forall_forall _ _) Hkept t Hin) as Ht.
      cbv beta in Hne, Ht. apply Ht in Hreg. congruence.
  - eapply Forall_impl; [exact Href|]. intros t Ht Hreg.
    by apply Ht in Hreg.
Qed.

(** The timers of [onLoadEnd] all stay. *)
Lemma clear_current_load_ends (f : Frame) :
  consistent f →
  timers_of OnLoadEnd
    (clear_current (timeoutRef (view (world f))) (pending f)) =
  timers_of OnLoadEnd (pending f).
Proof.
  intros (_ & _ & _ & Href). unfold clear_current.
  destruct (timeoutRef (view (world f))) as [id|]; [|done].
  destruct (Nat.eqb id 0); [done|].
  apply clearTimeout_others.
  eapply Forall_impl; [exact Href|]. intros t Ht Hend Hid.
  apply bool_decide_eq_true in Hend.
  assert (callback t = RegisterComponentWindow) as Hreg
    by (apply Ht; by rewrite Hid).
  congruence.
Qed.

(** ** The invariant *)

Lemma consistent_mounted (w : World) (first_id : nat) :
  (1 ≤ first_id)%nat → consistent (mounted w first_id).
Proof.
  intros H. unfold consistent, mounted. cbn [pending next_id].
  split; [done|]. split; [done|]. split; [apply NoDup_nil_2 | done].
Qed.

Lemma consistent_step (f : Frame) (i : Input) :
  consistent f → consistent (step f i).
Proof.
  intros Hf. pose proof Hf as (Hnext & Hids & Hdup & Href).
  destruct i as [| |id|]; cbn [step].
  - destruct (onFrameLoad_frame f) as (Hp & Ht & _ & Hn & _).
    pose proof (clear_current_registrations f Hf) as Hnone.
    unfold consistent. rewrite Hp, Ht, Hn.
    set (kept := clear_current (timeoutRef (view (world f))) (pending f))
      in *.
    assert (Forall (λ t, 1 ≤ timer_id t < next_id f)%nat kept) as Hkept
      by (by apply clear_current_Forall).
    split; [lia|]. split; [|split].
    + apply Forall_app. split.
      * eapply Forall_impl; [exact Hkept|]. intros t. simpl. lia.
      * repeat constructor; simpl; lia.
    + rewrite fmap_app. apply NoDup_app. split; [|split].
      * by apply clear_current_NoDup.
      * intros x Hx Hnew. apply list_elem_of_fmap in Hx as (t & -> & Hin).
        pose proof (proj1 (Forall_forall _ _) Hkept t Hin) as Hrange.
        cbv beta in Hrange. simpl in Hnew.
        rewrite !elem_of_cons, elem_of_nil in Hnew. lia.
      * simpl. apply NoDup_cons. split.
        -- rewrite elem_of_cons, elem_of_nil. lia.
        -- apply NoDup_singleton.
    + apply Forall_app. split.
      * apply Forall_forall. intros t Hin.
        pose proof (proj1 (Forall_forall _ _) Hkept t Hin) as Hrange.
        pose proof (proj1 (Forall_forall _ _) Hnone t Hin) as Hnot.
        cbv beta in Hrange, Hnot. split; [done|].
        intros [= Heq]. lia.
      * repeat constructor; simpl; try done; intros [= Heq]; lia.
  - destruct (onError_frame f) as (Hp & Hv & Hn & _).
    unfold consistent. rewrite Hp, Hv, Hn.
    split; [done|]. split; [by apply clear_current_Forall|].
    split; [by apply clear_current_NoDup | by apply clear_current_Forall].
  - unfold fire.
    destruct (List.find _ (pending f)) as [t|]; [|done].
    unfold consistent. cbn [pending next_id world].
    split; [done|]. split; [by apply clearTimeout_Forall|].
    split; [by apply clearTimeout_NoDup | by apply clearTimeout_Forall].
  - unfold consistent. cbn [pending next_id world].
    split; [lia|]. split; [|done].
    eapply Forall_impl; [exact Hids|]. intros t. simpl. lia.
Qed.

Lemma consistent_run (trace : list Input) (f : Frame) :
  consistent f → consistent (run trace f).
Proof.
  revert f. induction trace as [|i trace IH]; intros f Hf; [done|].
  apply IH. by apply consistent_step.
Qed.

(** ** Counting timers and calls *)

Lemma timers_of_app (cb : TimerCallback) (l k : list Timer) :
  timers_of cb (l ++ k) = timers_of cb l ++ timers_of cb k.
Proof. apply List.filter_app. Qed.

Lemma timers_of_none (cb : TimerCallback) (timers : list Timer) :
  Forall (λ t, callback t ≠ cb) timers → timers_of cb timers = [].
Proof.
  intros H. apply filter_false. eapply Forall_impl; [exact H|].
  intros t Ht. by apply bool_decide_eq_false.
Qed.

Lemma calls_of_snoc (cb c : TimerCallback) (calls : list TimerCallback) :
  calls_of cb (calls ++ [c]) =
  (calls_of cb calls + if bool_decide (c = cb) then 1 else 0)%nat.
Proof.
  unfold calls_of. rewrite List.filter_app, length_app. simpl.
  by destruct (bool_decide (c = cb)).
Qed.

Lemma frame_loads_cons (i : Input) (trace : list Input) :
  frame_loads (i :: trace) =
  ((if is_frame_load i then 1 else 0) + frame_loads trace)%nat.
Proof. unfold frame_loads. simpl. by destruct (is_frame_load i). Qed.

(** A timer that fires moves from the pending timers to the calls. *)
Lemma fire_count (cb : TimerCallback) (id : nat) (f : Frame) :
  consistent f →
  (length (timers_of cb (pending (fire id f))) +
   calls_of cb (called (fire id f)) =
   length (timers_of cb (pending f)) + calls_of cb (called f))%nat.
Proof.
  intros (_ & _ & Hdup & _). unfold fire.
  destruct (List.find _ (pending f)) as [t|] eqn:Hfind; [|done].
  cbn [pending called]. rewrite calls_of_snoc.
  pose proof (clearTimeout_found
                (λ t, bool_decide (callback t = cb)) id _ t Hdup Hfind)
    as Hcount.
  unfold timers_of. cbv beta in Hcount. lia.
Qed.

Lemma load_end_step (f : Frame) (i : Input) :
  consistent f →
  (length (timers_of OnLoadEnd (pending (step f i))) +
   calls_of OnLoadEnd (called (step f i)) =
   length (timers_of OnLoadEnd (pending f)) +
   calls_of OnLoadEnd (called f) +
   if is_frame_load i then 1 else 0)%nat.
Proof.
  intros Hf. destruct i as [| |id|]; cbn [step is_frame_load].
  - destruct (onFrameLoad_frame f) as (-> & _ & _ & _ & ->).
    rewrite timers_of_app, (clear_current_load_ends f Hf), length_app.
    simpl. lia.
  - destruct (onError_frame f) as (-> & _ & _ & ->).
    rewrite (clear_current_load_ends f Hf). lia.
  - rewrite (fire_count OnLoadEnd id f Hf). lia.
  - cbn [pending called]. lia.
Qed.

Lemma registration_step (f : Frame) (i : Input) :
  consistent f →
  (length (timers_of RegisterComponentWindow (pending (step f i))) +
   calls_of RegisterComponentWindow (called (step f i)) ≤
   length (timers_of RegisterComponentWindow (pending f)) +
   calls_of RegisterComponentWindow (called f) +
   if is_frame_load i then 1 else 0)%nat.
Proof.
  intros Hf. destruct i as [| |id|]; cbn [step is_frame_load].
  - destruct (onFrameLoad_frame f) as (-> & _ & _ & _ & ->).
    rewrite timers_of_app,
      (timers_of_none _ _ (clear_current_registrations f Hf)).
    simpl. lia.
  - destruct (onError_frame f) as (-> & _ & _ & ->).
    rewrite (timers_of_none _ _ (clear_current_registrations f Hf)).
    simpl. lia.
  - rewrite (fire_count RegisterComponentWindow id f Hf). lia.
  - cbn [pending called]. lia.
Qed.

Lemma load_end_run (trace : list Input) (f : Frame) :
  consistent f →
  (length (timers_of OnLoadEnd (pending (run trace f))) +
   calls_of OnLoadEnd (called (run trace f)) =
   length (timers_of OnLoadEnd (pending f)) +
   calls_of OnLoadEnd (called f) + frame_loads trace)%nat.
Proof.
  revert f. induction trace as [|i trace IH]; intros f Hf.
  - unfold frame_loads. simpl. lia.
  - change (run (i :: trace) f) with (run trace (step f i)).
    rewrite (IH _ (consistent_step f i Hf)), (load_end_step f i Hf),
      frame_loads_cons. lia.
Qed.

Lemma registration_run (trace : list Input) (f : Frame) :
  consistent f →
  (length (timers_of RegisterComponentWindow (pending (run trace f))) +
   calls_of RegisterComponentWindow (called (run trace f)) ≤
   length (timers_of RegisterComponentWindow (pending f)) +
   calls_of RegisterComponentWindow (called f) + frame_loads trace)%nat.
Proof.
  revert f. induction trace as [|i trace IH]; intros f Hf.
  - unfold frame_loads. simpl. lia.
  - change (run (i :: trace) f) with (run trace (step f i)).
    pose proof (IH _ (consistent_step f i Hf)) as Hrest.
    pose proof (registration_step f i Hf) as Hstep.
    rewrite frame_loads_cons. lia.
Qed.

(** Without a frame load, no registration timer comes back and the
    component window is not registered. *)
Lemma no_registration_run (later : list Input) (f : Frame) :
  Forall (λ t, callback t ≠ RegisterComponentWindow) (pending f) →
  Forall (λ i, is_frame_load i = false) later →
  Forall (λ t, callback t ≠ RegisterComponentWindow)
    (pending (run later f)) ∧
  calls_of RegisterComponentWindow (called (run later f)) =
    calls_of RegisterComponentWindow (called f).
Proof.
  revert f. induction later as [|i later IH]; intros f Hnone Hlater;
    [done|].
  apply Forall_cons in Hlater as [Hi Hlater].
  change (run (i :: later) f) with (run later (step f i)).
  assert (Forall (λ t, callback t ≠ RegisterComponentWindow)
            (pending (step f i)) ∧
          calls_of RegisterComponentWindow (called (step f i)) =
            calls_of RegisterComponentWindow (called f)) as [Hp Hc].
  { destruct i as [| |id|]; cbn [step]; [done| | |done].
    - destruct (onError_frame f) as (-> & _ & _ & ->).
      split; [by apply clear_current_Forall | done].
    - unfold fire.
      destruct (List.find _ (pending f)) as [t|] eqn:Hfind; [|done].
      cbn [pending called]. split; [by apply clearTimeout_Forall|].
      destruct (find_pending _ _ _ Hfind) as [Hin _].
      pose proof (proj1 (Forall_forall _ _) Hnone t Hin) as Ht.
      cbv beta in Ht.
      rewrite calls_of_snoc, bool_decide_eq_false_2 by done. lia. }
  destruct (IH _ Hp Hlater) as [Hp' Hc']. split; [done|congruence].
Qed.

(** ** The timers of a mounted view *)

(** X19. At every moment in the life of a mounted view at most one
    registration timer is pending, and it is the one that the timer
    reference holds: each frame load replaces the timer of the frame
    load before it. The component window is registered at most once per
    frame load. *)
Theorem registration_timer_unique
    (w : World) (first_id : nat) (trace : list Input) :
  (1 ≤ first_id)%nat →
  let f := run trace (mounted w first_id) in
  (length (timers_of RegisterComponentWindow (pending f)) ≤ 1)%nat ∧
  Forall (λ t, timeoutRef (view (world f)) = Some (timer_id t))
    (timers_of RegisterComponentWindow (pending f)) ∧
  (length (timers_of RegisterComponentWindow (pending f)) +
   calls_of RegisterComponentWindow (called f) ≤ frame_loads trace)%nat.
Proof.
  intros Hfirst f.
  pose proof (consistent_run trace _ (consistent_mounted w first_id Hfirst))
    as Hf.
  fold f in Hf. pose proof Hf as (_ & _ & Hdup & Href).
  assert (Forall (λ t, timeoutRef (view (world f)) = Some (timer_id t))
            (timers_of RegisterComponentWindow (pending f))) as Hheld.
  { apply Forall_forall. intros t Hin.
    apply list_elem_of_In, filter_In in Hin as [Hin Hreg].
    apply bool_decide_eq_true in Hreg.
    apply list_elem_of_In in Hin.
    by apply (proj1 (Forall_forall _ _) Href t Hin). }
  split; [|split; [done|]].
  - destruct (timeoutRef (view (world f))) as [id|] eqn:Hid.
    + apply (at_most_one_timer _ id); [done|].
      eapply Forall_impl; [exact Href|]. intros t Ht Hreg.
      apply bool_decide_eq_true in Hreg. apply Ht in Hreg. congruence.
    + apply (at_most_one_timer _ 0); [done|].
      eapply Forall_impl; [exact Href|]. intros t Ht Hreg.
      apply bool_decide_eq_true in Hreg. apply Ht in Hreg. congruence.
  - pose proof (registration_run trace _
                  (consistent_mounted w first_id Hfirst)) as Hcount.
    fold f in Hcount. by cbn in Hcount.
Qed.

Lemma registration_timer_unique_witness :
  let w := Scenario.world Scenario.disk_current Scenario.offline_view in
  let f := run [FrameLoaded; FrameLoaded; FrameLoaded] (mounted w 1) in
  (length (timers_of RegisterComponentWindow (pending f)) ≤ 1)%nat ∧
  length (timers_of OnLoadEnd (pending f)) = 3.
Proof.
  intros w f.
  destruct (registration_timer_unique w 1
              [FrameLoaded; FrameLoaded; FrameLoaded]) as (Hone & _);
    [lia|].
  split; [exact Hone | vm_compute; reflexivity].
Defined.

(** X20. A load error cancels the pending registration: from the error
    until the next frame load, whichever timers fire and in whatever
    order, the component window is not registered, and no registration
    timer is pending. *)
Theorem load_failure_cancels_registration
    (w : World) (first_id : nat) (trace later : list Input) :
  (1 ≤ first_id)%nat →
  Forall (λ i, is_frame_load i = false) later →
  let f := run trace (mounted w first_id) in
  let f' := run (LoadFailed :: later) f in
  timers_of RegisterComponentWindow (pending f') = [] ∧
  calls_of RegisterComponentWindow (called f') =
    calls_of RegisterComponentWindow (called f).
Proof.
  intros Hfirst Hlater f f'.
  pose proof (consistent_run trace _ (consistent_mounted w first_id Hfirst))
    as Hf.
  fold f in Hf.
  subst f'. change (run (LoadFailed :: later) f) with (run later (onError f)).
  pose proof (clear_current_registrations f Hf) as Hnone.
  destruct (onError_frame f) as (Hp & _ & _ & Hc).
  rewrite <- Hp in Hnone.
  destruct (no_registration_run later (onError f) Hnone Hlater)
    as [Hp' Hc'].
  split; [by apply timers_of_none | congruence].
Qed.

Lemma load_failure_cancels_registration_witness :
  let w := Scenario.world Scenario.disk_current Scenario.offline_view in
  let f := run [FrameLoaded] (mounted w 1) in
  let f' := run [LoadFailed; TimerFired 1; TimerFired 2] f in
  length (timers_of RegisterComponentWindow (pending f)) = 1 ∧
  calls_of RegisterComponentWindow (called f') = 0 ∧
  calls_of OnLoadEnd (called f') = 1.
Proof.
  intros w f f'.
  destruct (load_failure_cancels_registration w 1 [FrameLoaded]
              [TimerFired 1; TimerFired 2]) as [_ Hcalls];
    [lia | by repeat constructor |].
  split; [vm_compute; reflexivity|].
  split; [exact Hcalls | vm_compute; reflexivity].
Defined.

(** X21. Every frame load leads to exactly one call of [onLoadEnd]: at
    every moment, the timers of [onLoadEnd] that are pending and the
    calls of [onLoadEnd] that were made add up to the number of frame
    loads. Neither a later frame load nor a load error clears such a
    timer, so [onLoadEnd] is also called for a frame whose load
    failed. *)
Theorem onLoadEnd_once_per_frame_load
    (w : World) (first_id : nat) (trace : list Input) :
  (1 ≤ first_id)%nat →
  let f := run trace (mounted w first_id) in
  (length (timers_of OnLoadEnd (pending f)) +
   calls_of OnLoadEnd (called f) = frame_loads trace)%nat.
Proof.
  intros Hfirst f.
  pose proof (load_end_run trace _ (consistent_mounted w first_id Hfirst))
    as Hcount.
  fold f in Hcount. by cbn in Hcount.
Qed.

Lemma onLoadEnd_once_per_frame_load_witness :
  let w := Scenario.world Scenario.disk_current Scenario.offline_view in
  let f := run [FrameLoaded; LoadFailed; FrameLoaded; TimerFired 4]
             (mounted w 1) in
  (length (timers_of OnLoadEnd (pending f)) +
   calls_of OnLoadEnd (called f) = 2)%nat.
Proof.
  intros w f.
  apply (onLoadEnd_once_per_frame_load w 1
           [FrameLoaded; LoadFailed; FrameLoaded; TimerFired 4]).
  lia.
Defined.

End FrameLoadFacts.

(* ===================================================================== *)
(** * The warning about old Android versions: properties *)
(* ===================================================================== *)

Module UnsupportedEditorsFacts.
Import Js ComponentView UnsupportedEditors.

(** Once the preference is set, the effect does nothing. *)
Lemma warn_effects_dismissed (env : Env) (Version : Z)
    (mounts : list (option SNApplication * bool)) (d : Device) :
  truthy_json
    (getValue (prefs d) DoNotShowAgainUnsupportedEditors (JBool false))
    = true →
  warn_effects env Version mounts d = d.
Proof.
  intros Hset. induction mounts as [|[app answer] mounts IH]; [done|].
  unfold warn_effects in *. cbn [foldl]. unfold warn_effect at 2.
  destruct (_ && _); [|done].
  unfold warnUnsupportedEditors. cbn [fst snd].
  destruct app; [|done]. by rewrite Hset.
Qed.

(** The effect only ever writes its own preference, and only on the
    Android versions that the warning is about. *)
Lemma warn_effects_frame (env : Env) (Version : Z)
    (mounts : list (option SNApplication * bool)) (d : Device) :
  (∀ key, key ≠ DoNotShowAgainUnsupportedEditors →
          prefs (warn_effects env Version mounts d) !! key =
          prefs d !! key) ∧
  (OS env ≠ android ∨ (23 < Version)%Z →
   warn_effects env Version mounts d = d).
Proof.
  revert d. induction mounts as [|[app answer] mounts IH]; intros d;
    [done|].
  unfold warn_effects in *. cbn [foldl].
  destruct (IH (warn_effect env Version d (app, answer))) as [IHk IHo].
  split.
  - intros key Hkey. rewrite (IHk key Hkey).
    unfold warn_effect, warnUnsupportedEditors. cbn [fst snd].
    destruct (_ && _); [|done]. destruct app; [|done].
    destruct (truthy_json _); [done|].
    destruct answer; [|done]. cbn [prefs]. unfold setUserPrefValue.
    by rewrite lookup_insert_ne.
  - intros Hother. rewrite (IHo Hother).
    unfold warn_effect.
    destruct Hother as [Hos|Hversion].
    + by rewrite (bool_decide_eq_false_2 _ Hos).
    + assert ((Version <=? 23)%Z = false) as -> by lia.
      by rewrite andb_false_r.
Qed.

(** X22. On Android up to API level 23, once the user has answered the
    warning with [Don't show again], the dialog is never shown again and
    the preferences are not written again, however often the view is
    mounted afterwards. The dialog is shown at most once per mount, the
    effect writes no preference but its own, and on the other platforms
    and versions it does nothing at all. *)
Theorem unsupported_editors_warning
    (env : Env) (Version : Z) (app : SNApplication) (d : Device)
    (later : list (option SNApplication * bool)) :
  OS env = android →
  (Version ≤ 23)%Z →
  let answered := warn_effect env Version d (Some app, true) in
  let after := warn_effects env Version later answered in
  after = answered ∧
  truthy_json
    (getValue (prefs answered) DoNotShowAgainUnsupportedEditors
       (JBool false)) = true ∧
  (length (confirms answered) ≤ length (confirms d) + 1)%nat ∧
  ∀ key, key ≠ DoNotShowAgainUnsupportedEditors →
         prefs after !! key = prefs d !! key.
Proof.
  intros Hos Hversion answered after.
  assert (truthy_json
            (getValue (prefs answered) DoNotShowAgainUnsupportedEditors
               (JBool false)) = true) as Hset.
  { subst answered. unfold warn_effect, warnUnsupportedEditors.
    cbn [fst snd]. rewrite (bool_decide_eq_true_2 _ Hos).
    assert ((Version <=? 23)%Z = true) as -> by lia. cbn [andb].
    destruct (truthy_json (getValue (prefs d) _ _)) eqn:Hbefore; [done|].
    cbn [prefs]. unfold getValue, setUserPrefValue.
    by rewrite lookup_insert_eq. }
  split; [by apply warn_effects_dismissed|]. split; [done|]. split.
  - subst answered. unfold warn_effect, warnUnsupportedEditors.
    cbn [fst snd]. destruct (_ && _); [|lia].
    destruct (truthy_json (getValue (prefs d) _ _)); [lia|].
    cbn [confirms]. rewrite length_app. simpl. lia.
  - intros key Hkey. subst after.
    rewrite (warn_effects_dismissed _ _ _ _ Hset).
    destruct (warn_effects_frame env Version [(Some app, true)] d)
      as [Hframe _].
    by apply Hframe.
Qed.

Lemma unsupported_editors_warning_witness :
  let env := Scenario.device android true in
  let d := {| prefs := ∅; confirms := [] |} in
  let mounts := [(Some Scenario.started, false);
                 (Some Scenario.started, true);
                 (Some Scenario.started, false)] in
  confirms (warn_effects env 23 mounts d) =
    ["Editors Not Supported"; "Editors Not Supported"].
Proof.
  intros env d mounts.
  destruct (unsupported_editors_warning env 23 Scenario.started
              (warn_effect env 23 d (Some Scenario.started, false))
              [(Some Scenario.started, false)] eq_refl)
    as (Hsame & _); [lia|].
  subst mounts. unfold warn_effects in *. cbn [foldl] in *.
  rewrite Hsame. vm_compute. reflexivity.
Defined.

End UnsupportedEditorsFacts.

(* ===================================================================== *)
(** * Measuring the title and the list: properties *)
(* ===================================================================== *)

Module BottomSheetLayoutFacts.
Import BottomSheet BottomSheetFacts BottomSheetLayout.

Lemma layout_step_title (sheet : Props * State) (e : LayoutEvent) :
  (title_rendered (fst sheet) = false → titleHeight (snd sheet) = 0%Q) →
  title_rendered (fst (layout_step sheet e)) = false →
  titleHeight (snd (layout_step sheet e)) = 0%Q.
Proof.
  destruct sheet as [p st]. cbn [fst snd]. intros Hinv.
  destruct e as [height|height|t]; cbn [layout_step].
  - destruct (title_rendered p) eqn:Hp; cbn [fst snd];
      [congruence | intros _; by apply Hinv].
  - cbn [fst snd onListLayout titleHeight]. exact Hinv.
  - cbn [fst snd]. unfold title_effect. by intros ->.
Qed.

Lemma layout_run_title (events : list LayoutEvent) (sheet : Props * State) :
  (title_rendered (fst sheet) = false → titleHeight (snd sheet) = 0%Q) →
  title_rendered (fst (layout_run events sheet)) = false →
  titleHeight (snd (layout_run events sheet)) = 0%Q.
Proof.
  revert sheet. induction events as [|e events IH]; intros sheet Hinv;
    [done|].
  apply IH. by apply layout_step_title.
Qed.

(** X24. Whenever a sheet has no title to show (none, or an empty one),
    whatever was laid out before and whichever titles it had, the title
    height is 0, so the sheet is sized by its list alone: its snap point
    is 1 while the list is unmeasured, and otherwise the smaller of the
    height of the list and 85% of the screen. *)
Theorem sheet_without_title
    (p : Props) (events : list LayoutEvent) (screenHeight : Q) :
  let sheet := layout_run events (sheet_mounted p) in
  title_rendered (fst sheet) = false →
  titleHeight (snd sheet) = 0%Q ∧
  (listHeight (snd sheet) == 0 →
   sheet_snapPoints screenHeight (fst sheet) (snd sheet) = [1%Q])%Q ∧
  (¬ listHeight (snd sheet) == 0 →
   ∃ s, sheet_snapPoints screenHeight (fst sheet) (snd sheet) = [s] ∧
        s <= listHeight (snd sheet) ∧ s <= 0.85 * screenHeight ∧
        (s == listHeight (snd sheet) ∨ s == 0.85 * screenHeight))%Q.
Proof.
  intros sheet Hnone.
  assert (titleHeight (snd sheet) = 0%Q) as Hzero.
  { apply layout_run_title; [|done].
    unfold sheet_mounted, title_effect. cbn [fst snd]. by intros ->. }
  split; [done|]. unfold sheet_snapPoints, contentHeight. rewrite Hzero.
  split.
  - intros Hl. apply snapPoints_unmeasured. lra.
  - intros Hl. rewrite snapPoints_measured by lra.
    destruct (Qlt_le_dec (0 + listHeight (snd sheet)) (0.85 * screenHeight))
      as [Hlt|Hge].
    + eexists. split; [reflexivity|].
      split; [lra|]. split; [lra|]. left. lra.
    + eexists. split; [reflexivity|].
      split; [lra|]. split; [lra|]. right. reflexivity.
Qed.

Lemma sheet_without_title_witness :
  let p := {| visible := true; sections := Scenario.note_sections;
              title := Some "Note" |} in
  let sheet :=
    layout_run [TitleLayout 60; ListLayout 340; NewTitle None]
      (sheet_mounted p) in
  sheet_snapPoints 800 (fst sheet) (snd sheet) = [(0 + 340)%Q].
Proof.
  intros p sheet. subst sheet.
  destruct (sheet_without_title p
              [TitleLayout 60; ListLayout 340; NewTitle None] 800 eq_refl)
    as (Hzero & _ & _).
  unfold sheet_snapPoints. rewrite Hzero. vm_compute. reflexivity.
Defined.

End BottomSheetLayoutFacts.
